(** * Matching Network episodic engine: a shallow embedding

    This development embeds [models/matching/matchingnet.py]:
    [MatchingNet.loss], [MatchingNet.train_step], [MatchingNet.test_step]
    and the training loop of [run_matching].

    Tensors are lists of rows.  The entries of embedding and similarity
    tensors are values of an abstract scalar type [F] (torch floats), whose
    operations are fields of the interface [Externals]; nothing is assumed
    about them.  Accuracies are ratios of counts and are kept exact: a
    Python float holding an accuracy is a rational or NaN ([pyfloat]).  The
    rounding of a float32 or float64 mean is not modelled, so nothing is
    stated here about the exact float a mean evaluates to.

    Python exceptions are results [Raise e]; the mutable objects the code
    works on (module parameters, optimizer state, the training flag, the
    random generator) are fields of an explicit [World] threaded through a
    state-and-exception monad [M]. *)

From Stdlib Require Import String List Arith ZArith QArith Bool Lia.
From Stdlib Require Import Permutation.
Import ListNotations.
Local Open Scope nat_scope.

Set Implicit Arguments.

(** ** Python values *)

(** The exceptions the modelled code can raise. [SamplerError] stands for
    whatever the external episode sampler raises. *)
Inductive exn : Type :=
| AssertionError
| IndexError
| ZeroDivisionError
| NotImplementedError
| SamplerError.

Inductive res (A : Type) : Type :=
| Ok (a : A)
| Raise (e : exn).
Arguments Ok {A} a.
Arguments Raise {A} e.

Definition is_ok {A : Type} (r : res A) : bool :=
  match r with
  | Ok _ => true
  | Raise _ => false
  end.

Definition ok_value {A : Type} (r : res A) : option A :=
  match r with
  | Ok a => Some a
  | Raise _ => None
  end.

Definition res_bind {A B : Type} (r : res A) (k : A -> res B) : res B :=
  match r with
  | Ok a => k a
  | Raise e => Raise e
  end.

Notation "x <-? c ;; k" := (res_bind c (fun x => k))
  (at level 61, c at next level, right associativity).

(** A Python float that holds an accuracy: an exact ratio, or NaN (the mean
    of an empty sequence). *)
Inductive pyfloat : Type :=
| Fin (q : Q)
| NaN.

(** [a > b] on Python floats; every comparison with NaN is False. *)
Definition py_gt (a b : pyfloat) : bool :=
  match a, b with
  | Fin x, Fin y => negb (Qle_bool x y)
  | _, _ => false
  end.

Definition all_fin (l : list pyfloat) : option (list Q) :=
  fold_right (fun a acc =>
                match a, acc with
                | Fin q, Some qs => Some (q :: qs)
                | _, _ => None
                end) (Some []) l.

Definition Qsum (l : list Q) : Q := fold_right Qplus 0%Q l.

(** [np.mean] of a list of accuracies, without its rounding. *)
Definition py_mean (l : list pyfloat) : pyfloat :=
  match l with
  | [] => NaN
  | _ :: _ =>
      match all_fin l with
      | Some qs => Fin (Qsum qs / inject_Z (Z.of_nat (length l)))%Q
      | None => NaN
      end
  end.

(** [t.float().mean()] of a boolean tensor: the fraction of True entries,
    without the rounding of the float32 mean. *)
Definition mean_bool (l : list bool) : pyfloat :=
  match l with
  | [] => NaN
  | _ :: _ =>
      Fin (inject_Z (Z.of_nat (count_occ bool_dec l true))
           / inject_Z (Z.of_nat (length l)))%Q
  end.

(** An episode: [sample["xs"]] and [sample["xq"]], one group of sentences
    per class. *)
Record Episode : Type := mkEpisode {
  xs : list (list string);
  xq : list (list string)
}.

(** [Dict[str, List[str]]]: label to sentences, in insertion order. *)
Definition DataDict : Type := list (string * list string).

(** ** The counter, in the words of the specification *)

(** The best accuracy of a history of validation evaluations, starting from
    0.0; an accuracy replaces the best only when strictly greater. *)
Definition running_best (accs : list pyfloat) : pyfloat :=
  fold_left (fun best a => if py_gt a best then a else best) accs (Fin 0).

(** Evaluation number [i] of the history was a strict improvement on
    everything before it. *)
Definition improved_at (accs : list pyfloat) (i : nat) : bool :=
  py_gt (nth i accs NaN) (running_best (firstn i accs)).

(** The number of evaluations after the last strict improvement; the whole
    history when there was none. *)
Definition evals_since_improvement (accs : list pyfloat) : nat :=
  match find (improved_at accs) (rev (seq 0 (List.length accs))) with
  | Some i => List.length accs - (i + 1)
  | None => List.length accs
  end.

(** ** External collaborators *)

(** Everything [matchingnet.py] imports and does not define: torch scalars
    and their operations, the BERT encoder, the Adam optimizer, the episode
    sampler. *)
Class Externals : Type := {
  F : Type;
  fzero : F;
  fone : F;
  ffive : F;
  fneg : F -> F;
  fmul : F -> F -> F;
  (* Tensor.mean over the entries of one row slice *)
  fmean : list F -> F;
  (* the strict order torch.argmax maximises *)
  fgtb : F -> F -> bool;
  (* nn.CrossEntropyLoss()(logits, class indices) *)
  cross_entropy : list (list F) -> list nat -> F;
  (* np.mean of a list of loss values *)
  np_mean : list F -> F;
  (* Euclidean distance and cosine similarity of two embedding vectors *)
  vec_dist : list F -> list F -> F;
  vec_cos : list F -> list F -> F;

  (* the encoder weights, the optimizer's internal state, and the state of
     the sampler and the loader: the random generators they draw from and
     whatever else a draw leaves behind, such as the order of the lists of
     a map the sampler shuffles in place *)
  Params : Type;
  OptState : Type;
  Rng : Type;
  (* encoder.forward under the given parameters and training flag *)
  encoder_forward : Params -> bool -> list string -> list (list F);
  (* loss.backward() followed by optimizer.step() on one episode *)
  backward_and_step : Params -> OptState -> Episode -> Params * OptState;
  (* utils.few_shot.create_episode(data_dict, n_support, n_classes, n_query) *)
  create_episode : Rng -> DataDict -> Z -> Z -> Z -> res Episode * Rng;
  (* get_jsonl_data(path) passed through raw_data_to_labels_dict, whose
     shuffle draws from the random generator *)
  load_labels_dict : Rng -> string -> DataDict * Rng
}.

Section Engine.

Context {E : Externals}.

Definition tensor : Type := list (list F).

(** ** The mutable world *)

Record World : Type := mkWorld {
  params : Params;
  opt_state : OptState;
  (* nn.Module.training *)
  training : bool;
  rng : Rng;
  (* ghost: the input of every encoder.forward call, oldest first *)
  forward_calls : list (list string);
  (* ghost: the number of optimizer.step() calls *)
  optimizer_steps : nat
}.

Definition M (A : Type) : Type := World -> res A * World.

Definition ret {A : Type} (a : A) : M A := fun w => (Ok a, w).

Definition raise {A : Type} (e : exn) : M A := fun w => (Raise e, w).

Definition bind {A B : Type} (c : M A) (k : A -> M B) : M B :=
  fun w =>
    match c w with
    | (Ok a, w') => k a w'
    | (Raise e, w') => (Raise e, w')
    end.

Definition lift {A : Type} (r : res A) : M A := fun w => (r, w).

Definition modify (f : World -> World) : M unit := fun w => (Ok tt, f w).

Notation "x <- c ;; k" := (bind c (fun x => k))
  (at level 61, c at next level, right associativity).
Notation "c ;;; k" := (bind c (fun _ => k))
  (at level 61, right associativity).

(** [self.train()] and [self.eval()]. *)
Definition set_training (b : bool) : M unit :=
  modify (fun w => mkWorld (params w) (opt_state w) b (rng w)
                           (forward_calls w) (optimizer_steps w)).

(** The world after one more encoder call on [x]. *)
Definition record_forward (x : list string) (w : World) : World :=
  mkWorld (params w) (opt_state w) (training w) (rng w)
          (forward_calls w ++ [x]) (optimizer_steps w).

(** [self.encoder.forward(x)]. *)
Definition forward (x : list string) : M tensor :=
  fun w =>
    (Ok (encoder_forward (params w) (training w) x), record_forward x w).

(** ** Tensor operations *)

(** [m[:, a:b]]. *)
Definition slice_cols (a b : nat) (m : tensor) : tensor :=
  map (fun row => firstn (b - a) (skipn a row)) m.

(** [m.mean(1)]. *)
Definition mean1 (m : tensor) : list F := map fmean m.

(** [m.T] for a tensor with [n_cols] columns. *)
Definition transpose (n_cols : nat) (m : tensor) : tensor :=
  map (fun i => map (fun row => nth i row fzero) m) (seq 0 n_cols).

Definition zeros_like (m : tensor) : tensor :=
  map (map (fun _ => fzero)) m.

Fixpoint replace_nth {A : Type} (i : nat) (l : list A) (v : A) : list A :=
  match l, i with
  | [], _ => []
  | _ :: t, O => v :: t
  | h :: t, S i' => h :: replace_nth i' t v
  end.

(** [m[i, j] = v]; torch raises IndexError out of range. *)
Definition setitem2 (m : tensor) (i j : nat) (v : F) : res tensor :=
  match nth_error m i with
  | None => Raise IndexError
  | Some row =>
      if j <? length row
      then Ok (replace_nth i m (replace_nth j row v))
      else Raise IndexError
  end.

Fixpoint argmax_from (best_i : nat) (best : F) (i : nat) (l : list F) : nat :=
  match l with
  | [] => best_i
  | v :: t =>
      if fgtb v best
      then argmax_from i v (S i) t
      else argmax_from best_i best (S i) t
  end.

(** [row.argmax()]: the first index holding the largest entry. *)
Definition argmax (row : list F) : nat :=
  match row with
  | [] => 0
  | v :: t => argmax_from 0 v 1 t
  end.

(** [m.argmax(1)]. *)
Definition argmax1 (m : tensor) : list nat := map argmax m.

Fixpoint eq_tensor (a b : list nat) : list bool :=
  match a, b with
  | i :: a', j :: b' => (i =? j) :: eq_tensor a' b'
  | _, _ => []
  end.

(** Modelled from the spec: [utils.math.euclidean_dist] is not among the
    sources; section 4.1 gives it as the pairwise Euclidean distance of a
    [n_q, d] and a [n_s, d] tensor, shaped [n_q, n_s]. *)
Definition euclidean_dist (a b : tensor) : tensor :=
  map (fun q => map (fun s => vec_dist q s) b) a.

(** Modelled from the spec: [utils.math.cosine_similarity] is not among the
    sources; section 4.1 gives it as the pairwise cosine similarity of a
    [n_q, d] and a [n_s, d] tensor, shaped [n_q, n_s]. *)
Definition cosine_similarity (a b : tensor) : tensor :=
  map (fun q => map (fun s => vec_cos q s) b) a.

(** [-m] and [m * 5]. *)
Definition tensor_neg (m : tensor) : tensor := map (map fneg) m.
Definition tensor_mul5 (m : tensor) : tensor :=
  map (map (fun v => fmul v ffive)) m.

(** ** MatchingNet *)

Record MatchingNet : Type := mkMatchingNet {
  metric : string
}.

(** [MatchingNet.__init__]: the metric is asserted to be a known one. *)
Definition MatchingNet_init (metric_name : string) : res MatchingNet :=
  if (metric_name =? "cosine")%string || (metric_name =? "euclidean")%string
  then Ok (mkMatchingNet metric_name)
  else Raise AssertionError.

(** The local variables of [MatchingNet.loss] when it returns. *)
Record Locals : Type := mkLocals {
  n_class : nat;
  n_support : nat;
  n_query : nat;
  x : list string;
  z : tensor;
  z_support : tensor;
  z_query : tensor;
  similarities : tensor;
  distances_from_query_to_classes : tensor;
  true_labels : tensor;
  loss_val : F;
  acc_val : pyfloat
}.

(** The metrics dictionary [MatchingNet.loss] returns. *)
Record LossDict : Type := mkLossDict {
  d_loss : F;
  d_acc : pyfloat;
  d_y_hat : list nat
}.

(** Lines 67-72: the similarity of the embedded query and support sets. *)
Definition compute_similarities (self : MatchingNet) (zq zs : tensor)
  : res tensor :=
  if (metric self =? "euclidean")%string
  then Ok (tensor_neg (euclidean_dist zq zs))
  else if (metric self =? "cosine")%string
       then Ok (tensor_mul5 (cosine_similarity zq zs))
       else Raise NotImplementedError.

(** Line 75: the mean similarity to each class's support columns, one row
    per class, concatenated and transposed. *)
Definition average_over_support (n_cls n_sup : nat) (sims : tensor) : tensor :=
  transpose (List.length sims)
    (map (fun c => mean1 (slice_cols (c * n_sup) ((c + 1) * n_sup) sims))
         (seq 0 n_cls)).

(** Lines 79-80: the inner loop over the sentences of one query group. *)
Fixpoint fill_class (labels : tensor) (ix_class n_qry ix_sentence : nat)
  (class_query_sentences : list string) : res tensor :=
  match class_query_sentences with
  | [] => Ok labels
  | _ :: rest =>
      labels' <-? setitem2 labels (ix_class * n_qry + ix_sentence) ix_class fone ;;
      fill_class labels' ix_class n_qry (S ix_sentence) rest
  end.

(** Lines 78-80: the outer loop over the query groups. *)
Fixpoint fill_labels (labels : tensor) (ix_class n_qry : nat)
  (groups : list (list string)) : res tensor :=
  match groups with
  | [] => Ok labels
  | class_query_sentences :: rest =>
      labels' <-? fill_class labels ix_class n_qry 0 class_query_sentences ;;
      fill_labels labels' (S ix_class) n_qry rest
  end.

(** [len(l[0])]. *)
Definition len_first (l : list (list string)) : res nat :=
  match l with
  | [] => Raise IndexError
  | g :: _ => Ok (List.length g)
  end.

(** The body of [MatchingNet.loss], keeping every local. *)
Definition loss_locals (self : MatchingNet) (sample : Episode) : M Locals :=
  let n_cls := List.length (xs sample) in
  if negb (List.length (xq sample) =? n_cls) then raise AssertionError else
  n_sup <- lift (len_first (xs sample)) ;;
  n_qry <- lift (len_first (xq sample)) ;;
  let x_ := concat (xs sample) ++ concat (xq sample) in
  z_ <- forward x_ ;;
  let zs := firstn (n_cls * n_sup) z_ in
  let zq := skipn (n_cls * n_sup) z_ in
  sims <- lift (compute_similarities self zq zs) ;;
  let dists := average_over_support n_cls n_sup sims in
  labels <- lift (fill_labels (zeros_like dists) 0 n_qry (xq sample)) ;;
  let lv := cross_entropy dists (argmax1 labels) in
  let av := mean_bool (eq_tensor (argmax1 labels) (argmax1 dists)) in
  ret (mkLocals n_cls n_sup n_qry x_ z_ zs zq sims dists labels lv av).

(** [MatchingNet.loss]. *)
Definition loss (self : MatchingNet) (sample : Episode) : M (F * LossDict) :=
  l <- loss_locals self sample ;;
  ret (loss_val l,
       mkLossDict (loss_val l) (acc_val l)
                  (argmax1 (distances_from_query_to_classes l))).

(** [loss.backward(); optimizer.step()]. *)
Definition optimize (episode : Episode) : M unit :=
  modify (fun w =>
            let '(p, o) := backward_and_step (params w) (opt_state w) episode in
            mkWorld p o (training w) (rng w)
                    (forward_calls w) (S (optimizer_steps w))).

(** The call of [create_episode]: it reads the map and the state of the
    sampler, and leaves the sampler in a new state.  What a sampler does to
    the lists of the map in place is part of that state. *)
Definition sample_episode (data_dict : DataDict) (n_sup n_cls n_qry : Z)
  : M Episode :=
  fun w =>
    let '(r, g) := create_episode (rng w) data_dict n_sup n_cls n_qry in
    (r, mkWorld (params w) (opt_state w) (training w) g
                (forward_calls w) (optimizer_steps w)).

(** [MatchingNet.train_step]. [optimizer.zero_grad()] and
    [torch.cuda.empty_cache()] touch nothing the world records. *)
Definition train_step (self : MatchingNet) (data_dict : DataDict)
  (n_sup n_cls n_qry : Z) : M (F * LossDict) :=
  episode <- sample_episode data_dict n_sup n_cls n_qry ;;
  set_training true ;;;
  r <- loss self episode ;;
  optimize episode ;;;
  ret r.

(** The result of [MatchingNet.test_step]. *)
Record SetResults : Type := mkSetResults {
  r_loss : F;
  r_acc : pyfloat
}.

(** The loop of [test_step] over [range(n_episodes)], with the two lists it
    appends to. *)
Fixpoint test_episodes (self : MatchingNet) (data_dict : DataDict)
  (n_sup n_cls n_qry : Z) (n : nat)
  (accuracies : list pyfloat) (losses : list F)
  : M (list pyfloat * list F) :=
  match n with
  | O => ret (accuracies, losses)
  | S n' =>
      episode <- sample_episode data_dict n_sup n_cls n_qry ;;
      r <- loss self episode ;;
      test_episodes self data_dict n_sup n_cls n_qry n'
                    (accuracies ++ [d_acc (snd r)]) (losses ++ [d_loss (snd r)])
  end.

(** [MatchingNet.test_step]. *)
Definition test_step (self : MatchingNet) (data_dict : DataDict)
  (n_sup n_cls n_qry n_episodes : Z) : M SetResults :=
  set_training false ;;;
  r <- test_episodes self data_dict n_sup n_cls n_qry (Z.to_nat n_episodes) [] [] ;;
  ret (mkSetResults (np_mean (snd r)) (py_mean (fst r))).

(** ** run_matching *)

(** The arguments of [run_matching] that the training loop reads.
    [model_name_or_path] selects the parameters the world starts with;
    [output_path] only names where the final log is written. *)
Record Config : Type := mkConfig {
  train_path : string;
  cfg_n_support : Z;
  cfg_n_query : Z;
  cfg_n_classes : Z;
  valid_path : option string;
  test_path : option string;
  max_iter : Z;
  evaluate_every : Z;
  early_stop : option Z;
  n_test_episodes : Z;
  log_every : Z;
  cfg_metric : string
}.

(** One entry of [log_dict[...]]: the two metrics and the global step. *)
Record LogRecord : Type := mkLogRecord {
  rec_accuracy : pyfloat;
  rec_loss : F;
  global_step : nat
}.

(** [log_dict]: the key "train" always exists, "valid" and "test" only when
    their path is given. *)
Record LogDict : Type := mkLogDict {
  log_train : list LogRecord;
  log_valid : option (list LogRecord);
  log_test : option (list LogRecord)
}.

(** The variables the loop of [run_matching] updates. *)
Record LoopState : Type := mkLoopState {
  train_accuracies : list pyfloat;
  train_losses : list F;
  n_eval_since_last_best : nat;
  best_valid_acc : pyfloat;
  log_dict : LogDict
}.

Inductive SetType : Type := Valid | Test.

(** How the loop ended: [range(max_iter)] exhausted, or [break] taken at the
    given step. *)
Inductive Outcome : Type :=
| StoppedMaxIter
| StoppedEarly (step : nat).

(** Truth value of an optional path: None and the empty string are false. *)
Definition truthy_path (p : option string) : bool :=
  match p with
  | Some s => negb (s =? "")%string
  | None => false
  end.

(** [early_stop and n_eval_since_last_best >= early_stop]: None and 0 are
    false. *)
Definition early_stop_reached (es : option Z) (n : nat) : bool :=
  match es with
  | Some v => negb (v =? 0)%Z && (v <=? Z.of_nat n)%Z
  | None => false
  end.

(** [(step + 1) % every == 0]; Python raises on a zero divisor. *)
Definition due (step : nat) (every : Z) : res bool :=
  if (every =? 0)%Z then Raise ZeroDivisionError
  else Ok ((Z.of_nat (step + 1) mod every =? 0)%Z).

(** [log_dict[set_type].append(record)]. *)
Definition log_append (set_type : SetType) (r : LogRecord) (d : LogDict)
  : LogDict :=
  match set_type with
  | Valid => mkLogDict (log_train d)
                       (option_map (fun l => l ++ [r]) (log_valid d))
                       (log_test d)
  | Test => mkLogDict (log_train d) (log_valid d)
                      (option_map (fun l => l ++ [r]) (log_test d))
  end.

(** Lines 280-287: the best-accuracy bookkeeping after a validation
    evaluation. *)
Definition track_best (acc : pyfloat) (st : LoopState) : LoopState :=
  if py_gt acc (best_valid_acc st)
  then mkLoopState (train_accuracies st) (train_losses st)
                   0 acc (log_dict st)
  else mkLoopState (train_accuracies st) (train_losses st)
                   (n_eval_since_last_best st + 1) (best_valid_acc st)
                   (log_dict st).

(** Lines 262-277: the record appended to [log_dict[set_type]]. *)
Definition log_evaluation (set_type : SetType) (set_results : SetResults)
  (step : nat) (st : LoopState) : LoopState :=
  mkLoopState (train_accuracies st) (train_losses st)
              (n_eval_since_last_best st) (best_valid_acc st)
              (log_append set_type
                 (mkLogRecord (r_acc set_results) (r_loss set_results) step)
                 (log_dict st)).

(** Lines 254-287: one iteration of the loop over the two held-out sets. *)
Definition evaluate_set (cfg : Config) (net : MatchingNet)
  (set_type : SetType) (path : option string) (set_data : DataDict)
  (step : nat) (st : LoopState) : M LoopState :=
  if truthy_path path then
    set_results <- test_step net set_data (cfg_n_support cfg)
                     (cfg_n_classes cfg) (cfg_n_query cfg)
                     (n_test_episodes cfg) ;;
    let st1 := log_evaluation set_type set_results step st in
    match set_type with
    | Valid => ret (track_best (r_acc set_results) st1)
    | Test => ret st1
    end
  else ret st.

(** Lines 220-221: the step's metrics join the rolling window. *)
Definition append_train_metrics (d : LossDict) (st : LoopState) : LoopState :=
  mkLoopState (train_accuracies st ++ [d_acc d])
              (train_losses st ++ [d_loss d])
              (n_eval_since_last_best st) (best_valid_acc st)
              (log_dict st).

(** Lines 224-244: the train log record and the reset of the window. *)
Definition log_train_window (step : nat) (st : LoopState) : LoopState :=
  mkLoopState [] []
    (n_eval_since_last_best st) (best_valid_acc st)
    (mkLogDict
       (log_train (log_dict st)
          ++ [mkLogRecord (py_mean (train_accuracies st))
                          (np_mean (train_losses st)) step])
       (log_valid (log_dict st)) (log_test (log_dict st))).

(** Lines 220-244: the state after the training part of an iteration. *)
Definition after_training (d : LossDict) (log_now : bool) (step : nat)
  (st : LoopState) : LoopState :=
  if log_now then log_train_window step (append_train_metrics d st)
  else append_train_metrics d st.

(** [valid_path or test_path]. *)
Definition held_out (cfg : Config) : bool :=
  truthy_path (valid_path cfg) || truthy_path (test_path cfg).

(** Lines 213-291: the body of the training loop; the boolean tells whether
    [break] was executed. *)
Definition loop_body (cfg : Config) (net : MatchingNet)
  (train_data_dict valid_data_dict test_data_dict : DataDict)
  (step : nat) (st : LoopState) : M (LoopState * bool) :=
  r <- train_step net train_data_dict (cfg_n_support cfg)
         (cfg_n_classes cfg) (cfg_n_query cfg) ;;
  log_now <- lift (due step (log_every cfg)) ;;
  let st2 := after_training (snd r) log_now step st in
  if held_out cfg then
    eval_now <- lift (due step (evaluate_every cfg)) ;;
    if eval_now then
      st3 <- evaluate_set cfg net Valid (valid_path cfg) valid_data_dict step st2 ;;
      st4 <- evaluate_set cfg net Test (test_path cfg) test_data_dict step st3 ;;
      ret (st4, early_stop_reached (early_stop cfg) (n_eval_since_last_best st4))
    else ret (st2, false)
  else ret (st2, false).

(** [for step in range(max_iter)] over the remaining steps. *)
Fixpoint training_loop (cfg : Config) (net : MatchingNet)
  (train_data_dict valid_data_dict test_data_dict : DataDict)
  (steps : list nat) (st : LoopState) : M (LoopState * Outcome) :=
  match steps with
  | [] => ret (st, StoppedMaxIter)
  | step :: rest =>
      r <- loop_body cfg net train_data_dict valid_data_dict test_data_dict
             step st ;;
      if snd r then ret (fst r, StoppedEarly step)
      else training_loop cfg net train_data_dict valid_data_dict
                         test_data_dict rest (fst r)
  end.

(** [raw_data_to_labels_dict(get_jsonl_data(path), shuffle=True)], for a
    file that is read and grouped without an exception. *)
Definition load_data (path : string) : M DataDict :=
  fun w =>
    let '(d, g) := load_labels_dict (rng w) path in
    (Ok d, mkWorld (params w) (opt_state w) (training w) g
                   (forward_calls w) (optimizer_steps w)).

(** Lines 193-205: a held-out split is loaded when its path is given; the
    dictionary of an absent split is never read. *)
Definition load_split (path : option string) : M DataDict :=
  match path with
  | Some p => if truthy_path path then load_data p else ret []
  | None => ret []
  end.

(** Lines 162-171 and 207-210: the state the loop starts from. *)
Definition initial_state (cfg : Config) : LoopState :=
  mkLoopState [] [] 0 (Fin 0)
    (mkLogDict []
       (if truthy_path (valid_path cfg) then Some [] else None)
       (if truthy_path (test_path cfg) then Some [] else None)).

(** [run_matching], from the construction of the model on.  The world it
    starts in holds the loaded encoder and a fresh optimizer; the result is
    the final loop state, whose [log_dict] is what is written to
    [metrics.json], and the way the loop ended.  The handling of the output
    directory (lines 150-158) and the summary writers are not part of the
    model. *)
Definition run_matching (cfg : Config) : M (LoopState * Outcome) :=
  net <- lift (MatchingNet_init (cfg_metric cfg)) ;;
  train_data_dict <- load_data (train_path cfg) ;;
  valid_data_dict <- load_split (valid_path cfg) ;;
  test_data_dict <- load_split (test_path cfg) ;;
  training_loop cfg net train_data_dict valid_data_dict test_data_dict
                (seq 0 (Z.to_nat (max_iter cfg))) (initial_state cfg).

(** ** Vocabulary of the properties *)

(** A well-formed episode: [N >= 1] classes, every support group of [K >= 1]
    sentences, every query group of [Q >= 1] sentences. *)
Definition well_formed (N K Q : nat) (sample : Episode) : bool :=
  (1 <=? N) && (1 <=? K) && (1 <=? Q)
  && (List.length (xs sample) =? N) && (List.length (xq sample) =? N)
  && forallb (fun g => List.length g =? K) (xs sample)
  && forallb (fun g => List.length g =? Q) (xq sample).

Definition is_empty (g : list string) : bool :=
  match g with
  | [] => true
  | _ :: _ => false
  end.

(** A malformed episode: the class-group counts of support and query
    differ, or some support or query group is empty. *)
Definition malformed (sample : Episode) : bool :=
  negb (List.length (xs sample) =? List.length (xq sample))
  || existsb is_empty (xs sample) || existsb is_empty (xq sample).

(** The metrics [MatchingNet.__init__] accepts. *)
Definition known_metric (self : MatchingNet) : bool :=
  (metric self =? "cosine")%string || (metric self =? "euclidean")%string.

(** The encoder interface: one embedding per input item. *)
Definition length_preserving : Prop :=
  forall (p : Params) (b : bool) (x : list string),
    List.length (encoder_forward p b x) = List.length x.

(** The sampler interface for a given request: whatever the generator, it
    returns a well-formed episode of the requested shape. *)
Definition sampler_well_formed (data_dict : DataDict) (n_sup n_cls n_qry : Z)
  : Prop :=
  forall g : Rng,
    exists sample g',
      create_episode g data_dict n_sup n_cls n_qry = (Ok sample, g')
      /\ well_formed (Z.to_nat n_cls) (Z.to_nat n_sup) (Z.to_nat n_qry) sample
         = true.

(** The entry [m[r, c]]. *)
Definition entry (m : tensor) (r c : nat) : F := nth c (nth r m []) fzero.

(** [m] has [R] rows of [C] entries each. *)
Definition has_shape (R C : nat) (m : tensor) : Prop :=
  List.length m = R /\ Forall (fun row => List.length row = C) m.

(** The whole state of the sampler and the loader is put back to [g]. *)
Definition set_rng (g : Rng) (w : World) : World :=
  mkWorld (params w) (opt_state w) (training w) g
          (forward_calls w) (optimizer_steps w).

(** While the loop runs, a configured non-zero threshold is above the
    counter. *)
Definition below_threshold (cfg : Config) (st : LoopState) : Prop :=
  forall es, early_stop cfg = Some es -> es <> 0%Z ->
             (Z.of_nat (n_eval_since_last_best st) < es)%Z.

(** The validation accuracies recorded so far, oldest first. *)
Definition valid_accs (st : LoopState) : list pyfloat :=
  match log_valid (log_dict st) with
  | Some l => map rec_accuracy l
  | None => []
  end.

(** The bookkeeping of the loop agrees with the validation history it has
    logged. *)
Definition tracks_history (cfg : Config) (st : LoopState) : Prop :=
  (truthy_path (valid_path cfg) = true -> log_valid (log_dict st) <> None)
  /\ n_eval_since_last_best st = evals_since_improvement (valid_accs st)
  /\ best_valid_acc st = running_best (valid_accs st).

(** The steps of [steps] at which a train record is logged. *)
Definition log_steps (cfg : Config) (steps : list nat) : list nat :=
  filter (fun step => (Z.of_nat (step + 1) mod log_every cfg =? 0)%Z) steps.

End Engine.

(** ** Data loading and the command line *)

Section Loading.

Context {E : Externals}.

(** [random.shuffle(val)]: the shuffled list and the generator after it. *)
Variable shuffle : Rng -> list string -> list string * Rng.

(** [utils.python.set_seeds(seed)] at the start of the program, before
    anything was drawn: the state of the sampler and the loader after
    seeding. *)
Variable set_seeds : Z -> Rng.

(** [os.path.exists]. *)
Variable path_exists : string -> bool.

(** One line of a data file: a JSON object with string values. *)
Definition Item : Type := list (string * string).

(** [item[key]]; [None] stands for KeyError. *)
Fixpoint getitem (item : Item) (key : string) : option string :=
  match item with
  | [] => None
  | (k, v) :: rest => if (k =? key)%string then Some v else getitem rest key
  end.

(** [labels_dict[label].append(sentence)] on a [defaultdict(list)]: a new
    label is added at the end. *)
Fixpoint dict_append (labels_dict : DataDict) (label sentence : string)
  : DataDict :=
  match labels_dict with
  | [] => [(label, [sentence])]
  | (k, v) :: rest =>
      if (k =? label)%string then (k, v ++ [sentence]) :: rest
      else (k, v) :: dict_append rest label sentence
  end.

(** Lines 175-176: the loop over the items; [None] stands for KeyError. *)
Fixpoint group_items (labels_dict : DataDict) (data : list Item)
  : option DataDict :=
  match data with
  | [] => Some labels_dict
  | item :: rest =>
      match getitem item "label" with
      | None => None
      | Some label =>
          match getitem item "sentence" with
          | None => None
          | Some sentence =>
              group_items (dict_append labels_dict label sentence) rest
          end
      end
  end.

(** Lines 179-180: every list of the dictionary is shuffled, in key
    order. *)
Fixpoint shuffle_values (g : Rng) (labels_dict : DataDict) : DataDict * Rng :=
  match labels_dict with
  | [] => ([], g)
  | (k, v) :: rest =>
      let '(v', g1) := shuffle g v in
      let '(rest', g2) := shuffle_values g1 rest in
      ((k, v') :: rest', g2)
  end.

(** [raw_data_to_labels_dict], the helper nested in [run_matching]. *)
Definition raw_data_to_labels_dict (data : list Item) (do_shuffle : bool)
  (g : Rng) : option DataDict * Rng :=
  match group_items [] data with
  | None => (None, g)
  | Some labels_dict =>
      if do_shuffle
      then let '(d, g') := shuffle_values g labels_dict in (Some d, g')
      else (Some labels_dict, g)
  end.

(** [labels_dict.get(label, [])]. *)
Fixpoint values_of (labels_dict : DataDict) (label : string) : list string :=
  match labels_dict with
  | [] => []
  | (k, v) :: rest =>
      if (k =? label)%string then v else values_of rest label
  end.

(** The sentences of the items carrying [label], in file order. *)
Fixpoint sentences_with (label : string) (data : list Item) : list string :=
  match data with
  | [] => []
  | item :: rest =>
      match getitem item "label", getitem item "sentence" with
      | Some l, Some s =>
          if (l =? label)%string then s :: sentences_with label rest
          else sentences_with label rest
      | _, _ => sentences_with label rest
      end
  end.

(** An item has both keys the loader reads. *)
Definition complete_item (item : Item) : bool :=
  match getitem item "label", getitem item "sentence" with
  | Some _, Some _ => true
  | _, _ => false
  end.

(** The parsed command line of [main]. *)
Record Args : Type := mkArgs {
  arg_train_path : string;
  arg_valid_path : option string;
  arg_test_path : option string;
  arg_output_path : string;
  arg_model_name_or_path : string;
  arg_max_iter : Z;
  arg_evaluate_every : Z;
  arg_log_every : Z;
  arg_seed : Z;
  arg_early_stop : Z;
  arg_n_support : Z;
  arg_n_query : Z;
  arg_n_classes : Z;
  arg_n_test_episodes : Z;
  arg_metric : string
}.

(** Lines 330-347: the keyword arguments [main] passes to [run_matching].
    [log_every] is not among them and keeps the default 10 of the
    signature. *)
Definition run_matching_arguments (args : Args) : Config :=
  mkConfig (arg_train_path args)
           (arg_n_support args) (arg_n_query args) (arg_n_classes args)
           (arg_valid_path args) (arg_test_path args)
           (arg_max_iter args) (arg_evaluate_every args)
           (Some (arg_early_stop args))
           (arg_n_test_episodes args) 10 (arg_metric args).

(** How [main] ends: the FileNotFoundError of its own check of the data
    paths (line 327), or whatever the modelled part of [run_matching]
    did. *)
Inductive MainResult : Type :=
| FileNotFoundError (path : string)
| Finished (r : res (LoopState * Outcome)).

(** Lines 326-327: [arg and not os.path.exists(arg)]. *)
Definition missing (arg : option string) : bool :=
  match arg with
  | Some path => negb (path =? "")%string && negb (path_exists path)
  | None => false
  end.

(** Lines 325-327: the first data path that is given and does not exist. *)
Definition first_missing (args : list (option string)) : option string :=
  match find missing args with
  | Some (Some path) => Some path
  | _ => None
  end.

(** [main] after [parse_args]: the seeds are set, the data paths are
    checked, [run_matching] runs.  Writing [config.json] is outside the
    model. *)
Definition main (args : Args) (w : World) : MainResult * World :=
  let w0 := set_rng (set_seeds (arg_seed args)) w in
  match first_missing [Some (arg_train_path args);
                       arg_valid_path args; arg_test_path args] with
  | Some path => (FileNotFoundError path, w0)
  | None =>
      let '(r, w1) := run_matching (run_matching_arguments args) w0 in
      (Finished r, w1)
  end.

End Loading.

(** ** Vocabulary of the further properties *)

Section MoreVocabulary.

Context {E : Externals}.

(** The comparisons [argmax] makes on a row of zeros and ones: 1 > 0 holds,
    0 > 0 and 0 > 1 do not. *)
Definition orders_bits : Prop :=
  fgtb fone fzero = true
  /\ fgtb fzero fzero = false
  /\ fgtb fzero fone = false.

(** The steps of [steps] at which the held-out sets are evaluated. *)
Definition eval_steps (cfg : Config) (steps : list nat) : list nat :=
  filter (fun step => (Z.of_nat (step + 1) mod evaluate_every cfg =? 0)%Z)
         steps.

(** The steps recorded in an optional log. *)
Definition logged_steps (l : option (list LogRecord)) : list nat :=
  match l with
  | Some records => map global_step records
  | None => []
  end.

(** The sampler interface for a split loaded from [path], whatever the
    generator was when it was loaded. *)
Definition split_well_formed (cfg : Config) (path : string) : Prop :=
  forall g : Rng,
    sampler_well_formed (fst (load_labels_dict g path))
      (cfg_n_support cfg) (cfg_n_classes cfg) (cfg_n_query cfg).

(** The number of loop iterations a run that ended with [out] went
    through. *)
Definition executed (cfg : Config) (out : Outcome) : nat :=
  match out with
  | StoppedMaxIter => Z.to_nat (max_iter cfg)
  | StoppedEarly step => S step
  end.

(** An accuracy that is a ratio between 0 and 1. *)
Definition unit_ratio (a : pyfloat) : Prop :=
  exists q, a = Fin q /\ (0 <= q <= 1)%Q.

(** Lines 160-205: [run_matching] up to its loop: the model is built and
    the splits are loaded. *)
Definition before_loop (cfg : Config)
  : M (MatchingNet * DataDict * DataDict * DataDict) :=
  bind (lift (MatchingNet_init (cfg_metric cfg))) (fun net =>
  bind (load_data (train_path cfg)) (fun train_data_dict =>
  bind (load_split (valid_path cfg)) (fun valid_data_dict =>
  bind (load_split (test_path cfg)) (fun test_data_dict =>
  ret (net, train_data_dict, valid_data_dict, test_data_dict))))).

(** The metrics [train_step] returned in the iterations the loop went
    through, oldest first. *)
Fixpoint train_metrics (cfg : Config) (net : MatchingNet)
  (train_data_dict valid_data_dict test_data_dict : DataDict)
  (steps : list nat) (st : LoopState) (w : World) : list LossDict :=
  match steps with
  | [] => []
  | step :: rest =>
      match train_step net train_data_dict (cfg_n_support cfg)
              (cfg_n_classes cfg) (cfg_n_query cfg) w with
      | (Ok r, _) =>
          snd r
          :: match loop_body cfg net train_data_dict valid_data_dict
                     test_data_dict step st w with
             | (Ok (st', false), w') =>
                 train_metrics cfg net train_data_dict valid_data_dict
                               test_data_dict rest st' w'
             | _ => []
             end
      | (Raise _, _) => []
      end
  end.

(** The same for a whole run of [run_matching]. *)
Definition train_metrics_of_run (cfg : Config) (w : World) : list LossDict :=
  match before_loop cfg w with
  | (Ok (net, train_data_dict, valid_data_dict, test_data_dict), w0) =>
      train_metrics cfg net train_data_dict valid_data_dict test_data_dict
                    (seq 0 (Z.to_nat (max_iter cfg))) (initial_state cfg) w0
  | (Raise _, _) => []
  end.

(** Of the per-step metrics [ds], those of the [log_every] steps that end
    with [step]. *)
Definition window_at (cfg : Config) (step : nat) (ds : list LossDict)
  : list LossDict :=
  firstn (Z.to_nat (log_every cfg))
         (skipn (step + 1 - Z.to_nat (log_every cfg)) ds).

(** Of the per-step metrics [ds], those of the steps after the last one
    that was logged: the last [len(ds) % log_every]. *)
Definition open_window (cfg : Config) (ds : list LossDict) : list LossDict :=
  skipn (List.length ds - List.length ds mod Z.to_nat (log_every cfg)) ds.

(** The train log in the words of lines 224-244: at every step [s] with
    [(s + 1) % log_every == 0], the means of the accuracies and of the
    losses of the window that ends with [s]. *)
Definition train_record (cfg : Config) (ds : list LossDict) (step : nat)
  : LogRecord :=
  mkLogRecord (py_mean (map d_acc (window_at cfg step ds)))
              (np_mean (map d_loss (window_at cfg step ds)))
              step.

Definition train_records (cfg : Config) (ds : list LossDict)
  : list LogRecord :=
  map (train_record cfg ds) (log_steps cfg (seq 0 (List.length ds))).

(** The train log and the two rolling windows of a loop state are those of
    the per-step metrics [ds]. *)
Definition train_log_agrees (cfg : Config) (ds : list LossDict)
  (st : LoopState) : Prop :=
  log_train (log_dict st) = train_records cfg ds
  /\ train_accuracies st = map d_acc (open_window cfg ds)
  /\ train_losses st = map d_loss (open_window cfg ds).

End MoreVocabulary.

(** ** A small concrete instance

    Integer scalars, a two-dimensional embedding of the sentences "a" and
    "b" scaled by a single weight, and a sampler that reads the first
    sentences of the first labels.  It makes the model runnable on concrete
    episodes and configurations. *)
Module Demo.

Definition Zsum (l : list Z) : Z := fold_right Z.add 0%Z l.

Definition mean (l : list Z) : Z := (Zsum l / Z.of_nat (List.length l))%Z.

Definition sqdist (a b : list Z) : Z :=
  Zsum (map (fun p => ((fst p - snd p) * (fst p - snd p))%Z) (combine a b)).

Definition dot (a b : list Z) : Z :=
  Zsum (map (fun p => (fst p * snd p)%Z) (combine a b)).

Definition dist (a b : list Z) : Z := Z.sqrt (sqdist a b).

Definition cos (a b : list Z) : Z :=
  (dot a b / (Z.sqrt (dot a a) * Z.sqrt (dot b b)))%Z.

Definition row_max (row : list Z) : Z :=
  fold_right Z.max (hd 0%Z row) row.

(** The margin loss of each row: largest logit minus the target's logit. *)
Definition margin (logits : list (list Z)) (targets : list nat) : Z :=
  Zsum (map (fun p => (row_max (fst p) - nth (snd p) (fst p) 0)%Z)
            (combine logits targets)).

Definition embed (weight : Z) (s : string) : list Z :=
  if (s =? "a")%string then [weight; 0%Z]
  else if (s =? "b")%string then [0%Z; weight]
  else [0%Z; 0%Z].

Definition encode (weight : Z) (train : bool) (x : list string)
  : list (list Z) :=
  map (embed weight) x.

Definition update (weight : Z) (steps : nat) (episode : Episode)
  : Z * nat :=
  ((weight + 1)%Z, S steps).

(** The first [n_cls] labels; of each, the first [n_sup] sentences as
    support and the next [n_qry] as query. *)
Definition pick (g : nat) (data_dict : DataDict) (n_sup n_cls n_qry : Z)
  : res Episode * nat :=
  let classes := firstn (Z.to_nat n_cls) data_dict in
  let enough (c : string * list string) :=
    Z.to_nat n_sup + Z.to_nat n_qry <=? List.length (snd c) in
  if (List.length classes =? Z.to_nat n_cls) && forallb enough classes
  then (Ok (mkEpisode
              (map (fun c => firstn (Z.to_nat n_sup) (snd c)) classes)
              (map (fun c => firstn (Z.to_nat n_qry)
                               (skipn (Z.to_nat n_sup) (snd c))) classes)),
        S g)
  else (Raise SamplerError, S g).

Definition files (g : nat) (path : string) : DataDict * nat :=
  if (path =? "train.jsonl")%string
  then ([("A", ["a"; "a"]); ("B", ["b"; "b"])]%string, S g)
  else if (path =? "valid.jsonl")%string
       then ([("A", ["a"; "b"]); ("B", ["b"; "a"])]%string, S g)
       else ([], S g).

Definition externals : Externals := {|
  F := Z;
  fzero := 0%Z;
  fone := 1%Z;
  ffive := 5%Z;
  fneg := Z.opp;
  fmul := Z.mul;
  fmean := mean;
  fgtb := Z.gtb;
  cross_entropy := margin;
  np_mean := mean;
  vec_dist := dist;
  vec_cos := cos;
  Params := Z;
  OptState := nat;
  Rng := nat;
  encoder_forward := encode;
  backward_and_step := update;
  create_episode := pick;
  load_labels_dict := files
|}.

Definition world0 : @World externals :=
  @mkWorld externals 1%Z 0 false 0 [] 0.

Definition euclidean_net : MatchingNet := mkMatchingNet "euclidean".

Definition cosine_net : MatchingNet := mkMatchingNet "cosine".

(** Two classes, one support and one query sentence each. *)
Definition episode_2_1_1 : Episode :=
  mkEpisode [["a"]; ["b"]]%string [["a"]; ["b"]]%string.

(** One class with an empty support group. *)
Definition episode_empty_support : Episode :=
  mkEpisode [[]] [["a"]]%string.

Definition config (valid : option string) (iters every : Z)
  (stop : option Z) (log : Z) : Config :=
  mkConfig "train.jsonl" 1 1 2 valid None iters every stop 1 log "euclidean".

(** One class, one support and two query sentences. *)
Definition episode_1_1_2 : Episode :=
  mkEpisode [["a"]]%string [["a"; "b"]]%string.

(** Validation after every step, stop at the first non-improvement. *)
Definition stop_config : Config :=
  config (Some "valid.jsonl"%string) 5 1 (Some 1%Z) 1.

(** Validation after every step, stop after three non-improvements. *)
Definition patient_config : Config :=
  config (Some "valid.jsonl"%string) 5 1 (Some 3%Z) 2.

(** Ten steps, no held-out split, a train record every third step. *)
Definition plain_config : Config :=
  config None 10 0 None 3.

(** A shuffle that reverses its list. *)
Definition reverse (g : nat) (l : list string) : list string * nat :=
  (rev l, S g).

(** Three lines of a data file. *)
Definition lines : list Item :=
  [[("sentence", "s1"); ("label", "A")];
   [("sentence", "s2"); ("label", "B")];
   [("sentence", "s3"); ("label", "A")]]%string.

(** The group counts differ. *)
Definition episode_mismatch : Episode :=
  mkEpisode [["a"]]%string [].

(** Two classes, support groups of one and two sentences. *)
Definition episode_ragged : Episode :=
  mkEpisode [["a"]; ["b"; "a"]]%string [["a"]; ["b"]]%string.

(** Evaluations that run no episode. *)
Definition empty_evaluation_config : Config :=
  mkConfig "train.jsonl" 1 1 2 (Some "valid.jsonl"%string) None 5 1
           (Some 2%Z) 0 1 "euclidean".

(** A test set only, read from the validation file. *)
Definition test_only_config : Config :=
  mkConfig "train.jsonl" 1 1 2 None (Some "valid.jsonl"%string) 3 1
           (Some 1%Z) 1 1 "euclidean".

(** A negative threshold, evaluation every second step. *)
Definition negative_stop_config : Config :=
  config (Some "valid.jsonl"%string) 5 2 (Some (-1)%Z) 1.

(** No train record is ever due to be computed: [log_every] is 0. *)
Definition zero_log_config : Config :=
  config None 3 1 None 0.

(** A command line without held-out sets and with [--log-every 0]. *)
Definition command_line : Args :=
  mkArgs "train.jsonl" None None "runs/demo" "bert-base-cased"
         25 100 0 42 0 1 1 2 1 "cosine".

Definition seed_state (seed : Z) : nat := Z.to_nat seed.

Definition every_path_exists (path : string) : bool := true.

(** Only the training file is there. *)
Definition only_train_exists (path : string) : bool :=
  (path =? "train.jsonl")%string.

(** A command line that names a validation file. *)
Definition command_line_without_valid_file : Args :=
  mkArgs "train.jsonl" (Some "missing.jsonl"%string) None "runs/demo"
         "bert-base-cased" 25 100 10 42 0 1 1 2 1 "cosine".

End Demo.

(** ** A sampler that shuffles in place *)
Module InPlace.

(** The state of the sampler: the seed-driven generator, and whether the
    lists of the map are in the reverse of the order they were loaded
    in. *)
Definition state : Type := (nat * bool)%type.

(** A list of the map as the sampler currently holds it. *)
Definition current (reversed : bool) (l : list string) : list string :=
  if reversed then rev l else l.

(** Modelled from the spec: [utils.few_shot.create_episode] is not among the
    sources; sections 4.4 and 5 say that it shuffles the within-class order
    of the lists of the map in place.  Here every draw reverses the lists
    in place, then reads the support sentences and after them the query
    sentences off the front of the first [n_cls] lists. *)
Definition pick (g : state) (data_dict : DataDict) (n_sup n_cls n_qry : Z)
  : res Episode * state :=
  let reversed := negb (snd g) in
  let shuffled :=
    map (fun c => (fst c, current reversed (snd c))) data_dict in
  let '(r, n) := Demo.pick (fst g) shuffled n_sup n_cls n_qry in
  (r, (n, reversed)).

Definition files (g : state) (path : string) : DataDict * state :=
  let '(d, n) := Demo.files (fst g) path in (d, (n, snd g)).

Definition externals : Externals := {|
  F := Z;
  fzero := 0%Z;
  fone := 1%Z;
  ffive := 5%Z;
  fneg := Z.opp;
  fmul := Z.mul;
  fmean := Demo.mean;
  fgtb := Z.gtb;
  cross_entropy := Demo.margin;
  np_mean := Demo.mean;
  vec_dist := Demo.dist;
  vec_cos := Demo.cos;
  Params := Z;
  OptState := nat;
  Rng := state;
  encoder_forward := Demo.encode;
  backward_and_step := Demo.update;
  create_episode := pick;
  load_labels_dict := files
|}.


(** Seed 0, the lists as loaded. *)
Definition world0 : @World externals :=
  @mkWorld externals 1%Z 0 false (0, false) [] 0.

(** Two labels of three sentences each. *)
Definition data : DataDict :=
  [("A", ["a"; "a"; "b"]); ("B", ["b"; "b"; "a"])]%string.





End InPlace.


(** * Properties *)

Unset Implicit Arguments.

Section Facts.

Context {E : Externals}.

(** ** Lists and tensors *)

Lemma replace_nth_length {A : Type} (l : list A) (i : nat) (v : A) :
  List.length (replace_nth i l v) = List.length l.
Proof.
  revert i; induction l as [|h t IH]; intros [|i]; simpl; auto.
Qed.

Lemma replace_nth_same {A : Type} (l : list A) (i : nat) (v d : A) :
  i < List.length l -> nth i (replace_nth i l v) d = v.
Proof.
  revert i; induction l as [|h t IH]; intros [|i] Hi; simpl in *;
    try lia; auto.
  apply IH; lia.
Qed.

Lemma replace_nth_other {A : Type} (l : list A) (i k : nat) (v d : A) :
  k <> i -> nth k (replace_nth i l v) d = nth k l d.
Proof.
  revert i k; induction l as [|h t IH]; intros [|i] [|k] Hk; simpl;
    try congruence; auto.
Qed.

Lemma replace_nth_Forall {A : Type} (P : A -> Prop) (l : list A) (i : nat)
  (v : A) :
  Forall P l -> P v -> Forall P (replace_nth i l v).
Proof.
  intros Hl Hv; revert i; induction Hl as [|h t Hh Ht IH]; intros [|i];
    simpl; auto.
Qed.

Lemma has_shape_row (R C : nat) (m : tensor) (r : nat) :
  has_shape R C m -> r < R -> List.length (nth r m []) = C.
Proof.
  intros [Hlen Hrows] Hr.
  rewrite Forall_forall in Hrows; apply Hrows, nth_In; lia.
Qed.

(** An in-range item assignment succeeds, keeps the shape and changes one
    entry. *)
Lemma setitem2_in_range (R C : nat) (m : tensor) (i j : nat) (v : F) :
  has_shape R C m -> i < R -> j < C ->
  exists m',
    setitem2 m i j v = Ok m'
    /\ has_shape R C m'
    /\ entry m' i j = v
    /\ (forall r c, r <> i \/ c <> j -> entry m' r c = entry m r c).
Proof.
  intros Hsh Hi Hj.
  pose proof (has_shape_row _ _ _ _ Hsh Hi) as Hrow.
  destruct Hsh as [Hlen Hrows].
  unfold setitem2.
  rewrite (nth_error_nth' m [] (n := i)) by lia.
  assert (Hlt : (j <? List.length (nth i m [])) = true)
    by (apply Nat.ltb_lt; lia).
  rewrite Hlt.
  eexists; split; [reflexivity|].
  split; [|split].
  - split.
    + rewrite replace_nth_length; exact Hlen.
    + apply replace_nth_Forall; auto.
      rewrite replace_nth_length; exact Hrow.
  - unfold entry.
    rewrite replace_nth_same by lia.
    apply replace_nth_same; lia.
  - intros r c Hrc; unfold entry.
    destruct (Nat.eq_dec r i) as [->|Hne].
    + rewrite replace_nth_same by lia.
      apply replace_nth_other; destruct Hrc; congruence.
    + rewrite replace_nth_other by exact Hne; reflexivity.
Qed.

(** The inner label loop over a group whose rows all exist. *)
Lemma fill_class_in_range (R C : nat) (g : list string) :
  forall (m : tensor) (c Q s : nat),
    has_shape R C m -> c < C -> c * Q + s + List.length g <= R ->
    exists m',
      fill_class m c Q s g = Ok m'
      /\ has_shape R C m'
      /\ (forall r, c * Q + s <= r < c * Q + s + List.length g ->
                    entry m' r c = fone)
      /\ (forall r j, j <> c \/ r < c * Q + s
                      \/ c * Q + s + List.length g <= r ->
                      entry m' r j = entry m r j).
Proof.
  induction g as [|sentence rest IH]; intros m c Q s Hsh Hc Hfit; simpl in *.
  - exists m; repeat split; try apply Hsh; intros; try lia; reflexivity.
  - destruct (setitem2_in_range R C m (c * Q + s) c fone Hsh)
      as (m1 & Hset & Hsh1 & Hhit & Hmiss); try lia.
    rewrite Hset; simpl.
    destruct (IH m1 c Q (S s) Hsh1 Hc) as (m2 & Hfill & Hsh2 & Hin & Hout);
      try lia.
    exists m2; split; [exact Hfill|]; split; [exact Hsh2|]; split.
    + intros r Hr.
      destruct (Nat.eq_dec r (c * Q + s)) as [->|Hne].
      * rewrite Hout by lia; exact Hhit.
      * apply Hin; lia.
    + intros r j Hrj.
      rewrite Hout by lia.
      apply Hmiss; lia.
Qed.

(** The outer label loop over groups of [Q] sentences each. *)
Lemma fill_labels_in_range (R C Q : nat) (groups : list (list string)) :
  forall (m : tensor) (c0 : nat),
    has_shape R C m ->
    Forall (fun g => List.length g = Q) groups ->
    c0 + List.length groups <= C ->
    (c0 + List.length groups) * Q <= R ->
    exists m',
      fill_labels m c0 Q groups = Ok m'
      /\ has_shape R C m'
      /\ (forall r j, c0 <= j < c0 + List.length groups ->
                      j * Q <= r < (j + 1) * Q -> entry m' r j = fone)
      /\ (forall r j, j < c0 \/ c0 + List.length groups <= j
                      \/ r < j * Q \/ (j + 1) * Q <= r ->
                      entry m' r j = entry m r j).
Proof.
  induction groups as [|g rest IH]; intros m c0 Hsh Hall Hcols Hrows;
    simpl in *.
  - exists m; repeat split; try apply Hsh; intros; try lia; reflexivity.
  - inversion Hall as [|? ? Hg Hrest]; subst.
    destruct (fill_class_in_range R C g m c0 (List.length g) 0 Hsh)
      as (m1 & Hfill & Hsh1 & Hin & Hout); try lia; try nia.
    rewrite Hfill; simpl.
    destruct (IH m1 (S c0) Hsh1 Hrest) as (m2 & Hfill2 & Hsh2 & Hin2 & Hout2);
      try lia; try nia.
    exists m2; split; [exact Hfill2|]; split; [exact Hsh2|]; split.
    + intros r j Hj Hr.
      destruct (Nat.eq_dec j c0) as [->|Hne].
      * rewrite Hout2 by lia. apply Hin; nia.
      * apply Hin2; lia.
    + intros r j Hrj.
      rewrite Hout2 by lia.
      apply Hout.
      destruct (Nat.eq_dec j c0) as [->|Hne]; [right; nia | left; exact Hne].
Qed.

Lemma nth_map_seq {A : Type} (f : nat -> A) (n i : nat) (d : A) :
  i < n -> nth i (map f (seq 0 n)) d = f i.
Proof.
  intros Hi.
  rewrite (nth_indep _ d (f 0)) by (rewrite length_map, length_seq; exact Hi).
  rewrite map_nth, seq_nth by exact Hi; reflexivity.
Qed.

Lemma nth_map_in {A B : Type} (f : A -> B) (l : list A) (i : nat) (d : B)
  (d' : A) :
  i < List.length l -> nth i (map f l) d = f (nth i l d').
Proof.
  intros Hi.
  rewrite (nth_indep _ d (f d')) by (rewrite length_map; exact Hi).
  apply map_nth.
Qed.

Lemma concat_length_uniform {A : Type} (groups : list (list A)) (k : nat) :
  forallb (fun g => List.length g =? k) groups = true ->
  List.length (concat groups) = List.length groups * k.
Proof.
  induction groups as [|g rest IH]; simpl; intros H; [reflexivity|].
  apply andb_prop in H as [Hg Hrest].
  apply Nat.eqb_eq in Hg.
  rewrite length_app, IH by exact Hrest; lia.
Qed.

Lemma zeros_like_shape (R C : nat) (m : tensor) :
  has_shape R C m -> has_shape R C (zeros_like m).
Proof.
  intros [Hlen Hrows]; split; unfold zeros_like.
  - rewrite length_map; exact Hlen.
  - apply Forall_map. eapply Forall_impl; [|exact Hrows].
    intros row Hrow; rewrite length_map; exact Hrow.
Qed.

Lemma zeros_like_entry (m : tensor) (r c : nat) :
  entry (zeros_like m) r c = fzero.
Proof.
  unfold entry, zeros_like.
  destruct (Nat.lt_ge_cases r (List.length m)) as [Hr|Hr].
  - rewrite (nth_map_in _ _ _ _ []) by exact Hr.
    destruct (Nat.lt_ge_cases c (List.length (nth r m []))) as [Hc|Hc].
    + rewrite (nth_map_in _ _ _ _ fzero) by exact Hc; reflexivity.
    + apply nth_overflow; rewrite length_map; exact Hc.
  - rewrite (nth_overflow (map _ m) []) by (rewrite length_map; exact Hr).
    destruct c; reflexivity.
Qed.

(** Line 75 yields one row per row of the similarity matrix and one column
    per class. *)
Lemma average_over_support_shape (N K : nat) (sims : tensor) :
  has_shape (List.length sims) N (average_over_support N K sims).
Proof.
  unfold average_over_support, transpose; split.
  - rewrite length_map, length_seq; reflexivity.
  - apply Forall_map, Forall_forall; intros i _.
    rewrite !length_map, length_seq; reflexivity.
Qed.

(** Its entry for query row [i] and class [c] is the mean of the [K]
    columns [c*K .. (c+1)*K) of that row. *)
Lemma average_over_support_entry (N K : nat) (sims : tensor) (i c : nat) :
  i < List.length sims -> c < N ->
  entry (average_over_support N K sims) i c
  = fmean (firstn K (skipn (c * K) (nth i sims []))).
Proof.
  intros Hi Hc.
  unfold entry, average_over_support, transpose.
  rewrite nth_map_seq by exact Hi.
  rewrite map_map.
  rewrite nth_map_seq by exact Hc.
  unfold mean1, slice_cols.
  rewrite map_map.
  rewrite (nth_map_in _ _ _ _ []) by exact Hi.
  replace ((c + 1) * K - c * K) with K by lia.
  reflexivity.
Qed.

Lemma compute_similarities_known (self : MatchingNet) (zq zs : tensor) :
  known_metric self = true ->
  exists sims,
    compute_similarities self zq zs = Ok sims
    /\ List.length sims = List.length zq.
Proof.
  unfold known_metric, compute_similarities; intros Hm.
  destruct (metric self =? "euclidean")%string.
  - eexists; split; [reflexivity|].
    unfold tensor_neg, euclidean_dist; rewrite !length_map; reflexivity.
  - rewrite orb_false_r in Hm; rewrite Hm.
    eexists; split; [reflexivity|].
    unfold tensor_mul5, cosine_similarity; rewrite !length_map; reflexivity.
Qed.

(** ** MatchingNet.loss on well-formed episodes *)

Lemma well_formed_parts (N K Q : nat) (sample : Episode) :
  well_formed N K Q sample = true ->
  1 <= N /\ 1 <= K /\ 1 <= Q
  /\ List.length (xs sample) = N /\ List.length (xq sample) = N
  /\ forallb (fun g => List.length g =? K) (xs sample) = true
  /\ forallb (fun g => List.length g =? Q) (xq sample) = true.
Proof.
  unfold well_formed; intros H.
  repeat (apply andb_prop in H as [H ?]).
  repeat match goal with
         | h : (_ <=? _) = true |- _ => apply Nat.leb_le in h
         | h : (_ =? _) = true |- _ => apply Nat.eqb_eq in h
         end.
  repeat (split; [assumption|]); assumption.
Qed.

Lemma len_first_uniform (groups : list (list string)) (k : nat) :
  1 <= List.length groups ->
  forallb (fun g => List.length g =? k) groups = true ->
  len_first groups = Ok k.
Proof.
  destruct groups as [|g rest]; simpl; intros Hlen Hall; [lia|].
  apply andb_prop in Hall as [Hg _].
  apply Nat.eqb_eq in Hg; rewrite Hg; reflexivity.
Qed.

Lemma forallb_length_Forall (groups : list (list string)) (k : nat) :
  forallb (fun g => List.length g =? k) groups = true ->
  Forall (fun g => List.length g = k) groups.
Proof.
  intros H; apply Forall_forall; intros g Hg.
  rewrite forallb_forall in H.
  apply Nat.eqb_eq, H, Hg.
Qed.

(** On a well-formed episode [loss] runs to completion; every local has the
    value the algorithm of section 4.2 describes. *)
Lemma loss_locals_well_formed (self : MatchingNet) (sample : Episode)
  (N K Q : nat) (w : World) :
  well_formed N K Q sample = true ->
  known_metric self = true ->
  length_preserving ->
  exists l,
    loss_locals self sample w = (Ok l, record_forward (x l) w)
    /\ n_class l = N /\ n_support l = K /\ n_query l = Q
    /\ x l = concat (xs sample) ++ concat (xq sample)
    /\ z l = encoder_forward (params w) (training w) (x l)
    /\ z_support l = firstn (N * K) (z l)
    /\ z_query l = skipn (N * K) (z l)
    /\ compute_similarities self (z_query l) (z_support l)
       = Ok (similarities l)
    /\ List.length (similarities l) = N * Q
    /\ distances_from_query_to_classes l
       = average_over_support N K (similarities l)
    /\ has_shape (N * Q) N (true_labels l)
    /\ (forall r j, r < N * Q -> j < N ->
                    entry (true_labels l) r j
                    = if j =? r / Q then fone else fzero)
    /\ loss_val l
       = cross_entropy (distances_from_query_to_classes l)
                       (argmax1 (true_labels l))
    /\ acc_val l
       = mean_bool (eq_tensor (argmax1 (true_labels l))
                              (argmax1 (distances_from_query_to_classes l))).
Proof.
  intros Hwf Hmetric Henc.
  destruct (well_formed_parts _ _ _ _ Hwf)
    as (HN & HK & HQ & Hxs & Hxq & Hsup & Hqry).
  pose proof (concat_length_uniform _ _ Hsup) as Hcs.
  pose proof (concat_length_uniform _ _ Hqry) as Hcq.
  rewrite Hxs in Hcs; rewrite Hxq in Hcq.
  set (x_ := concat (xs sample) ++ concat (xq sample)).
  set (z_ := encoder_forward (params w) (training w) x_).
  assert (Hz : List.length z_ = N * K + N * Q).
  { unfold z_; rewrite Henc; unfold x_; rewrite length_app; lia. }
  destruct (compute_similarities_known self (skipn (N * K) z_)
              (firstn (N * K) z_) Hmetric) as (sims & Hsims & Hslen).
  rewrite length_skipn, Hz in Hslen.
  replace (N * K + N * Q - N * K) with (N * Q) in Hslen by lia.
  pose proof (average_over_support_shape N K sims) as Hshape.
  rewrite Hslen in Hshape.
  destruct (fill_labels_in_range (N * Q) N Q (xq sample)
              (zeros_like (average_over_support N K sims)) 0
              (zeros_like_shape _ _ _ Hshape)
              (forallb_length_Forall _ _ Hqry))
    as (labels & Hfill & Hlsh & Hin & Hout); try lia.
  exists (mkLocals N K Q x_ z_ (firstn (N * K) z_) (skipn (N * K) z_) sims
            (average_over_support N K sims) labels
            (cross_entropy (average_over_support N K sims) (argmax1 labels))
            (mean_bool (eq_tensor (argmax1 labels)
                          (argmax1 (average_over_support N K sims))))).
  simpl.
  split.
  - unfold loss_locals.
    rewrite Hxs, Hxq, Nat.eqb_refl; simpl.
    unfold bind, lift.
    rewrite (len_first_uniform _ K), (len_first_uniform _ Q)
      by (try assumption; lia).
    unfold forward; fold x_; fold z_.
    rewrite Hsims, Hfill.
    reflexivity.
  - repeat (split; [first [reflexivity | assumption]|]).
    split; [|split; reflexivity].
    intros r j Hr Hj.
    destruct (Nat.eqb_spec j (r / Q)) as [Heq|Hne].
    + apply Hin; [lia|].
      subst j. pose proof (Nat.Div0.mul_div_le r Q).
      pose proof (Nat.mul_succ_div_gt r Q). nia.
    + rewrite Hout, zeros_like_entry; [reflexivity|].
      destruct (Nat.lt_ge_cases r (j * Q)) as [Hlo|Hlo]; [lia|].
      destruct (Nat.lt_ge_cases r ((j + 1) * Q)) as [Hhi|Hhi]; [|lia].
      exfalso; apply Hne.
      apply (Nat.div_unique r Q j (r - j * Q)); nia.
Qed.

(** Class-major flattening: sentence [k] of group [c] sits at position
    [c * K + k]. *)
Lemma nth_concat_uniform (groups : list (list string)) (K : nat) :
  forallb (fun g => List.length g =? K) groups = true ->
  forall c k d,
    c < List.length groups -> k < K ->
    nth (c * K + k) (concat groups) d = nth k (nth c groups []) d.
Proof.
  induction groups as [|g rest IH]; simpl; intros Hall c k d Hc Hk; [lia|].
  apply andb_prop in Hall as [Hg Hrest].
  apply Nat.eqb_eq in Hg.
  destruct c as [|c]; simpl.
  - apply app_nth1; lia.
  - rewrite app_nth2 by lia.
    replace (K + c * K + k - List.length g) with (c * K + k) by lia.
    apply IH; [exact Hrest | lia | exact Hk].
Qed.

(** What a completed run of [loss] did before the label loop, whatever the
    episode. *)
Lemma loss_locals_inv (self : MatchingNet) (sample : Episode) (w w' : World)
  (l : Locals) :
  loss_locals self sample w = (Ok l, w') ->
  w' = record_forward (x l) w
  /\ x l = concat (xs sample) ++ concat (xq sample)
  /\ z l = encoder_forward (params w) (training w) (x l)
  /\ z_support l = firstn (n_class l * n_support l) (z l)
  /\ z_query l = skipn (n_class l * n_support l) (z l)
  /\ compute_similarities self (z_query l) (z_support l)
     = Ok (similarities l).
Proof.
  unfold loss_locals, bind, lift, raise, ret, forward.
  destruct (negb _); [discriminate|].
  destruct (len_first (xs sample)) as [n_sup|]; [|discriminate].
  destruct (len_first (xq sample)) as [n_qry|]; [|discriminate].
  destruct (compute_similarities _ _ _) as [sims|] eqn:Hsims; [|discriminate].
  destruct (fill_labels _ _ _ _) as [labels|]; [|discriminate].
  intros H; injection H as Hl Hw; subst l w'; simpl.
  repeat split; try reflexivity; exact Hsims.
Qed.

(** ** Accuracy *)

Lemma eq_tensor_length (a b : list nat) :
  List.length a = List.length b ->
  List.length (eq_tensor a b) = List.length a.
Proof.
  revert b; induction a as [|i a IH]; intros [|j b] H; simpl in *;
    try discriminate; auto.
Qed.

Lemma mean_bool_range (l : list bool) :
  l <> [] ->
  exists q, mean_bool l = Fin q /\ (0 <= q <= 1)%Q.
Proof.
  intros Hne.
  destruct l as [|b t]; [congruence|].
  eexists; split; [reflexivity|].
  set (l := b :: t).
  assert (Hpos : (0 < inject_Z (Z.of_nat (List.length l)))%Q).
  { rewrite <- (Zlt_Qlt 0); unfold l; simpl; lia. }
  pose proof (count_occ_bound bool_dec true l) as Hle.
  split.
  - apply Qle_shift_div_l; [exact Hpos|].
    rewrite Qmult_0_l, <- (Zle_Qle 0); lia.
  - apply Qle_shift_div_r; [exact Hpos|].
    rewrite Qmult_1_l, <- Zle_Qle; lia.
Qed.

Lemma argmax1_single_column (R : nat) (m : tensor) :
  has_shape R 1 m -> argmax1 m = repeat 0 R.
Proof.
  intros [Hlen Hrows]; subst R.
  induction Hrows as [|row rest Hrow _ IH]; simpl; [reflexivity|].
  f_equal; [|exact IH].
  destruct row as [|v [|v' t]]; simpl in *; try discriminate; reflexivity.
Qed.

Lemma eq_tensor_refl (a : list nat) :
  eq_tensor a a = repeat true (List.length a).
Proof.
  induction a as [|i a IH]; simpl; [reflexivity|].
  rewrite Nat.eqb_refl, IH; reflexivity.
Qed.

(** ** Claims about MatchingNet.loss *)

(** C1. On a well-formed episode of [N] classes, [K] support and [Q] query
    sentences per class, [loss] completes; the per-class aggregated
    similarity matrix has shape [N*Q, N] and its entry for query row [i]
    and class [c] is the mean of the [K] similarity columns of class [c];
    the target matrix has the same shape, and row [i] holds a one in
    column [i / Q] and zeros in every other column. *)
Theorem loss_targets_one_hot (self : MatchingNet) (sample : Episode)
  (N K Q : nat) (w : World) :
  well_formed N K Q sample = true ->
  known_metric self = true ->
  length_preserving ->
  exists l w',
    loss_locals self sample w = (Ok l, w')
    /\ has_shape (N * Q) N (distances_from_query_to_classes l)
    /\ (forall i c, i < N * Q -> c < N ->
          entry (distances_from_query_to_classes l) i c
          = fmean (firstn K (skipn (c * K) (nth i (similarities l) []))))
    /\ has_shape (N * Q) N (true_labels l)
    /\ (forall i, i < N * Q ->
          i / Q < N
          /\ entry (true_labels l) i (i / Q) = fone
          /\ (forall j, j < N -> j <> i / Q ->
                entry (true_labels l) i j = fzero)).
Proof.
  intros Hwf Hmetric Henc.
  destruct (loss_locals_well_formed self sample N K Q w Hwf Hmetric Henc)
    as (l & Hrun & _ & _ & _ & _ & _ & _ & _ & _ & Hslen & Hd & Hsh & Hent & _).
  exists l, (record_forward (x l) w).
  split; [exact Hrun|].
  rewrite Hd.
  split; [rewrite <- Hslen; apply average_over_support_shape|].
  split.
  { intros i c Hi Hc; apply average_over_support_entry; lia. }
  split; [exact Hsh|].
  intros i Hi.
  assert (Hq : i / Q < N).
  { apply Nat.Div0.div_lt_upper_bound; lia. }
  split; [exact Hq|]; split.
  - rewrite Hent by assumption. rewrite Nat.eqb_refl; reflexivity.
  - intros j Hj Hne. rewrite Hent by assumption.
    destruct (Nat.eqb_spec j (i / Q)); [contradiction | reflexivity].
Qed.

(** C2. On a well-formed episode [loss] flattens the support groups
    class-major, then the query groups the same way, into one sequence;
    the encoder is called exactly once, on that sequence; [z_support] is
    the first [N*K] rows of what it returns and [z_query] the remaining
    [N*Q] rows. *)
Theorem loss_encodes_flattened_episode_once (self : MatchingNet)
  (sample : Episode) (N K Q : nat) (w : World) :
  well_formed N K Q sample = true ->
  known_metric self = true ->
  length_preserving ->
  exists l w',
    loss_locals self sample w = (Ok l, w')
    /\ x l = concat (xs sample) ++ concat (xq sample)
    /\ (forall c k d, c < N -> k < K ->
          nth (c * K + k) (x l) d = nth k (nth c (xs sample) []) d)
    /\ (forall c k d, c < N -> k < Q ->
          nth (N * K + c * Q + k) (x l) d = nth k (nth c (xq sample) []) d)
    /\ forward_calls w' = forward_calls w ++ [x l]
    /\ z l = encoder_forward (params w) (training w) (x l)
    /\ z l = z_support l ++ z_query l
    /\ z_support l = firstn (N * K) (z l)
    /\ List.length (z_support l) = N * K
    /\ z_query l = skipn (N * K) (z l)
    /\ List.length (z_query l) = N * Q.
Proof.
  intros Hwf Hmetric Henc.
  destruct (well_formed_parts _ _ _ _ Hwf)
    as (HN & HK & HQ & Hxs & Hxq & Hsup & Hqry).
  destruct (loss_locals_well_formed self sample N K Q w Hwf Hmetric Henc)
    as (l & Hrun & _ & _ & _ & Hx & Hz & Hzs & Hzq & _).
  pose proof (concat_length_uniform _ _ Hsup) as Hcs.
  pose proof (concat_length_uniform _ _ Hqry) as Hcq.
  rewrite Hxs in Hcs; rewrite Hxq in Hcq.
  assert (Hlen : List.length (z l) = N * K + N * Q).
  { rewrite Hz, Henc, Hx, length_app; lia. }
  exists l, (record_forward (x l) w).
  split; [exact Hrun|].
  split; [exact Hx|].
  split.
  { intros c k d Hc Hk. rewrite Hx, app_nth1 by nia.
    apply nth_concat_uniform; [exact Hsup | lia | exact Hk]. }
  split.
  { intros c k d Hc Hk. rewrite Hx, app_nth2 by nia.
    replace (N * K + c * Q + k - List.length (concat (xs sample)))
      with (c * Q + k) by lia.
    apply nth_concat_uniform; [exact Hqry | lia | exact Hk]. }
  split; [reflexivity|].
  split; [exact Hz|].
  split; [rewrite Hzs, Hzq; symmetry; apply firstn_skipn|].
  split; [exact Hzs|].
  split; [rewrite Hzs, length_firstn; lia|].
  split; [exact Hzq|].
  rewrite Hzq, length_skipn; lia.
Qed.


(** C4, as the code has it. An episode whose support and query class-group
    counts differ makes [loss] raise AssertionError, and an episode without
    any class group makes it raise IndexError, both before the encoder is
    called and with the world untouched.  Every other episode, whatever the
    sizes of its groups, reaches the encoder, which is called on the
    flattened sentences. *)
Theorem loss_checks_group_counts_only (self : MatchingNet)
  (sample : Episode) (w : World) :
  (List.length (xs sample) <> List.length (xq sample) ->
   loss self sample w = (Raise AssertionError, w))
  /\ (xs sample = [] -> xq sample = [] ->
      loss self sample w = (Raise IndexError, w))
  /\ (List.length (xs sample) = List.length (xq sample) ->
      xs sample <> [] ->
      forward_calls (snd (loss self sample w))
      = forward_calls w ++ [concat (xs sample) ++ concat (xq sample)]).
Proof.
  unfold loss, loss_locals, bind, lift, raise, ret, forward.
  split; [|split].
  - intros Hne.
    apply Nat.eqb_neq in Hne. rewrite Nat.eqb_sym in Hne.
    rewrite Hne; reflexivity.
  - intros Hs Hq; rewrite Hs, Hq; reflexivity.
  - intros Heq Hne.
    rewrite Heq, Nat.eqb_refl; simpl.
    destruct (xs sample) as [|gs rest_s]; [congruence|].
    destruct (xq sample) as [|gq rest_q]; [discriminate|].
    simpl len_first; cbv iota beta.
    destruct (compute_similarities _ _ _); [|reflexivity].
    destruct (fill_labels _ _ _ _); reflexivity.
Qed.

(** ** The evaluation step leaves the model alone *)

Lemma loss_locals_frame (self : MatchingNet) (sample : Episode) (w : World) :
  let w' := snd (loss_locals self sample w) in
  params w' = params w /\ opt_state w' = opt_state w
  /\ training w' = training w /\ rng w' = rng w
  /\ optimizer_steps w' = optimizer_steps w.
Proof.
  unfold loss_locals, bind, lift, raise, ret, forward.
  destruct (negb _); [simpl; auto 6|].
  destruct (len_first (xs sample)); [|simpl; auto 6].
  destruct (len_first (xq sample)); [|simpl; auto 6].
  destruct (compute_similarities _ _ _); [|simpl; auto 6].
  destruct (fill_labels _ _ _ _); simpl; auto 6.
Qed.

Lemma loss_frame (self : MatchingNet) (sample : Episode) (w : World) :
  let w' := snd (loss self sample w) in
  params w' = params w /\ opt_state w' = opt_state w
  /\ training w' = training w /\ rng w' = rng w
  /\ optimizer_steps w' = optimizer_steps w.
Proof.
  pose proof (loss_locals_frame self sample w) as H.
  unfold loss, bind, ret.
  destruct (loss_locals self sample w) as [[l|e] w1]; exact H.
Qed.



Lemma test_episodes_frame (self : MatchingNet) (data_dict : DataDict)
  (n_sup n_cls n_qry : Z) (n : nat) :
  forall accuracies losses w,
    let w' := snd (test_episodes self data_dict n_sup n_cls n_qry n
                     accuracies losses w) in
    params w' = params w /\ opt_state w' = opt_state w
    /\ training w' = training w
    /\ optimizer_steps w' = optimizer_steps w.
Proof.
  induction n as [|n IH]; intros accuracies losses w; simpl.
  - auto.
  - unfold bind, sample_episode.
    destruct (create_episode _ _ _ _ _) as [[episode|e] g]; simpl; [|auto].
    set (w1 := mkWorld _ _ _ _ _ _).
    pose proof (loss_frame self episode w1) as Hl.
    destruct (loss self episode w1) as [[r|e] w2]; simpl in *.
    + specialize (IH (accuracies ++ [d_acc (snd r)])
                     (losses ++ [d_loss (snd r)]) w2).
      simpl in IH.
      destruct IH as (Hp & Ho & Ht & Hs), Hl as (Hp' & Ho' & Ht' & _ & Hs').
      repeat split; congruence.
    + destruct Hl as (Hp' & Ho' & Ht' & _ & Hs'); auto.
Qed.


Lemma test_step_frame (self : MatchingNet) (data_dict : DataDict)
  (n_sup n_cls n_qry n_episodes : Z) (w : World) :
  let w' := snd (test_step self data_dict n_sup n_cls n_qry n_episodes w) in
  params w' = params w /\ opt_state w' = opt_state w
  /\ optimizer_steps w' = optimizer_steps w.
Proof.
  unfold test_step, bind, set_training, modify, ret.
  set (w0 := mkWorld _ _ false _ _ _).
  pose proof (test_episodes_frame self data_dict n_sup n_cls n_qry
                (Z.to_nat n_episodes) [] [] w0) as H.
  destruct (test_episodes _ _ _ _ _ _ _ _ w0) as [[r|e] w1];
    simpl in *; destruct H as (? & ? & _ & ?); auto.
Qed.



(** ** The validation history *)

Lemma running_best_snoc (accs : list pyfloat) (a : pyfloat) :
  running_best (accs ++ [a])
  = if py_gt a (running_best accs) then a else running_best accs.
Proof.
  unfold running_best; rewrite fold_left_app; reflexivity.
Qed.

Lemma running_best_nonneg (accs : list pyfloat) :
  exists b, running_best accs = Fin b /\ (0 <= b)%Q.
Proof.
  induction accs as [|a accs IH] using rev_ind.
  - exists 0%Q; split; [reflexivity | discriminate].
  - destruct IH as (b & Hb & Hpos).
    rewrite running_best_snoc, Hb.
    destruct a as [q|]; simpl; [|exists b; auto].
    destruct (Qle_bool q b) eqn:Hle; simpl; [exists b; auto|].
    exists q; split; [reflexivity|].
    apply Qlt_le_weak, Qle_lt_trans with (y := b); [exact Hpos|].
    apply Qnot_le_lt; intros H.
    apply Qle_bool_iff in H; congruence.
Qed.

Lemma improved_at_snoc (accs : list pyfloat) (a : pyfloat) (i : nat) :
  i < List.length accs ->
  improved_at (accs ++ [a]) i = improved_at accs i.
Proof.
  intros Hi; unfold improved_at.
  rewrite app_nth1 by exact Hi.
  rewrite firstn_app.
  replace (i - List.length accs) with 0 by lia.
  simpl; rewrite app_nil_r; reflexivity.
Qed.

Lemma improved_at_last (accs : list pyfloat) (a : pyfloat) :
  improved_at (accs ++ [a]) (List.length accs)
  = py_gt a (running_best accs).
Proof.
  unfold improved_at.
  rewrite nth_middle, firstn_app, firstn_all, Nat.sub_diag.
  simpl; rewrite app_nil_r; reflexivity.
Qed.

Lemma find_ext_in {A : Type} (f g : A -> bool) (l : list A) :
  (forall a, In a l -> f a = g a) -> find f l = find g l.
Proof.
  induction l as [|h t IH]; simpl; intros H; [reflexivity|].
  rewrite (H h) by auto.
  destruct (g h); [reflexivity|].
  apply IH; intros a Ha; apply H; auto.
Qed.

(** One more evaluation: the count restarts on a strict improvement and
    grows by one otherwise. *)
Lemma evals_since_improvement_snoc (accs : list pyfloat) (a : pyfloat) :
  evals_since_improvement (accs ++ [a])
  = if py_gt a (running_best accs) then 0
    else evals_since_improvement accs + 1.
Proof.
  unfold evals_since_improvement.
  rewrite length_app; simpl List.length.
  replace (List.length accs + 1) with (S (List.length accs)) by lia.
  rewrite seq_S, rev_app_distr; cbn [rev app find Nat.add].
  rewrite improved_at_last.
  destruct (py_gt a (running_best accs)); [lia|].
  rewrite (find_ext_in (improved_at (accs ++ [a])) (improved_at accs)).
  - destruct (find _ _) as [i|] eqn:Hfind; [|lia].
    apply find_some in Hfind as [Hin _].
    apply in_rev, in_seq in Hin; lia.
  - intros i Hi.
    apply in_rev, in_seq in Hi.
    apply improved_at_snoc; lia.
Qed.

(** ** One iteration of the training loop *)

(** A training step that returns has called [optimizer.step()] once. *)
Lemma train_step_counts (self : MatchingNet) (data_dict : DataDict)
  (n_sup n_cls n_qry : Z) (w w' : World) (r : F * LossDict) :
  train_step self data_dict n_sup n_cls n_qry w = (Ok r, w') ->
  optimizer_steps w' = S (optimizer_steps w).
Proof.
  unfold train_step, bind, sample_episode, set_training, modify, optimize, ret.
  destruct (create_episode _ _ _ _ _) as [[episode|e] g]; [|discriminate].
  set (u := mkWorld _ _ true _ _ _).
  pose proof (loss_frame self episode u) as (Hp & Ho & _ & _ & Hs).
  destruct (loss self episode u) as [[r1|e] u1]; [|discriminate].
  simpl in Hs.
  unfold modify; cbv beta.
  destruct (backward_and_step _ _ _) as [p o].
  intros H; injection H as _ Hw; subst w'; simpl.
  rewrite Hs; reflexivity.
Qed.

(** What an evaluation of one held-out set that returns has done. *)
Lemma evaluate_set_inv (cfg : Config) (net : MatchingNet)
  (set_type : SetType) (path : option string) (set_data : DataDict)
  (step : nat) (st st' : LoopState) (w w' : World) :
  evaluate_set cfg net set_type path set_data step st w = (Ok st', w') ->
  (truthy_path path = false /\ st' = st /\ w' = w)
  \/ (truthy_path path = true
      /\ exists set_results,
           test_step net set_data (cfg_n_support cfg) (cfg_n_classes cfg)
             (cfg_n_query cfg) (n_test_episodes cfg) w
           = (Ok set_results, w')
           /\ st' = match set_type with
                    | Valid => track_best (r_acc set_results)
                                 (log_evaluation Valid set_results step st)
                    | Test => log_evaluation Test set_results step st
                    end).
Proof.
  unfold evaluate_set, bind, ret.
  destruct (truthy_path path).
  - destruct (test_step _ _ _ _ _ _ w) as [[set_results|e] w1];
      [|discriminate].
    intros H; right; split; [reflexivity|].
    exists set_results.
    destruct set_type; injection H as Hst Hw; subst; auto.
  - intros H; injection H as Hst Hw; subst; auto.
Qed.

Lemma evaluate_set_steps (cfg : Config) (net : MatchingNet)
  (set_type : SetType) (path : option string) (set_data : DataDict)
  (step : nat) (st st' : LoopState) (w w' : World) :
  evaluate_set cfg net set_type path set_data step st w = (Ok st', w') ->
  optimizer_steps w' = optimizer_steps w.
Proof.
  intros H.
  destruct (evaluate_set_inv _ _ _ _ _ _ _ _ _ _ H)
    as [(_ & _ & ->)|(_ & sr & Hrun & _)]; [reflexivity|].
  pose proof (test_step_frame net set_data (cfg_n_support cfg)
                (cfg_n_classes cfg) (cfg_n_query cfg) (n_test_episodes cfg) w)
    as (_ & _ & Hs).
  rewrite Hrun in Hs; exact Hs.
Qed.

(** What an iteration of the loop that returns has done. *)
Lemma loop_body_inv (cfg : Config) (net : MatchingNet)
  (train_data_dict valid_data_dict test_data_dict : DataDict)
  (step : nat) (st st' : LoopState) (brk : bool) (w w' : World) :
  loop_body cfg net train_data_dict valid_data_dict test_data_dict step st w
  = (Ok (st', brk), w') ->
  exists r w1 log_now,
    train_step net train_data_dict (cfg_n_support cfg) (cfg_n_classes cfg)
      (cfg_n_query cfg) w = (Ok r, w1)
    /\ due step (log_every cfg) = Ok log_now
    /\ ((brk = false /\ w' = w1
         /\ st' = after_training (snd r) log_now step st
         /\ (held_out cfg = false
             \/ due step (evaluate_every cfg) = Ok false))
        \/ (held_out cfg = true
            /\ due step (evaluate_every cfg) = Ok true
            /\ brk = early_stop_reached (early_stop cfg)
                                        (n_eval_since_last_best st')
            /\ exists st3 w2,
                 evaluate_set cfg net Valid (valid_path cfg) valid_data_dict
                   step (after_training (snd r) log_now step st) w1
                 = (Ok st3, w2)
                 /\ evaluate_set cfg net Test (test_path cfg) test_data_dict
                      step st3 w2
                    = (Ok st', w'))).
Proof.
  unfold loop_body, bind, lift, ret.
  destruct (train_step _ _ _ _ _ w) as [[r|e] w1]; [|discriminate].
  destruct (due step (log_every cfg)) as [log_now|e]; [|discriminate].
  intros H; exists r, w1, log_now.
  split; [reflexivity|]; split; [reflexivity|].
  destruct (held_out cfg).
  - destruct (due step (evaluate_every cfg)) as [[|]|e]; [| |discriminate].
    + right.
      destruct (evaluate_set cfg net Valid _ _ _ _ w1) as [[st3|e] w2];
        [|discriminate].
      destruct (evaluate_set cfg net Test _ _ _ _ w2) as [[st4|e] w3] eqn:Ht;
        [|discriminate].
      injection H as Hst Hb Hw; subst.
      repeat split; try reflexivity.
      exists st3, w2; split; [reflexivity | exact Ht].
    + left; injection H as Hst Hb Hw; subst; auto.
  - left; injection H as Hst Hb Hw; subst; auto.
Qed.

Lemma loop_body_steps (cfg : Config) (net : MatchingNet)
  (train_data_dict valid_data_dict test_data_dict : DataDict)
  (step : nat) (st st' : LoopState) (brk : bool) (w w' : World) :
  loop_body cfg net train_data_dict valid_data_dict test_data_dict step st w
  = (Ok (st', brk), w') ->
  optimizer_steps w' = S (optimizer_steps w).
Proof.
  intros H.
  destruct (loop_body_inv _ _ _ _ _ _ _ _ _ _ _ H)
    as (r & w1 & log_now & Htrain & _ & Hrest).
  apply train_step_counts in Htrain.
  destruct Hrest as [(_ & -> & _)|(_ & _ & _ & st3 & w2 & Hv & Ht)];
    [exact Htrain|].
  apply evaluate_set_steps in Hv, Ht; congruence.
Qed.

Lemma after_training_keeps (d : LossDict) (log_now : bool) (step : nat)
  (st : LoopState) :
  let st' := after_training d log_now step st in
  n_eval_since_last_best st' = n_eval_since_last_best st
  /\ best_valid_acc st' = best_valid_acc st
  /\ log_valid (log_dict st') = log_valid (log_dict st)
  /\ log_test (log_dict st') = log_test (log_dict st).
Proof.
  unfold after_training; destruct log_now; simpl; auto.
Qed.

Lemma evaluate_test_keeps (cfg : Config) (net : MatchingNet)
  (path : option string) (set_data : DataDict)
  (step : nat) (st st' : LoopState) (w w' : World) :
  evaluate_set cfg net Test path set_data step st w = (Ok st', w') ->
  n_eval_since_last_best st' = n_eval_since_last_best st
  /\ best_valid_acc st' = best_valid_acc st
  /\ log_valid (log_dict st') = log_valid (log_dict st).
Proof.
  intros H.
  destruct (evaluate_set_inv _ _ _ _ _ _ _ _ _ _ H)
    as [(_ & -> & _)|(_ & sr & _ & ->)]; simpl; auto.
Qed.

Lemma evaluate_valid_counter (cfg : Config) (net : MatchingNet)
  (path : option string) (set_data : DataDict)
  (step : nat) (st st' : LoopState) (w w' : World) :
  evaluate_set cfg net Valid path set_data step st w = (Ok st', w') ->
  n_eval_since_last_best st' <= n_eval_since_last_best st + 1.
Proof.
  intros H.
  destruct (evaluate_set_inv _ _ _ _ _ _ _ _ _ _ H)
    as [(_ & -> & _)|(_ & sr & _ & ->)]; [lia|].
  unfold track_best.
  destruct (py_gt _ _); simpl; lia.
Qed.

(** ** Early stopping *)

Lemma loop_body_early_stop (cfg : Config) (net : MatchingNet)
  (train_data_dict valid_data_dict test_data_dict : DataDict)
  (step : nat) (st st' : LoopState) (brk : bool) (w w' : World) :
  below_threshold cfg st ->
  loop_body cfg net train_data_dict valid_data_dict test_data_dict step st w
  = (Ok (st', brk), w') ->
  (brk = false -> below_threshold cfg st')
  /\ (brk = true ->
      held_out cfg = true
      /\ due step (evaluate_every cfg) = Ok true
      /\ (exists es,
            early_stop cfg = Some es /\ es <> 0%Z
            /\ Z.of_nat (n_eval_since_last_best st') = es)
      /\ exists st2 st3 w1 w2,
           evaluate_set cfg net Valid (valid_path cfg) valid_data_dict
             step st2 w1 = (Ok st3, w2)
           /\ evaluate_set cfg net Test (test_path cfg) test_data_dict
                step st3 w2 = (Ok st', w')).
Proof.
  intros Hbelow H.
  destruct (loop_body_inv _ _ _ _ _ _ _ _ _ _ _ H)
    as (r & w1 & log_now & _ & _ & Hrest).
  destruct Hrest as [(-> & _ & -> & _)|(Hheld & Hdue & Hbrk & st3 & w2 & Hv & Ht)].
  - split; [|discriminate].
    intros _ es Hes Hnz.
    destruct (after_training_keeps (snd r) log_now step st) as (-> & _).
    apply Hbelow; assumption.
  - pose proof (evaluate_valid_counter _ _ _ _ _ _ _ _ _ Hv) as Hv'.
    pose proof (evaluate_test_keeps _ _ _ _ _ _ _ _ _ Ht) as (Hc & _).
    destruct (after_training_keeps (snd r) log_now step st) as (Hc0 & _).
    rewrite Hc0 in Hv'.
    unfold early_stop_reached in Hbrk.
    split.
    + intros -> es Hes Hnz.
      rewrite Hes in Hbrk.
      symmetry in Hbrk; apply andb_false_iff in Hbrk as [Hb|Hb].
      * apply negb_false_iff, Z.eqb_eq in Hb; contradiction.
      * apply Z.leb_gt in Hb; exact Hb.
    + intros ->.
      split; [exact Hheld|]; split; [exact Hdue|].
      split; [|exists (after_training (snd r) log_now step st), st3, w1, w2;
                split; [exact Hv | exact Ht]].
      destruct (early_stop cfg) as [es|] eqn:Hes; [|discriminate].
      symmetry in Hbrk; apply andb_prop in Hbrk as [Hnz Hle].
      apply negb_true_iff, Z.eqb_neq in Hnz.
      apply Z.leb_le in Hle.
      exists es; split; [reflexivity|]; split; [exact Hnz|].
      specialize (Hbelow es Hes Hnz). lia.
Qed.

Lemma training_loop_early_stop (cfg : Config) (net : MatchingNet)
  (train_data_dict valid_data_dict test_data_dict : DataDict) (n : nat) :
  forall (a : nat) (st st' : LoopState) (out : Outcome) (w w' : World),
    below_threshold cfg st ->
    training_loop cfg net train_data_dict valid_data_dict test_data_dict
      (seq a n) st w = (Ok (st', out), w') ->
    match out with
    | StoppedMaxIter =>
        optimizer_steps w' = optimizer_steps w + n
        /\ below_threshold cfg st'
    | StoppedEarly step =>
        a <= step < a + n
        /\ optimizer_steps w' = optimizer_steps w + (step - a) + 1
        /\ held_out cfg = true
        /\ due step (evaluate_every cfg) = Ok true
        /\ (exists es,
              early_stop cfg = Some es /\ es <> 0%Z
              /\ Z.of_nat (n_eval_since_last_best st') = es)
        /\ exists st2 st3 w1 w2,
             evaluate_set cfg net Valid (valid_path cfg) valid_data_dict
               step st2 w1 = (Ok st3, w2)
             /\ evaluate_set cfg net Test (test_path cfg) test_data_dict
                  step st3 w2 = (Ok st', w')
    end.
Proof.
  induction n as [|n IH]; intros a st st' out w w' Hbelow; simpl.
  - unfold ret; intros H; injection H as <- <- <-.
    split; [lia | exact Hbelow].
  - unfold bind.
    destruct (loop_body _ _ _ _ _ a st w) as [[[st1 brk]|e] w1] eqn:Hbody;
      [|discriminate].
    pose proof (loop_body_steps _ _ _ _ _ _ _ _ _ _ _ Hbody) as Hsteps.
    destruct (loop_body_early_stop _ _ _ _ _ _ _ _ _ _ _ Hbelow Hbody)
      as (Hgo & Hstop).
    simpl; destruct brk.
    + unfold ret; intros H; injection H as <- <- <-.
      destruct (Hstop eq_refl) as (Hheld & Hdue & Hes & Hcycle).
      repeat split; try assumption; lia.
    + intros H.
      specialize (IH (S a) st1 st' out w1 w' (Hgo eq_refl) H).
      destruct out as [|step].
      * destruct IH as (Hn & Hb); split; [lia | exact Hb].
      * destruct IH as (Hrange & Hn & Hrest).
        split; [lia|]; split; [lia | exact Hrest].
Qed.

(** [run_matching] up to the loop: the model is built and the splits are
    loaded, which only draws from the random generator. *)
Lemma run_matching_inv (cfg : Config) (w w' : World)
  (res_ : LoopState * Outcome) :
  run_matching cfg w = (Ok res_, w') ->
  exists net valid_data_dict test_data_dict w0,
    MatchingNet_init (cfg_metric cfg) = Ok net
    /\ optimizer_steps w0 = optimizer_steps w
    /\ forward_calls w0 = forward_calls w
    /\ training_loop cfg net
         (fst (load_labels_dict (rng w) (train_path cfg)))
         valid_data_dict test_data_dict
         (seq 0 (Z.to_nat (max_iter cfg))) (initial_state cfg) w0
       = (Ok res_, w').
Proof.
  unfold run_matching, bind, lift.
  destruct (MatchingNet_init (cfg_metric cfg)) as [net|e]; [|discriminate].
  unfold load_data at 1.
  destruct (load_labels_dict (rng w) (train_path cfg)) as [td g1]; simpl.
  set (w1 := mkWorld _ _ _ g1 _ _).
  assert (Hload : forall path u,
             exists d u', load_split path u = (Ok d, u')
                          /\ optimizer_steps u' = optimizer_steps u
                          /\ forward_calls u' = forward_calls u).
  { intros path u; unfold load_split, load_data, ret.
    destruct path as [p|]; [|eauto].
    destruct (truthy_path (Some p)); [|eauto].
    destruct (load_labels_dict (rng u) p) as [d g]; eauto. }
  destruct (Hload (valid_path cfg) w1) as (vd & w2 & -> & Hs2 & Hf2).
  destruct (Hload (test_path cfg) w2) as (ted & w3 & -> & Hs3 & Hf3).
  intros H; exists net, vd, ted, w3.
  split; [reflexivity|].
  split; [rewrite Hs3, Hs2; reflexivity|].
  split; [rewrite Hf3, Hf2; reflexivity | exact H].
Qed.

(** C5. When [run_matching] returns, it stopped early at some step exactly
    when a non-zero [early_stop] is configured and the counter of
    consecutive non-improvements reached it at the evaluation cycle of
    that step: the counter then equals the threshold, the final state and
    world are those the cycle's last evaluation left, and exactly
    [step + 1] training steps were executed, none after the cycle.  With
    [early_stop] unset or 0 the loop always runs all [max_iter] steps;
    whenever it runs them all, the counter is below a configured non-zero
    threshold. *)
Theorem early_stopping_exact (cfg : Config) (st : LoopState)
  (out : Outcome) (w w' : World) :
  (forall es, early_stop cfg = Some es -> (0 <= es)%Z) ->
  run_matching cfg w = (Ok (st, out), w') ->
  ((early_stop cfg = None \/ early_stop cfg = Some 0%Z) ->
   out = StoppedMaxIter)
  /\ match out with
     | StoppedEarly step =>
         step < Z.to_nat (max_iter cfg)
         /\ held_out cfg = true
         /\ due step (evaluate_every cfg) = Ok true
         /\ (exists es,
               early_stop cfg = Some es /\ es <> 0%Z
               /\ Z.of_nat (n_eval_since_last_best st) = es)
         /\ (exists net valid_data_dict test_data_dict st2 st3 w1 w2,
               evaluate_set cfg net Valid (valid_path cfg) valid_data_dict
                 step st2 w1 = (Ok st3, w2)
               /\ evaluate_set cfg net Test (test_path cfg) test_data_dict
                    step st3 w2 = (Ok st, w'))
         /\ optimizer_steps w' = optimizer_steps w + step + 1
     | StoppedMaxIter =>
         optimizer_steps w' = optimizer_steps w + Z.to_nat (max_iter cfg)
         /\ below_threshold cfg st
     end.
Proof.
  intros Hnonneg Hrun.
  destruct (run_matching_inv _ _ _ _ Hrun)
    as (net & vd & ted & w0 & _ & Hs0 & _ & Hloop).
  assert (Hinit : below_threshold cfg (initial_state cfg)).
  { intros es Hes Hnz; simpl. specialize (Hnonneg es Hes). lia. }
  pose proof (training_loop_early_stop _ _ _ _ _ _ _ _ _ _ _ _ Hinit Hloop)
    as H.
  destruct out as [|step].
  - split; [reflexivity|].
    destruct H as (Hn & Hb); split; [lia | exact Hb].
  - destruct H as (Hrange & Hn & Hheld & Hdue & (es & Hes & Hnz & Hc)
                   & (st2 & st3 & w1 & w2 & Hv & Ht)).
    split.
    + intros [Hnone|Hzero]; congruence.
    + split; [lia|]; split; [exact Hheld|]; split; [exact Hdue|].
      split; [exists es; auto|].
      split; [exists net, vd, ted, st2, st3, w1, w2; auto | lia].
Qed.

(** ** Best-accuracy tracking *)

Lemma tracks_history_same_log (cfg : Config) (st st' : LoopState) :
  n_eval_since_last_best st' = n_eval_since_last_best st ->
  best_valid_acc st' = best_valid_acc st ->
  log_valid (log_dict st') = log_valid (log_dict st) ->
  tracks_history cfg st -> tracks_history cfg st'.
Proof.
  unfold tracks_history, valid_accs.
  intros -> -> ->; auto.
Qed.

Lemma evaluate_valid_tracks (cfg : Config) (net : MatchingNet)
  (set_data : DataDict) (step : nat) (st st' : LoopState) (w w' : World) :
  tracks_history cfg st ->
  evaluate_set cfg net Valid (valid_path cfg) set_data step st w
  = (Ok st', w') ->
  tracks_history cfg st'.
Proof.
  intros Htr H.
  destruct (evaluate_set_inv _ _ _ _ _ _ _ _ _ _ H)
    as [(_ & -> & _)|(Hpath & sr & _ & ->)]; [exact Htr|].
  destruct Htr as (Hlog & Hcount & Hbest).
  specialize (Hlog Hpath).
  set (s1 := log_evaluation Valid sr step st).
  assert (Hacc : valid_accs s1 = valid_accs st ++ [r_acc sr]).
  { unfold valid_accs, s1; simpl.
    destruct (log_valid (log_dict st)); [|congruence].
    simpl; rewrite map_app; reflexivity. }
  assert (Hsome : log_valid (log_dict s1) <> None).
  { unfold s1; simpl.
    destruct (log_valid (log_dict st)); [discriminate | congruence]. }
  assert (Hc1 : n_eval_since_last_best s1 = n_eval_since_last_best st)
    by reflexivity.
  assert (Hb1 : best_valid_acc s1 = best_valid_acc st) by reflexivity.
  assert (Hsame : forall ta tl c b,
             valid_accs (mkLoopState ta tl c b (log_dict s1))
             = valid_accs s1) by reflexivity.
  clearbody s1.
  unfold tracks_history, track_best.
  rewrite Hb1, Hbest.
  destruct (py_gt (r_acc sr) (running_best (valid_accs st))) eqn:Hgt;
    rewrite Hsame, Hacc, evals_since_improvement_snoc, running_best_snoc,
      Hgt; simpl; repeat split; auto; congruence.
Qed.

Lemma loop_body_tracks (cfg : Config) (net : MatchingNet)
  (train_data_dict valid_data_dict test_data_dict : DataDict)
  (step : nat) (st st' : LoopState) (brk : bool) (w w' : World) :
  tracks_history cfg st ->
  loop_body cfg net train_data_dict valid_data_dict test_data_dict step st w
  = (Ok (st', brk), w') ->
  tracks_history cfg st'.
Proof.
  intros Htr H.
  destruct (loop_body_inv _ _ _ _ _ _ _ _ _ _ _ H)
    as (r & w1 & log_now & _ & _ & Hrest).
  destruct (after_training_keeps (snd r) log_now step st)
    as (Hc & Hb & Hl & _).
  pose proof (tracks_history_same_log cfg _ _ Hc Hb Hl Htr) as Htr1.
  destruct Hrest as [(_ & _ & -> & _)|(_ & _ & _ & st3 & w2 & Hv & Ht)];
    [exact Htr1|].
  apply (evaluate_valid_tracks _ _ _ _ _ _ _ _ Htr1) in Hv.
  apply evaluate_test_keeps in Ht as (Hc' & Hb' & Hl').
  exact (tracks_history_same_log cfg _ _ Hc' Hb' Hl' Hv).
Qed.

Lemma training_loop_tracks (cfg : Config) (net : MatchingNet)
  (train_data_dict valid_data_dict test_data_dict : DataDict)
  (steps : list nat) :
  forall (st st' : LoopState) (out : Outcome) (w w' : World),
    tracks_history cfg st ->
    training_loop cfg net train_data_dict valid_data_dict test_data_dict
      steps st w = (Ok (st', out), w') ->
    tracks_history cfg st'.
Proof.
  induction steps as [|step rest IH]; intros st st' out w w' Htr; simpl.
  - unfold ret; intros H; injection H as <- _ _; exact Htr.
  - unfold bind.
    destruct (loop_body _ _ _ _ _ step st w) as [[[st1 brk]|e] w1] eqn:Hbody;
      [|discriminate].
    pose proof (loop_body_tracks _ _ _ _ _ _ _ _ _ _ _ Htr Hbody) as Htr1.
    simpl; destruct brk.
    + unfold ret; intros H; injection H as <- _ _; exact Htr1.
    + apply IH; exact Htr1.
Qed.

Lemma initial_state_tracks (cfg : Config) :
  tracks_history cfg (initial_state cfg).
Proof.
  unfold tracks_history, valid_accs, initial_state; simpl.
  split; [intros ->; discriminate|].
  destruct (truthy_path (valid_path cfg)); simpl; auto.
Qed.


(** C10. The best validation accuracy starts at 0.0 and the counter at 0;
    since the comparison is strict and the best accuracy is never negative,
    a validation evaluation whose accuracy is exactly 0.0 leaves the best
    accuracy as it is and adds 1 to the counter, the first evaluation of a
    run included. *)
Theorem zero_accuracy_is_not_an_improvement (cfg : Config)
  (net : MatchingNet) (path : option string) (set_data : DataDict)
  (step : nat) (st : LoopState) (w w1 : World) (set_results : SetResults)
  (b q : Q) :
  truthy_path path = true ->
  best_valid_acc st = Fin b -> (0 <= b)%Q ->
  test_step net set_data (cfg_n_support cfg) (cfg_n_classes cfg)
    (cfg_n_query cfg) (n_test_episodes cfg) w = (Ok set_results, w1) ->
  r_acc set_results = Fin q -> (q == 0)%Q ->
  best_valid_acc (initial_state cfg) = Fin 0
  /\ n_eval_since_last_best (initial_state cfg) = 0
  /\ exists st',
       evaluate_set cfg net Valid path set_data step st w = (Ok st', w1)
       /\ n_eval_since_last_best st' = n_eval_since_last_best st + 1
       /\ best_valid_acc st' = best_valid_acc st.
Proof.
  intros Hpath Hbest Hb Hrun Hacc Hq.
  split; [reflexivity|]; split; [reflexivity|].
  unfold evaluate_set, bind, ret.
  rewrite Hpath, Hrun.
  eexists; split; [reflexivity|].
  unfold track_best; simpl best_valid_acc.
  rewrite Hacc, Hbest; simpl.
  assert (Hle : Qle_bool q b = true).
  { apply Qle_bool_iff; rewrite Hq; exact Hb. }
  rewrite Hle; simpl; auto.
Qed.

(** ** A run without held-out splits *)

Lemma train_step_well_formed (self : MatchingNet) (data_dict : DataDict)
  (n_sup n_cls n_qry : Z) (w : World) :
  known_metric self = true ->
  length_preserving ->
  sampler_well_formed data_dict n_sup n_cls n_qry ->
  exists r w',
    train_step self data_dict n_sup n_cls n_qry w = (Ok r, w')
    /\ optimizer_steps w' = S (optimizer_steps w)
    /\ List.length (forward_calls w')
       = S (List.length (forward_calls w)).
Proof.
  intros Hmetric Henc Hsampler.
  destruct (Hsampler (rng w)) as (episode & g & Hdraw & Hwf).
  unfold train_step, bind, sample_episode, set_training, modify.
  rewrite Hdraw.
  set (u := mkWorld _ _ true _ _ _).
  destruct (loss_locals_well_formed self episode _ _ _ u Hwf Hmetric Henc)
    as (l & Hrun & _).
  unfold loss, bind, ret; rewrite Hrun.
  unfold optimize, modify; cbv beta.
  destruct (backward_and_step _ _ _) as [p o].
  eexists; eexists; split; [reflexivity|].
  simpl; rewrite length_app; simpl; split; lia.
Qed.

Lemma succ_div (m L : Z) :
  (0 <= m)%Z -> (0 < L)%Z ->
  ((m + 1) / L = m / L + (if (m + 1) mod L =? 0 then 1 else 0))%Z.
Proof.
  intros Hm HL.
  pose proof (Z.div_mod (m + 1) L ltac:(lia)) as Hdm.
  pose proof (Z.mod_pos_bound (m + 1) L HL) as Hr.
  destruct (Z.eqb_spec ((m + 1) mod L) 0) as [Hz|Hnz].
  - assert (Hq : ((m + 1) / L - 1 = m / L)%Z).
    { apply (Z.div_unique_pos m L _ (L - 1)); lia. }
    lia.
  - assert (Hq : ((m + 1) / L = m / L)%Z).
    { apply (Z.div_unique_pos m L _ ((m + 1) mod L - 1)); lia. }
    lia.
Qed.

(** Of the first [n] steps, [n / log_every] write a train record. *)
Lemma log_steps_count (cfg : Config) (n : nat) :
  (0 < log_every cfg)%Z ->
  List.length (log_steps cfg (seq 0 n))
  = Z.to_nat (Z.of_nat n / log_every cfg).
Proof.
  intros HL; unfold log_steps.
  induction n as [|n IH]; [reflexivity|].
  rewrite seq_S, filter_app, length_app, IH.
  replace (Z.of_nat (S n)) with (Z.of_nat n + 1)%Z by lia.
  cbn [filter Nat.add].
  replace (Z.of_nat (n + 1)) with (Z.of_nat n + 1)%Z by lia.
  rewrite succ_div by lia.
  pose proof (Z.div_pos (Z.of_nat n) (log_every cfg) ltac:(lia) HL).
  destruct ((Z.of_nat n + 1) mod log_every cfg =? 0)%Z; simpl; lia.
Qed.

Lemma training_loop_without_held_out (cfg : Config) (net : MatchingNet)
  (train_data_dict valid_data_dict test_data_dict : DataDict) (n : nat) :
  held_out cfg = false ->
  log_every cfg <> 0%Z ->
  known_metric net = true ->
  length_preserving ->
  sampler_well_formed train_data_dict (cfg_n_support cfg)
    (cfg_n_classes cfg) (cfg_n_query cfg) ->
  forall (a : nat) (st : LoopState) (w : World),
    exists st' w',
      training_loop cfg net train_data_dict valid_data_dict test_data_dict
        (seq a n) st w = (Ok (st', StoppedMaxIter), w')
      /\ optimizer_steps w' = optimizer_steps w + n
      /\ List.length (forward_calls w') = List.length (forward_calls w) + n
      /\ List.length (log_train (log_dict st'))
         = List.length (log_train (log_dict st))
           + List.length (log_steps cfg (seq a n))
      /\ log_valid (log_dict st') = log_valid (log_dict st)
      /\ log_test (log_dict st') = log_test (log_dict st).
Proof.
  intros Hheld Hlog Hmetric Henc Hsampler.
  induction n as [|n IH]; intros a st w; simpl.
  - exists st, w; unfold ret; repeat split; lia.
  - destruct (train_step_well_formed net train_data_dict _ _ _ w
                Hmetric Henc Hsampler) as (r & w1 & Htrain & Hs1 & Hf1).
    unfold bind, loop_body, bind, lift, due.
    rewrite Htrain.
    apply Z.eqb_neq in Hlog; rewrite Hlog, Hheld.
    unfold ret; simpl.
    set (log_now := (Z.of_nat (a + 1) mod log_every cfg =? 0)%Z).
    destruct (IH (S a) (after_training (snd r) log_now a st) w1)
      as (st' & w' & Hloop & Hs & Hf & Hl & Hv & Ht).
    exists st', w'; split; [exact Hloop|].
    destruct (after_training_keeps (snd r) log_now a st)
      as (_ & _ & Hv1 & Ht1).
    split; [lia|]; split; [lia|].
    split; [|split; congruence].
    rewrite Hl; unfold after_training.
    destruct log_now; simpl; rewrite ?length_app; simpl; lia.
Qed.

Lemma load_split_absent (path : option string) (w : World) :
  truthy_path path = false -> load_split path w = (Ok [], w).
Proof.
  unfold load_split; intros H.
  destruct path as [p|]; [rewrite H|]; reflexivity.
Qed.

(** C9. With [max_iter = 10] and neither a validation nor a test path, on
    a sampler that delivers well-formed episodes [run_matching] runs to
    the end of the iteration range: exactly 10 training steps, each with
    one encoder call, [10 / log_every] train records, and no "valid" or
    "test" entry in the log. *)
Theorem ten_steps_without_held_out (cfg : Config) (w : World) :
  max_iter cfg = 10%Z ->
  held_out cfg = false ->
  (0 < log_every cfg)%Z ->
  known_metric (mkMatchingNet (cfg_metric cfg)) = true ->
  length_preserving ->
  sampler_well_formed (fst (load_labels_dict (rng w) (train_path cfg)))
    (cfg_n_support cfg) (cfg_n_classes cfg) (cfg_n_query cfg) ->
  exists st w',
    run_matching cfg w = (Ok (st, StoppedMaxIter), w')
    /\ optimizer_steps w' = optimizer_steps w + 10
    /\ List.length (forward_calls w') = List.length (forward_calls w) + 10
    /\ List.length (log_train (log_dict st))
       = Z.to_nat (10 / log_every cfg)
    /\ log_valid (log_dict st) = None
    /\ log_test (log_dict st) = None.
Proof.
  intros Hiter Hheld Hlog Hmetric Henc Hsampler.
  pose proof Hheld as Hpaths.
  unfold held_out in Hpaths; apply orb_false_iff in Hpaths as [Hv Ht].
  unfold run_matching, bind, lift, MatchingNet_init.
  unfold known_metric in Hmetric; simpl in Hmetric; rewrite Hmetric.
  unfold load_data at 1.
  destruct (load_labels_dict (rng w) (train_path cfg)) as [td g] eqn:Hload.
  simpl in Hsampler.
  rewrite (load_split_absent _ _ Hv), (load_split_absent _ _ Ht), Hiter.
  set (w0 := mkWorld _ _ _ g _ _).
  destruct (training_loop_without_held_out cfg
              (mkMatchingNet (cfg_metric cfg)) td [] [] (Z.to_nat 10)
              Hheld ltac:(lia) Hmetric Henc Hsampler 0 (initial_state cfg) w0)
    as (st & w' & Hloop & Hs & Hf & Hl & Hlv & Hlt).
  exists st, w'; split; [exact Hloop|].
  rewrite log_steps_count in Hl by exact Hlog.
  unfold initial_state in Hlv, Hlt; simpl in Hl, Hlv, Hlt.
  rewrite Hv in Hlv; rewrite Ht in Hlt.
  repeat split; assumption.
Qed.

End Facts.

(** * The claims on the concrete instance *)

Lemma demo_length_preserving : @length_preserving Demo.externals.
Proof.
  intros p b x; apply length_map.
Qed.

Lemma demo_sampler_well_formed :
  @sampler_well_formed Demo.externals
    (fst (Demo.files 0 "train.jsonl")) 1 2 1.
Proof.
  intros g; eexists; eexists; split; reflexivity.
Qed.

Lemma loss_targets_one_hot_witness :
  well_formed 2 1 1 Demo.episode_2_1_1 = true
  /\ exists l w',
       @loss_locals Demo.externals Demo.euclidean_net Demo.episode_2_1_1
         Demo.world0 = (Ok l, w')
       /\ has_shape 2 2 (distances_from_query_to_classes l)
       /\ has_shape 2 2 (true_labels l)
       /\ entry (true_labels l) 1 (1 / 1) = fone.
Proof.
  split; [reflexivity|].
  destruct (@loss_targets_one_hot Demo.externals Demo.euclidean_net
              Demo.episode_2_1_1 2 1 1 Demo.world0 eq_refl eq_refl
              demo_length_preserving)
    as (l & w' & Hrun & Hd & _ & Hl & Hent).
  exists l, w'; split; [exact Hrun|]; split; [exact Hd|]; split; [exact Hl|].
  apply (Hent 1); simpl; lia.
Defined.

Lemma loss_encodes_flattened_episode_once_witness :
  well_formed 2 1 1 Demo.episode_2_1_1 = true
  /\ exists l w',
       @loss_locals Demo.externals Demo.cosine_net Demo.episode_2_1_1
         Demo.world0 = (Ok l, w')
       /\ forward_calls w' = [["a"; "b"; "a"; "b"]%string]
       /\ List.length (z_support l) = 2
       /\ List.length (z_query l) = 2.
Proof.
  split; [reflexivity|].
  destruct (@loss_encodes_flattened_episode_once Demo.externals
              Demo.cosine_net Demo.episode_2_1_1 2 1 1 Demo.world0
              eq_refl eq_refl demo_length_preserving)
    as (l & w' & Hrun & Hx & _ & _ & Hcalls & _ & _ & _ & Hs & _ & Hq).
  exists l, w'; split; [exact Hrun|].
  split; [rewrite Hcalls, Hx; reflexivity|].
  split; [exact Hs | exact Hq].
Defined.


(** C4, refuted as stated: an episode whose only support group is empty is
    malformed, yet [loss] does not fail before the encoder: it calls the
    encoder on the query sentence. *)
Lemma loss_accepts_empty_support_group :
  malformed Demo.episode_empty_support = true
  /\ forward_calls Demo.world0 = []
  /\ forward_calls (snd (@loss Demo.externals Demo.cosine_net
                           Demo.episode_empty_support Demo.world0))
     = [["a"%string]].
Proof.
  repeat split; vm_compute; reflexivity.
Qed.


Lemma early_stopping_exact_witness :
  exists st w',
    @run_matching Demo.externals Demo.stop_config Demo.world0
    = (Ok (st, StoppedEarly 0), w')
    /\ optimizer_steps w' = 1
    /\ n_eval_since_last_best st = 1.
Proof.
  assert (Hout : option_map snd
                   (ok_value (fst (@run_matching Demo.externals
                                     Demo.stop_config Demo.world0)))
                 = Some (StoppedEarly 0))
    by (vm_compute; reflexivity).
  destruct (@run_matching Demo.externals Demo.stop_config Demo.world0)
    as [[[st out]|e] w'] eqn:Hrun; [|discriminate Hout].
  simpl in Hout; injection Hout as ->.
  exists st, w'; split; [reflexivity|].
  assert (Hnonneg : forall es,
             early_stop Demo.stop_config = Some es -> (0 <= es)%Z).
  { intros es Hes; simpl in Hes; injection Hes as <-; lia. }
  destruct (@early_stopping_exact Demo.externals Demo.stop_config st
              (StoppedEarly 0) Demo.world0 w' Hnonneg Hrun)
    as (_ & _ & _ & _ & (es & Hes & _ & Hc) & _ & Hsteps).
  simpl in Hes; injection Hes as <-.
  split; [exact Hsteps | lia].
Defined.


Lemma ten_steps_without_held_out_witness :
  exists st w',
    @run_matching Demo.externals Demo.plain_config Demo.world0
    = (Ok (st, StoppedMaxIter), w')
    /\ optimizer_steps w' = 10
    /\ List.length (log_train (log_dict st)) = 3
    /\ log_valid (log_dict st) = None
    /\ log_test (log_dict st) = None.
Proof.
  destruct (@ten_steps_without_held_out Demo.externals Demo.plain_config
              Demo.world0 eq_refl eq_refl eq_refl eq_refl
              demo_length_preserving demo_sampler_well_formed)
    as (st & w' & Hrun & Hs & _ & Hl & Hv & Ht).
  exists st, w'; split; [exact Hrun|].
  split; [exact Hs|]; split; [exact Hl|]; split; [exact Hv | exact Ht].
Defined.

Lemma zero_accuracy_is_not_an_improvement_witness :
  exists st' w1,
    @evaluate_set Demo.externals Demo.stop_config Demo.euclidean_net Valid
      (Some "valid.jsonl"%string) (fst (Demo.files 0 "valid.jsonl")) 0
      (initial_state Demo.stop_config) Demo.world0 = (Ok st', w1)
    /\ n_eval_since_last_best st' = 1
    /\ best_valid_acc st' = Fin 0.
Proof.
  assert (Hacc : match fst (@test_step Demo.externals Demo.euclidean_net
                              (fst (Demo.files 0 "valid.jsonl")) 1 2 1 1
                              Demo.world0) with
                 | Ok sr => r_acc sr
                 | Raise _ => NaN
                 end = Fin (0 # 2))
    by (vm_compute; reflexivity).
  destruct (@test_step Demo.externals Demo.euclidean_net
              (fst (Demo.files 0 "valid.jsonl")) 1 2 1 1 Demo.world0)
    as [[sr|e] w1] eqn:Hrun; [|discriminate Hacc].
  simpl in Hacc.
  destruct (@zero_accuracy_is_not_an_improvement Demo.externals
              Demo.stop_config Demo.euclidean_net
              (Some "valid.jsonl"%string) (fst (Demo.files 0 "valid.jsonl"))
              0 (initial_state Demo.stop_config) Demo.world0 w1 sr
              0%Q (0 # 2)%Q eq_refl eq_refl (Qle_refl 0) Hrun Hacc eq_refl)
    as (_ & _ & st' & Hev & Hc & Hb).
  exists st', w1; split; [exact Hev|]; split; [exact Hc | exact Hb].
Defined.

(** * Further properties *)

Section LoaderFacts.

Context {E : Externals}.

Variable shuffle : Rng -> list string -> list string * Rng.

(** ** raw_data_to_labels_dict *)

Lemma values_of_dict_append (d : DataDict) (label sentence key : string) :
  values_of (dict_append d label sentence) key
  = if (label =? key)%string then values_of d key ++ [sentence]
    else values_of d key.
Proof.
  induction d as [|[k v] rest IH]; simpl.
  - destruct (String.eqb_spec label key); reflexivity.
  - destruct (String.eqb_spec k label) as [->|Hkl]; simpl.
    + destruct (String.eqb_spec label key); reflexivity.
    + rewrite IH.
      destruct (String.eqb_spec k key) as [->|Hkk]; [|reflexivity].
      destruct (String.eqb_spec label key); [congruence | reflexivity].
Qed.

Lemma keys_dict_append (d : DataDict) (label sentence key : string) :
  In key (map fst (dict_append d label sentence))
  <-> key = label \/ In key (map fst d).
Proof.
  induction d as [|[k v] rest IH]; simpl.
  - intuition.
  - destruct (String.eqb_spec k label) as [->|Hkl]; simpl.
    + intuition.
    + rewrite IH; intuition.
Qed.

Lemma dict_append_NoDup (d : DataDict) (label sentence : string) :
  NoDup (map fst d) -> NoDup (map fst (dict_append d label sentence)).
Proof.
  induction d as [|[k v] rest IH]; simpl; intros Hnd.
  - constructor; [intros [] | constructor].
  - inversion Hnd as [|? ? Hnotin Hrest]; subst.
    destruct (String.eqb_spec k label) as [->|Hkl]; simpl.
    + constructor; assumption.
    + constructor; [|apply IH; exact Hrest].
      rewrite keys_dict_append; intros [->|Hin]; contradiction.
Qed.

Lemma group_items_spec (data : list Item) :
  forall d0 d,
    NoDup (map fst d0) ->
    group_items d0 data = Some d ->
    NoDup (map fst d)
    /\ (forall key, values_of d key
                    = values_of d0 key ++ sentences_with key data)
    /\ (forall key, In key (map fst d)
                    <-> In key (map fst d0)
                        \/ exists item, In item data
                                        /\ getitem item "label" = Some key).
Proof.
  induction data as [|item rest IH]; simpl; intros d0 d Hnd H.
  - injection H as <-.
    split; [exact Hnd|]; split.
    + intros key; rewrite app_nil_r; reflexivity.
    + intros key; split; [auto|].
      intros [Hin|(item & [] & _)]; exact Hin.
  - destruct (getitem item "label") as [label|] eqn:Hl; [|discriminate].
    destruct (getitem item "sentence") as [sentence|] eqn:Hs; [|discriminate].
    destruct (IH _ _ (dict_append_NoDup d0 label sentence Hnd) H)
      as (Hnd' & Hvals & Hkeys).
    split; [exact Hnd'|]; split.
    + intros key; rewrite Hvals, values_of_dict_append.
      destruct (String.eqb_spec label key); [|reflexivity].
      rewrite <- app_assoc; reflexivity.
    + intros key; rewrite Hkeys, keys_dict_append; split.
      * intros [[->|Hin]|(it & Hit & Hlab)]; auto.
        -- right; exists item; auto.
        -- right; exists it; auto.
      * intros [Hin|(it & [<-|Hit] & Hlab)]; auto.
        -- left; left; congruence.
        -- right; exists it; auto.
Qed.

Lemma group_items_complete (data : list Item) :
  forall d0,
    group_items d0 data <> None <-> forallb complete_item data = true.
Proof.
  induction data as [|item rest IH]; simpl; intros d0.
  - split; [reflexivity | discriminate].
  - unfold complete_item.
    destruct (getitem item "label") as [label|];
      [|split; [congruence | discriminate]].
    destruct (getitem item "sentence") as [sentence|];
      [|split; [congruence | discriminate]].
    simpl; apply IH.
Qed.

(** X1. Without shuffling, [raw_data_to_labels_dict] fails exactly when
    some item lacks the key "label" or "sentence"; otherwise it leaves the
    generator alone, the keys of the dictionary are distinct and are the
    labels that occur in the data, and the list under each label holds the
    sentences of the items with that label, in file order. *)
Theorem raw_data_grouped_by_label (data : list Item) (g : Rng) :
  (fst (raw_data_to_labels_dict shuffle data false g) = None
   <-> forallb complete_item data = false)
  /\ forall d g',
       raw_data_to_labels_dict shuffle data false g = (Some d, g') ->
       g' = g
       /\ NoDup (map fst d)
       /\ (forall key, values_of d key = sentences_with key data)
       /\ (forall key, In key (map fst d)
                       <-> exists item, In item data
                                       /\ getitem item "label" = Some key).
Proof.
  unfold raw_data_to_labels_dict; split.
  - pose proof (group_items_complete data []) as Hc.
    destruct (group_items [] data) as [d|]; simpl.
    + split; [discriminate|].
      intros Hf. destruct Hc as [Hc _].
      rewrite Hc in Hf by discriminate; discriminate.
    + split; [|reflexivity].
      intros _. destruct (forallb complete_item data); [|reflexivity].
      destruct Hc as [_ Hc]; exfalso; apply Hc; reflexivity.
  - intros d g' H.
    destruct (group_items [] data) as [d1|] eqn:Hg; [|discriminate].
    injection H as <- <-.
    destruct (group_items_spec data [] d1 (NoDup_nil _) Hg)
      as (Hnd & Hvals & Hkeys).
    split; [reflexivity|]; split; [exact Hnd|]; split; [exact Hvals|].
    intros key; rewrite Hkeys; simpl; intuition.
Qed.

Lemma shuffle_values_spec (d : DataDict) :
  (forall g l, Permutation l (fst (shuffle g l))) ->
  forall g,
    map fst (fst (shuffle_values shuffle g d)) = map fst d
    /\ forall key, Permutation (values_of d key)
                      (values_of (fst (shuffle_values shuffle g d)) key).
Proof.
  intros Hperm.
  induction d as [|[k v] rest IH]; simpl; intros g.
  - split; [reflexivity | intros; constructor].
  - pose proof (Hperm g v) as Hv.
    destruct (shuffle g v) as [v' g1]; simpl in Hv.
    destruct (IH g1) as (Hkeys & Hvals).
    destruct (shuffle_values shuffle g1 rest) as [rest' g2]; simpl in *.
    split; [rewrite Hkeys; reflexivity|].
    intros key; destruct (k =? key)%string; [exact Hv | apply Hvals].
Qed.

(** X2. With shuffling, and a [random.shuffle] that permutes its list,
    [raw_data_to_labels_dict] keeps every sentence under its label: the
    keys are distinct and are the labels of the data, and the list under
    each label is a permutation of the sentences of the items with that
    label, so no sentence is lost, duplicated or moved to another label. *)
Theorem raw_data_shuffled_within_label (data : list Item) (g g' : Rng)
  (d : DataDict) :
  (forall g0 l, Permutation l (fst (shuffle g0 l))) ->
  raw_data_to_labels_dict shuffle data true g = (Some d, g') ->
  NoDup (map fst d)
  /\ (forall key, Permutation (sentences_with key data) (values_of d key))
  /\ (forall key, In key (map fst d)
                  <-> exists item, In item data
                                  /\ getitem item "label" = Some key).
Proof.
  intros Hperm H.
  unfold raw_data_to_labels_dict in H.
  destruct (group_items [] data) as [d1|] eqn:Hg; [|discriminate].
  destruct (group_items_spec data [] d1 (NoDup_nil _) Hg)
    as (Hnd & Hvals & Hkeys).
  destruct (shuffle_values_spec d1 Hperm g) as (Hk & Hv).
  destruct (shuffle_values shuffle g d1) as [d2 g2]; simpl in *.
  injection H as <- <-.
  split; [rewrite Hk; exact Hnd|]; split.
  - intros key; rewrite <- Hvals; apply Hv.
  - intros key; rewrite Hk, Hkeys; simpl; intuition.
Qed.

End LoaderFacts.

Section LossFacts.

Context {E : Externals}.

(** ** Exceptions of MatchingNet.loss *)

Lemma setitem2_raises (m : tensor) (i j : nat) (v : F) (e : exn) :
  setitem2 m i j v = Raise e -> e = IndexError.
Proof.
  unfold setitem2.
  destruct (nth_error m i) as [row|]; [|congruence].
  destruct (j <? List.length row); congruence.
Qed.

Lemma fill_class_raises (g : list string) :
  forall (m : tensor) (c q s : nat) (e : exn),
    fill_class m c q s g = Raise e -> e = IndexError.
Proof.
  induction g as [|sentence rest IH]; simpl; intros m c q s e H;
    [discriminate|].
  destruct (setitem2 m (c * q + s) c fone) as [m1|e1] eqn:Hset; simpl in H.
  - eapply IH; exact H.
  - injection H as <-; eapply setitem2_raises; exact Hset.
Qed.

Lemma fill_labels_raises (groups : list (list string)) :
  forall (m : tensor) (c q : nat) (e : exn),
    fill_labels m c q groups = Raise e -> e = IndexError.
Proof.
  induction groups as [|g rest IH]; simpl; intros m c q e H; [discriminate|].
  destruct (fill_class m c q 0 g) as [m1|e1] eqn:Hfill; simpl in H.
  - eapply IH; exact H.
  - injection H as <-; eapply fill_class_raises; exact Hfill.
Qed.

(** X3. A network whose metric passed the check of [__init__] never
    reaches [raise NotImplementedError]: [loss] can only fail with the
    AssertionError of a group-count mismatch or with an IndexError, raised
    either by [xs[0]] on an episode without groups, both before the
    encoder is called, or by the label loop after the encoder call. *)
Theorem loss_raises_only_assertion_or_index (self : MatchingNet)
  (sample : Episode) (w w' : World) (e : exn) :
  known_metric self = true ->
  loss self sample w = (Raise e, w') ->
  (e = AssertionError
   /\ List.length (xs sample) <> List.length (xq sample) /\ w' = w)
  \/ (e = IndexError /\ xs sample = [] /\ w' = w)
  \/ (e = IndexError /\ xs sample <> []
      /\ w' = record_forward (concat (xs sample) ++ concat (xq sample)) w).
Proof.
  intros Hmetric.
  unfold loss, loss_locals, bind, lift, raise, ret, forward.
  destruct (Nat.eqb_spec (List.length (xq sample)) (List.length (xs sample)))
    as [Heq|Hne]; simpl.
  - destruct (xs sample) as [|gs rest_s] eqn:Hxs.
    + simpl; intros H; injection H as <- <-; right; left; auto.
    + destruct (xq sample) as [|gq rest_q] eqn:Hxq; [discriminate|].
      simpl len_first; cbv iota beta.
      destruct (compute_similarities_known self
                  (skipn (List.length (gs :: rest_s) * List.length gs)
                     (encoder_forward (params w) (training w)
                        (concat (gs :: rest_s) ++ concat (gq :: rest_q))))
                  (firstn (List.length (gs :: rest_s) * List.length gs)
                     (encoder_forward (params w) (training w)
                        (concat (gs :: rest_s) ++ concat (gq :: rest_q))))
                  Hmetric) as (sims & Hsims & _).
      rewrite Hsims.
      destruct (fill_labels _ _ _ _) as [labels|e1] eqn:Hfill;
        [discriminate|].
      intros H; injection H as <- <-.
      right; right.
      split; [eapply fill_labels_raises; exact Hfill|].
      split; [discriminate | reflexivity].
  - intros H; injection H as <- <-; left; auto.
Qed.

(** ** Predictions and targets *)

Lemma argmax_from_lt (l : list F) :
  forall (best_i : nat) (best : F) (i : nat),
    best_i < i -> argmax_from best_i best i l < i + List.length l.
Proof.
  induction l as [|v t IH]; simpl; intros best_i best i Hlt; [lia|].
  destruct (fgtb v best).
  - specialize (IH i v (S i) ltac:(lia)); lia.
  - specialize (IH best_i best (S i) ltac:(lia)); lia.
Qed.

Lemma argmax_lt (row : list F) :
  row <> [] -> argmax row < List.length row.
Proof.
  destruct row as [|v t]; [congruence|]; intros _; simpl.
  pose proof (argmax_from_lt t 0 v 1 ltac:(lia)); lia.
Qed.

(** X4. On a well-formed episode [loss] returns one prediction per query
    sentence, and every prediction is a class index below [N]. *)
Theorem loss_predictions_are_class_indices (self : MatchingNet)
  (sample : Episode) (N K Q : nat) (w : World) :
  well_formed N K Q sample = true ->
  known_metric self = true ->
  length_preserving ->
  exists r w',
    loss self sample w = (Ok r, w')
    /\ List.length (d_y_hat (snd r)) = N * Q
    /\ Forall (fun c => c < N) (d_y_hat (snd r)).
Proof.
  intros Hwf Hmetric Henc.
  destruct (well_formed_parts _ _ _ _ Hwf) as (HN & _).
  destruct (loss_locals_well_formed self sample N K Q w Hwf Hmetric Henc)
    as (l & Hrun & _ & _ & _ & _ & _ & _ & _ & _ & Hslen & Hd & _).
  assert (Hsh : has_shape (N * Q) N (distances_from_query_to_classes l)).
  { rewrite Hd, <- Hslen; apply average_over_support_shape. }
  eexists; eexists; split;
    [unfold loss, bind, ret; rewrite Hrun; reflexivity|].
  simpl; unfold argmax1; split.
  - rewrite length_map; apply Hsh.
  - apply Forall_map.
    destruct Hsh as [_ Hrows].
    eapply Forall_impl; [|exact Hrows].
    intros row Hrow; simpl in Hrow.
    rewrite <- Hrow; apply argmax_lt.
    intros ->; simpl in Hrow; lia.
Qed.

Lemma argmax_from_after_one (c n : nat) :
  fgtb fzero fone = false ->
  forall a best_i,
    c < a ->
    argmax_from best_i fone a
      (map (fun j => if j =? c then fone else fzero) (seq a n)) = best_i.
Proof.
  intros H01; induction n as [|n IH]; simpl; intros a best_i Hc;
    [reflexivity|].
  destruct (Nat.eqb_spec a c); [lia|].
  rewrite H01; apply IH; lia.
Qed.

Lemma argmax_from_before_one (c n : nat) :
  orders_bits ->
  forall a best_i,
    a <= c < a + n ->
    argmax_from best_i fzero a
      (map (fun j => if j =? c then fone else fzero) (seq a n)) = c.
Proof.
  intros (H10 & H00 & H01); induction n as [|n IH]; simpl;
    intros a best_i Hc; [lia|].
  destruct (Nat.eqb_spec a c) as [->|Hne].
  - rewrite H10; apply argmax_from_after_one; [exact H01 | lia].
  - rewrite H00; apply IH; lia.
Qed.

(** The argmax of a row of zeros with a single one is the place of the
    one. *)
Lemma argmax_one_hot (row : list F) (N c : nat) :
  orders_bits ->
  List.length row = N -> c < N ->
  (forall j, j < N -> nth j row fzero = if j =? c then fone else fzero) ->
  argmax row = c.
Proof.
  intros Hbits Hlen Hc Hrow.
  assert (Heq : row = map (fun j => if j =? c then fone else fzero)
                          (seq 0 N)).
  { apply (nth_ext _ _ fzero fzero).
    - rewrite length_map, length_seq; exact Hlen.
    - intros j Hj. rewrite Hlen in Hj.
      rewrite nth_map_seq by exact Hj.
      apply Hrow; exact Hj. }
  rewrite Heq.
  destruct N as [|n]; [lia|]; simpl.
  destruct c as [|c]; simpl.
  - apply argmax_from_after_one; [apply Hbits | lia].
  - apply (argmax_from_before_one (S c) n Hbits 1 0); lia.
Qed.

(** X5. On a well-formed episode, with a comparison that orders zero and
    one as floats do, the class indices [loss] reads back from the target
    matrix are [i / Q] for query row [i]; they are the targets of the
    cross-entropy, and the accuracy is the fraction of query rows whose
    prediction equals [i / Q]. *)
Theorem loss_targets_are_row_div_query (self : MatchingNet)
  (sample : Episode) (N K Q : nat) (w : World) :
  orders_bits ->
  well_formed N K Q sample = true ->
  known_metric self = true ->
  length_preserving ->
  exists l w',
    loss_locals self sample w = (Ok l, w')
    /\ argmax1 (true_labels l) = map (fun i => i / Q) (seq 0 (N * Q))
    /\ loss_val l
       = cross_entropy (distances_from_query_to_classes l)
                       (map (fun i => i / Q) (seq 0 (N * Q)))
    /\ acc_val l
       = mean_bool (eq_tensor (map (fun i => i / Q) (seq 0 (N * Q)))
                      (argmax1 (distances_from_query_to_classes l))).
Proof.
  intros Hbits Hwf Hmetric Henc.
  destruct (well_formed_parts _ _ _ _ Hwf) as (HN & _ & HQ & _).
  destruct (loss_locals_well_formed self sample N K Q w Hwf Hmetric Henc)
    as (l & Hrun & _ & _ & _ & _ & _ & _ & _ & _ & _ & _ & Hsh & Hent
        & Hloss & Hacc).
  assert (Htargets : argmax1 (true_labels l)
                     = map (fun i => i / Q) (seq 0 (N * Q))).
  { apply (nth_ext _ _ 0 0).
    - unfold argmax1; rewrite !length_map, length_seq; apply Hsh.
    - unfold argmax1; rewrite length_map; intros i Hi.
      destruct Hsh as [Hlen Hrows]. rewrite Hlen in Hi.
      rewrite (nth_map_in _ _ _ _ []) by lia.
      rewrite nth_map_seq by exact Hi.
      apply (argmax_one_hot _ N); [exact Hbits | | |].
      + apply (has_shape_row (N * Q) N); [split; assumption | exact Hi].
      + apply Nat.Div0.div_lt_upper_bound; lia.
      + intros j Hj. apply (Hent i j Hi Hj). }
  exists l, (record_forward (x l) w).
  split; [exact Hrun|]; split; [exact Htargets|].
  rewrite Hloss, Hacc, Htargets; split; reflexivity.
Qed.

(** ** Ragged support groups *)

Lemma fill_class_overflow (R C : nat) (g : list string) :
  forall (m : tensor) (c Q s : nat),
    has_shape R C m -> c < C ->
    c * Q + s <= R < c * Q + s + List.length g ->
    fill_class m c Q s g = Raise IndexError.
Proof.
  induction g as [|sentence rest IH]; simpl; intros m c Q s Hsh Hc Hr;
    [lia|].
  destruct (Nat.eq_dec (c * Q + s) R) as [Heq|Hne].
  - unfold setitem2.
    assert (Hnone : nth_error m (c * Q + s) = None).
    { apply nth_error_None; destruct Hsh as [Hlen _]; lia. }
    rewrite Hnone; reflexivity.
  - destruct (setitem2_in_range R C m (c * Q + s) c fone Hsh)
      as (m1 & Hset & Hsh1 & _); try lia.
    rewrite Hset; simpl.
    apply IH; [exact Hsh1 | exact Hc | lia].
Qed.

Lemma fill_labels_overflow (R C Q : nat) (groups : list (list string)) :
  forall (m : tensor) (c0 : nat),
    has_shape R C m ->
    Forall (fun g => List.length g = Q) groups ->
    c0 + List.length groups <= C ->
    c0 * Q <= R < (c0 + List.length groups) * Q ->
    fill_labels m c0 Q groups = Raise IndexError.
Proof.
  induction groups as [|g rest IH]; simpl; intros m c0 Hsh Hall Hcols Hr;
    [lia|].
  inversion Hall as [|? ? Hg Hrest]; subst.
  destruct (Nat.le_gt_cases ((c0 + 1) * List.length g) R) as [Hfit|Hover].
  - destruct (fill_class_in_range R C g m c0 (List.length g) 0 Hsh)
      as (m1 & Hfill & Hsh1 & _); try lia.
    rewrite Hfill; simpl.
    apply IH; [exact Hsh1 | exact Hrest | lia | nia].
  - rewrite (fill_class_overflow R C g m c0 (List.length g) 0 Hsh);
      [reflexivity | lia | nia].
Qed.

(** X6. [loss] never compares the sizes of the support groups.  On an
    episode with [N >= 1] classes and query groups of [Q >= 1] sentences
    each, whatever the sizes of the support groups: when the support
    groups hold at least [N * len(xs[0])] sentences in all, [loss] returns
    normally; when they hold fewer, the label loop runs past the last row
    and [loss] raises IndexError, after the encoder has been called. *)
Theorem loss_with_ragged_support (self : MatchingNet) (sample : Episode)
  (N Q : nat) (w : World) :
  1 <= N -> 1 <= Q ->
  List.length (xs sample) = N -> List.length (xq sample) = N ->
  forallb (fun g => List.length g =? Q) (xq sample) = true ->
  known_metric self = true ->
  length_preserving ->
  (N * List.length (hd [] (xs sample)) <= List.length (concat (xs sample)) ->
   is_ok (fst (loss self sample w)) = true)
  /\ (List.length (concat (xs sample)) < N * List.length (hd [] (xs sample)) ->
      loss self sample w
      = (Raise IndexError,
         record_forward (concat (xs sample) ++ concat (xq sample)) w)).
Proof.
  intros HN HQ Hxs Hxq Hqry Hmetric Henc.
  pose proof (concat_length_uniform _ _ Hqry) as Hcq.
  rewrite Hxq in Hcq.
  set (K0 := List.length (hd [] (xs sample))).
  set (x_ := concat (xs sample) ++ concat (xq sample)).
  set (z_ := encoder_forward (params w) (training w) x_).
  assert (Hz : List.length z_
               = List.length (concat (xs sample)) + N * Q).
  { unfold z_; rewrite Henc; unfold x_; rewrite length_app; lia. }
  destruct (compute_similarities_known self (skipn (N * K0) z_)
              (firstn (N * K0) z_) Hmetric) as (sims & Hsims & Hslen).
  rewrite length_skipn, Hz in Hslen.
  pose proof (average_over_support_shape N K0 sims) as Hshape.
  apply zeros_like_shape in Hshape.
  assert (Hfirst_s : len_first (xs sample) = Ok K0).
  { unfold K0; destruct (xs sample); simpl in *; [lia | reflexivity]. }
  assert (Hfirst_q : len_first (xq sample) = Ok Q).
  { apply len_first_uniform; [lia | exact Hqry]. }
  assert (Hrun : forall r,
             fill_labels (zeros_like (average_over_support N K0 sims)) 0 Q
               (xq sample) = r ->
             loss self sample w
             = (match r with
                | Ok labels =>
                    Ok (cross_entropy (average_over_support N K0 sims)
                          (argmax1 labels),
                        mkLossDict
                          (cross_entropy (average_over_support N K0 sims)
                             (argmax1 labels))
                          (mean_bool
                             (eq_tensor (argmax1 labels)
                                (argmax1 (average_over_support N K0 sims))))
                          (argmax1 (average_over_support N K0 sims)))
                | Raise e => Raise e
                end, record_forward x_ w)).
  { intros r Hr.
    unfold loss, loss_locals, bind, lift, ret, forward.
    rewrite Hxs, Hxq, Nat.eqb_refl; simpl.
    rewrite Hfirst_s, Hfirst_q.
    fold x_; fold z_.
    rewrite Hsims, Hr.
    destruct r; reflexivity. }
  split; intros Hsize.
  - destruct (fill_labels_in_range (List.length sims) N Q (xq sample)
                (zeros_like (average_over_support N K0 sims)) 0 Hshape
                (forallb_length_Forall _ _ Hqry))
      as (labels & Hfill & _); try lia.
    rewrite (Hrun _ Hfill); reflexivity.
  - rewrite (Hrun _ (fill_labels_overflow (List.length sims) N Q (xq sample)
                       (zeros_like (average_over_support N K0 sims)) 0
                       Hshape (forallb_length_Forall _ _ Hqry)
                       ltac:(lia) ltac:(lia))).
    reflexivity.
Qed.

(** ** A single class *)

(** X20. On a well-formed episode with a single class and [Q] query
    sentences, [loss] returns; every target and every prediction is class
    0, so the boolean tensor whose mean is the accuracy holds [Q] entries,
    all of them True. *)
Theorem single_class_predictions_all_match (self : MatchingNet)
  (sample : Episode) (K Q : nat) (w : World) :
  well_formed 1 K Q sample = true ->
  known_metric self = true ->
  length_preserving ->
  exists r w' l,
    loss self sample w = (Ok r, w')
    /\ loss_locals self sample w = (Ok l, w')
    /\ d_y_hat (snd r) = repeat 0 Q
    /\ argmax1 (true_labels l) = repeat 0 Q
    /\ eq_tensor (argmax1 (true_labels l))
                 (argmax1 (distances_from_query_to_classes l))
       = repeat true Q
    /\ d_acc (snd r) = mean_bool (repeat true Q).
Proof.
  intros Hwf Hmetric Henc.
  destruct (loss_locals_well_formed self sample 1 K Q w Hwf Hmetric Henc)
    as (l & Hrun & _ & _ & _ & _ & _ & _ & _ & _ & Hslen & Hd & Hsh & _ & _
        & Hacc).
  rewrite Nat.mul_1_l in *.
  assert (Hdsh : has_shape Q 1 (distances_from_query_to_classes l)).
  { rewrite Hd, <- Hslen; apply average_over_support_shape. }
  pose proof (argmax1_single_column _ _ Hsh) as Htargets.
  pose proof (argmax1_single_column _ _ Hdsh) as Hpredictions.
  assert (Hbits : eq_tensor (argmax1 (true_labels l))
                    (argmax1 (distances_from_query_to_classes l))
                  = repeat true Q).
  { rewrite Htargets, Hpredictions, eq_tensor_refl, repeat_length.
    reflexivity. }
  exists (loss_val l,
          mkLossDict (loss_val l) (acc_val l)
            (argmax1 (distances_from_query_to_classes l))),
    (record_forward (x l) w), l.
  split; [unfold loss, bind, ret; rewrite Hrun; reflexivity|].
  split; [exact Hrun|].
  split; [exact Hpredictions|].
  split; [exact Htargets|].
  split; [exact Hbits|].
  simpl; rewrite Hacc, Hbits; reflexivity.
Qed.

End LossFacts.

Section StepFacts.

Context {E : Externals}.

(** ** train_step *)

(** X7. [train_step] updates the model exactly once and only after a loss
    that returned: when it returns, the episode was drawn, the module is
    in training mode, the encoder was called once on the flattened
    episode, and parameters and optimizer state are those of one backward
    pass and optimizer step on that episode; when it raises, whether in
    the sampler or in [loss], parameters, optimizer state and step count
    are untouched. *)
Theorem train_step_updates_once_or_not_at_all (self : MatchingNet)
  (data_dict : DataDict) (n_sup n_cls n_qry : Z) (w : World) :
  let '(r, w') := train_step self data_dict n_sup n_cls n_qry w in
  match r with
  | Ok _ =>
      exists episode g,
        create_episode (rng w) data_dict n_sup n_cls n_qry = (Ok episode, g)
        /\ (params w', opt_state w')
           = backward_and_step (params w) (opt_state w) episode
        /\ training w' = true
        /\ rng w' = g
        /\ optimizer_steps w' = S (optimizer_steps w)
        /\ forward_calls w'
           = forward_calls w ++ [concat (xs episode) ++ concat (xq episode)]
  | Raise _ =>
      params w' = params w
      /\ opt_state w' = opt_state w
      /\ optimizer_steps w' = optimizer_steps w
  end.
Proof.
  unfold train_step, bind, sample_episode, set_training, modify, ret.
  destruct (create_episode (rng w) data_dict n_sup n_cls n_qry)
    as [[episode|e] g] eqn:Hdraw; [|simpl; auto].
  set (u := mkWorld _ _ true _ _ _).
  pose proof (loss_frame self episode u) as (Hp & Ho & Ht & Hg & Hs).
  unfold loss, bind, ret in *.
  destruct (loss_locals self episode u) as [[l|e] u1] eqn:Hrun;
    simpl in Hp, Ho, Ht, Hg, Hs; [|simpl; auto].
  destruct (loss_locals_inv _ _ _ _ _ Hrun) as (Hu1 & Hx & _).
  unfold optimize, modify; cbv beta.
  rewrite Hp, Ho; simpl.
  destruct (backward_and_step (params w) (opt_state w) episode) as [p o]
    eqn:Hstep.
  exists episode, g; simpl.
  split; [reflexivity|]; split; [rewrite Hstep; reflexivity|].
  split; [exact Ht|]; split; [exact Hg|]; split; [rewrite Hs; reflexivity|].
  rewrite Hu1, Hx; reflexivity.
Qed.

(** ** test_step *)

Lemma loss_well_formed_accuracy (self : MatchingNet) (sample : Episode)
  (N K Q : nat) (w : World) :
  well_formed N K Q sample = true ->
  known_metric self = true ->
  length_preserving ->
  exists r,
    loss self sample w
    = (Ok r, record_forward (concat (xs sample) ++ concat (xq sample)) w)
    /\ unit_ratio (d_acc (snd r)).
Proof.
  intros Hwf Hmetric Henc.
  destruct (well_formed_parts _ _ _ _ Hwf) as (HN & _ & HQ & _).
  destruct (loss_locals_well_formed self sample N K Q w Hwf Hmetric Henc)
    as (l & Hrun & _ & _ & _ & Hx & _ & _ & _ & _ & Hslen & Hd & Hsh & _ & _
        & Hacc).
  eexists; split;
    [unfold loss, bind, ret; rewrite Hrun, Hx; reflexivity|].
  simpl; rewrite Hacc.
  apply mean_bool_range.
  intros Hnil.
  pose proof (eq_tensor_length (argmax1 (true_labels l))
                (argmax1 (distances_from_query_to_classes l))) as Hlen.
  rewrite Hnil in Hlen; simpl in Hlen.
  unfold argmax1 in Hlen; rewrite !length_map in Hlen.
  destruct Hsh as [Hrows _].
  assert (Hdl : List.length (distances_from_query_to_classes l) = N * Q).
  { rewrite Hd; unfold average_over_support, transpose.
    rewrite length_map, length_seq; exact Hslen. }
  rewrite Hrows, Hdl in Hlen.
  specialize (Hlen eq_refl); nia.
Qed.

Lemma Qsum_unit_ratios (qs : list Q) :
  Forall (fun q => (0 <= q <= 1)%Q) qs ->
  (0 <= Qsum qs <= inject_Z (Z.of_nat (List.length qs)))%Q.
Proof.
  induction 1 as [|q qs [Hlo Hhi] _ [IHlo IHhi]]; simpl.
  - split; apply Qle_refl.
  - split.
    + change 0%Q with (0 + 0)%Q. apply Qplus_le_compat; assumption.
    + replace (Z.pos (Pos.of_succ_nat (List.length qs)))
        with (1 + Z.of_nat (List.length qs))%Z by lia.
      rewrite inject_Z_plus.
      apply Qplus_le_compat; assumption.
Qed.

Lemma all_fin_unit_ratios (l : list pyfloat) :
  Forall unit_ratio l ->
  exists qs,
    all_fin l = Some qs
    /\ List.length qs = List.length l
    /\ Forall (fun q => (0 <= q <= 1)%Q) qs.
Proof.
  induction 1 as [|a l (q & -> & Hq) _ (qs & Hqs & Hlen & Hall)]; simpl.
  - exists []; auto.
  - rewrite Hqs.
    exists (q :: qs); simpl; auto.
Qed.

(** The mean of ratios between 0 and 1 is one of them. *)
Lemma py_mean_unit_ratio (l : list pyfloat) :
  l <> [] -> Forall unit_ratio l -> unit_ratio (py_mean l).
Proof.
  intros Hne Hall.
  destruct (all_fin_unit_ratios l Hall) as (qs & Hqs & Hlen & Hrange).
  destruct (Qsum_unit_ratios qs Hrange) as (Hlo & Hhi).
  rewrite Hlen in Hhi.
  destruct l as [|a t]; [congruence|].
  unfold py_mean; rewrite Hqs.
  eexists; split; [reflexivity|].
  set (n := inject_Z (Z.of_nat (List.length (a :: t)))) in *.
  assert (Hpos : (0 < n)%Q).
  { unfold n; rewrite <- (Zlt_Qlt 0); simpl; lia. }
  split.
  - apply Qle_shift_div_l; [exact Hpos|].
    rewrite Qmult_0_l; exact Hlo.
  - apply Qle_shift_div_r; [exact Hpos|].
    rewrite Qmult_1_l; exact Hhi.
Qed.

Lemma test_episodes_well_formed (self : MatchingNet) (data_dict : DataDict)
  (n_sup n_cls n_qry : Z) (n : nat) :
  known_metric self = true ->
  length_preserving ->
  sampler_well_formed data_dict n_sup n_cls n_qry ->
  forall accuracies losses w,
    exists accuracies' losses' w',
      test_episodes self data_dict n_sup n_cls n_qry n accuracies losses w
      = (Ok (accuracies ++ accuracies', losses ++ losses'), w')
      /\ List.length accuracies' = n
      /\ Forall unit_ratio accuracies'
      /\ training w' = training w
      /\ List.length (forward_calls w')
         = List.length (forward_calls w) + n.
Proof.
  intros Hmetric Henc Hsampler.
  induction n as [|n IH]; intros accuracies losses w; simpl.
  - exists [], [], w; unfold ret; rewrite !app_nil_r.
    repeat split; auto.
  - destruct (Hsampler (rng w)) as (episode & g & Hdraw & Hwf).
    unfold bind, sample_episode; rewrite Hdraw.
    set (u := mkWorld _ _ _ g _ _).
    destruct (loss_well_formed_accuracy self episode _ _ _ u
                Hwf Hmetric Henc) as (r & Hrun & Hacc).
    rewrite Hrun.
    destruct (IH (accuracies ++ [d_acc (snd r)])
                 (losses ++ [d_loss (snd r)])
                 (record_forward
                    (concat (xs episode) ++ concat (xq episode)) u))
      as (accs' & losses' & w' & Hrest & Hlen & Hall & Ht & Hf).
    exists (d_acc (snd r) :: accs'), (d_loss (snd r) :: losses'), w'.
    rewrite Hrest, <- !app_assoc; simpl.
    split; [reflexivity|]; split; [lia|]; split; [constructor; assumption|].
    split; [exact Ht|].
    rewrite Hf; simpl; rewrite length_app; simpl; lia.
Qed.

(** X8. With a sampler that delivers well-formed episodes and at least one
    episode asked for, [test_step] returns: it calls the encoder once per
    episode, leaves the module in evaluation mode, and the accuracy it
    reports is a ratio between 0 and 1. *)
Theorem test_step_reports_a_ratio (self : MatchingNet)
  (data_dict : DataDict) (n_sup n_cls n_qry n_episodes : Z) (w : World) :
  known_metric self = true ->
  length_preserving ->
  sampler_well_formed data_dict n_sup n_cls n_qry ->
  (1 <= n_episodes)%Z ->
  exists r w',
    test_step self data_dict n_sup n_cls n_qry n_episodes w = (Ok r, w')
    /\ unit_ratio (r_acc r)
    /\ training w' = false
    /\ List.length (forward_calls w')
       = List.length (forward_calls w) + Z.to_nat n_episodes.
Proof.
  intros Hmetric Henc Hsampler Hn.
  unfold test_step, bind, set_training, modify, ret.
  set (u := mkWorld _ _ false _ _ _).
  destruct (test_episodes_well_formed self data_dict n_sup n_cls n_qry
              (Z.to_nat n_episodes) Hmetric Henc Hsampler [] [] u)
    as (accs & losses & w' & Hrun & Hlen & Hall & Ht & Hf).
  rewrite Hrun; simpl.
  eexists; eexists; split; [reflexivity|]; simpl.
  split; [|split; [exact Ht | exact Hf]].
  apply py_mean_unit_ratio; [|exact Hall].
  intros ->; simpl in Hlen; lia.
Qed.

(** X9. With [n_test_episodes <= 0] an evaluation of the validation set
    draws no episode and calls no encoder; the accuracy it logs is the NaN
    mean of an empty list, which is never an improvement: the best
    accuracy stays and the counter grows by one. *)
Theorem evaluation_without_episodes_counts_as_worse (cfg : Config)
  (net : MatchingNet) (path : option string) (set_data : DataDict)
  (step : nat) (st : LoopState) (w : World) :
  (n_test_episodes cfg <= 0)%Z ->
  truthy_path path = true ->
  exists st' w',
    evaluate_set cfg net Valid path set_data step st w = (Ok st', w')
    /\ n_eval_since_last_best st' = n_eval_since_last_best st + 1
    /\ best_valid_acc st' = best_valid_acc st
    /\ log_valid (log_dict st')
       = option_map (fun l => l ++ [mkLogRecord NaN (np_mean []) step])
                    (log_valid (log_dict st))
    /\ rng w' = rng w
    /\ forward_calls w' = forward_calls w
    /\ training w' = false.
Proof.
  intros Hn Hpath.
  unfold evaluate_set, bind, ret, test_step, bind, set_training, modify, ret.
  rewrite Hpath.
  replace (Z.to_nat (n_test_episodes cfg)) with 0 by lia.
  simpl.
  eexists; eexists; split; [reflexivity|].
  unfold track_best; simpl.
  repeat split; reflexivity.
Qed.

End StepFacts.

Section LoopFacts.

Context {E : Externals}.

(** ** Invariants of the training loop *)

(** An invariant kept by the iterations that do not break holds when the
    range is exhausted, and held before the iteration that broke. *)
Lemma training_loop_invariant (cfg : Config) (net : MatchingNet)
  (train_data_dict valid_data_dict test_data_dict : DataDict)
  (P : nat -> LoopState -> World -> Prop) :
  (forall step st w st' w',
      P step st w ->
      loop_body cfg net train_data_dict valid_data_dict test_data_dict
        step st w = (Ok (st', false), w') ->
      P (S step) st' w') ->
  forall (n a : nat) (st st' : LoopState) (out : Outcome) (w w' : World),
    P a st w ->
    training_loop cfg net train_data_dict valid_data_dict test_data_dict
      (seq a n) st w = (Ok (st', out), w') ->
    match out with
    | StoppedMaxIter => P (a + n) st' w'
    | StoppedEarly s =>
        a <= s < a + n
        /\ exists st0 w0,
             P s st0 w0
             /\ loop_body cfg net train_data_dict valid_data_dict
                  test_data_dict s st0 w0 = (Ok (st', true), w')
    end.
Proof.
  intros Hstep; induction n as [|n IH]; intros a st st' out w w' HP; simpl.
  - unfold ret; intros H; injection H as <- <- <-.
    rewrite Nat.add_0_r; exact HP.
  - unfold bind.
    destruct (loop_body _ _ _ _ _ a st w) as [[[st1 brk]|e] w1] eqn:Hbody;
      [|discriminate].
    simpl; destruct brk.
    + unfold ret; intros H; injection H as <- <- <-.
      split; [lia|]; exists st, w; auto.
    + intros H.
      specialize (IH (S a) st1 st' out w1 w' (Hstep _ _ _ _ _ HP Hbody) H).
      destruct out as [|s].
      * replace (a + S n) with (S a + n) by lia; exact IH.
      * destruct IH as (Hrange & Hlast); split; [lia | exact Hlast].
Qed.

(** The same for an invariant kept by every iteration: it holds after the
    iterations the run went through. *)
Lemma training_loop_invariant_all (cfg : Config) (net : MatchingNet)
  (train_data_dict valid_data_dict test_data_dict : DataDict)
  (P : nat -> LoopState -> World -> Prop) :
  (forall step st w st' brk w',
      P step st w ->
      loop_body cfg net train_data_dict valid_data_dict test_data_dict
        step st w = (Ok (st', brk), w') ->
      P (S step) st' w') ->
  forall (st st' : LoopState) (out : Outcome) (w w' : World),
    P 0 st w ->
    training_loop cfg net train_data_dict valid_data_dict test_data_dict
      (seq 0 (Z.to_nat (max_iter cfg))) st w = (Ok (st', out), w') ->
    P (executed cfg out) st' w'.
Proof.
  intros Hstep st st' out w w' HP Hloop.
  pose proof (training_loop_invariant cfg net train_data_dict
                valid_data_dict test_data_dict P
                (fun step s u s' u' => Hstep step s u s' false u')
                _ _ _ _ _ _ _ HP Hloop) as H.
  destruct out as [|s]; simpl; [exact H|].
  destruct H as (_ & st0 & w0 & HP0 & Hbody).
  exact (Hstep _ _ _ _ _ _ HP0 Hbody).
Qed.

Lemma due_inv (step : nat) (every : Z) (b : bool) :
  due step every = Ok b ->
  every <> 0%Z /\ b = (Z.of_nat (step + 1) mod every =? 0)%Z.
Proof.
  unfold due.
  destruct (Z.eqb_spec every 0); [discriminate|].
  intros H; injection H as <-; auto.
Qed.

Lemma evaluate_set_keeps_train (cfg : Config) (net : MatchingNet)
  (set_type : SetType) (path : option string) (set_data : DataDict)
  (step : nat) (st st' : LoopState) (w w' : World) :
  evaluate_set cfg net set_type path set_data step st w = (Ok st', w') ->
  train_accuracies st' = train_accuracies st
  /\ train_losses st' = train_losses st
  /\ log_train (log_dict st') = log_train (log_dict st).
Proof.
  intros H.
  destruct (evaluate_set_inv _ _ _ _ _ _ _ _ _ _ H)
    as [(_ & -> & _)|(_ & sr & _ & ->)]; [auto|].
  destruct set_type; unfold track_best; simpl;
    try destruct (py_gt _ _); simpl; auto.
Qed.

(** How an evaluation changes the log of its own set and that it leaves
    the other one alone. *)
Lemma evaluate_set_logs (cfg : Config) (net : MatchingNet)
  (set_type : SetType) (path : option string) (set_data : DataDict)
  (step : nat) (st st' : LoopState) (w w' : World) :
  evaluate_set cfg net set_type path set_data step st w = (Ok st', w') ->
  let added := if truthy_path path then [step] else [] in
  match set_type with
  | Valid =>
      logged_steps (log_valid (log_dict st'))
      = logged_steps (log_valid (log_dict st))
        ++ match log_valid (log_dict st) with
           | Some _ => added
           | None => []
           end
      /\ (log_valid (log_dict st) = None <-> log_valid (log_dict st') = None)
      /\ log_test (log_dict st') = log_test (log_dict st)
  | Test =>
      logged_steps (log_test (log_dict st'))
      = logged_steps (log_test (log_dict st))
        ++ match log_test (log_dict st) with
           | Some _ => added
           | None => []
           end
      /\ (log_test (log_dict st) = None <-> log_test (log_dict st') = None)
      /\ log_valid (log_dict st') = log_valid (log_dict st)
  end.
Proof.
  intros H.
  destruct (evaluate_set_inv _ _ _ _ _ _ _ _ _ _ H)
    as [(-> & -> & _)|(-> & sr & _ & ->)]; simpl.
  - destruct set_type;
      [destruct (log_valid (log_dict st)) | destruct (log_test (log_dict st))];
      simpl; rewrite ?app_nil_r; intuition.
  - destruct set_type; unfold track_best; simpl;
      try destruct (py_gt _ _); simpl;
      [destruct (log_valid (log_dict st))
      |destruct (log_valid (log_dict st))
      |destruct (log_test (log_dict st))];
      simpl; rewrite ?map_app, ?app_nil_r; simpl;
      (split; [reflexivity|]; split; [|reflexivity]);
      split; congruence.
Qed.

Lemma filter_seq_snoc (f : nat -> bool) (k : nat) :
  filter f (seq 0 (S k)) = filter f (seq 0 k) ++ (if f k then [k] else []).
Proof.
  rewrite seq_S, filter_app; simpl.
  destruct (f k); reflexivity.
Qed.

Lemma succ_mod (m L : Z) :
  (0 <= m)%Z -> (0 < L)%Z -> ((m + 1) mod L <> 0)%Z ->
  ((m + 1) mod L = m mod L + 1)%Z.
Proof.
  intros Hm HL Hnz.
  pose proof (succ_div m L Hm HL) as Hdiv.
  destruct (Z.eqb_spec ((m + 1) mod L) 0) as [Hz|_]; [contradiction|].
  rewrite (Z.mod_eq (m + 1) L), (Z.mod_eq m L) by lia.
  rewrite Hdiv; lia.
Qed.

(** The train fields after an iteration are those its training part
    left. *)
Lemma loop_body_train_fields (cfg : Config) (net : MatchingNet)
  (train_data_dict valid_data_dict test_data_dict : DataDict)
  (step : nat) (st st' : LoopState) (brk : bool) (w w' : World) :
  loop_body cfg net train_data_dict valid_data_dict test_data_dict step st w
  = (Ok (st', brk), w') ->
  exists d log_now,
    due step (log_every cfg) = Ok log_now
    /\ train_accuracies st'
       = train_accuracies (after_training d log_now step st)
    /\ train_losses st' = train_losses (after_training d log_now step st)
    /\ log_train (log_dict st')
       = log_train (log_dict (after_training d log_now step st)).
Proof.
  intros H.
  destruct (loop_body_inv _ _ _ _ _ _ _ _ _ _ _ H)
    as (r & w1 & log_now & _ & Hdue & Hrest).
  exists (snd r), log_now; split; [exact Hdue|].
  destruct Hrest as [(_ & _ & -> & _)|(_ & _ & _ & st3 & w2 & Hv & Ht)];
    [auto|].
  apply evaluate_set_keeps_train in Hv as (Ha & Hl & Hg).
  apply evaluate_set_keeps_train in Ht as (Ha' & Hl' & Hg').
  repeat split; congruence.
Qed.

Lemma run_matching_train_log (cfg : Config) (st : LoopState)
  (out : Outcome) (w w' : World) :
  run_matching cfg w = (Ok (st, out), w') ->
  optimizer_steps w' = optimizer_steps w + executed cfg out
  /\ map global_step (log_train (log_dict st))
     = log_steps cfg (seq 0 (executed cfg out))
  /\ List.length (train_accuracies st) = List.length (train_losses st)
  /\ ((0 < log_every cfg)%Z ->
      Z.of_nat (List.length (train_accuracies st))
      = (Z.of_nat (executed cfg out) mod log_every cfg)%Z).
Proof.
  intros Hrun.
  destruct (run_matching_inv _ _ _ _ Hrun)
    as (net & vd & ted & w0 & _ & Hs0 & _ & Hloop).
  rewrite <- Hs0.
  apply (training_loop_invariant_all cfg net _ vd ted
           (fun k s u =>
              optimizer_steps u = optimizer_steps w0 + k
              /\ map global_step (log_train (log_dict s))
                 = log_steps cfg (seq 0 k)
              /\ List.length (train_accuracies s)
                 = List.length (train_losses s)
              /\ ((0 < log_every cfg)%Z ->
                  Z.of_nat (List.length (train_accuracies s))
                  = (Z.of_nat k mod log_every cfg)%Z))
           ) with (3 := Hloop).
  - intros step s u s' brk u' (Hsteps & Hlog & Hlen & Hwin) Hbody.
    pose proof (loop_body_steps _ _ _ _ _ _ _ _ _ _ _ Hbody) as Hone.
    destruct (loop_body_train_fields _ _ _ _ _ _ _ _ _ _ _ Hbody)
      as (d & log_now & Hdue & -> & -> & ->).
    apply due_inv in Hdue as (Hnz & ->).
    split; [lia|].
    replace (Z.of_nat (S step)) with (Z.of_nat (step + 1)) by lia.
    unfold log_steps in *; rewrite filter_seq_snoc.
    unfold after_training.
    destruct (Z.eqb_spec (Z.of_nat (step + 1) mod log_every cfg) 0)
      as [Hz|Hn]; simpl.
    + rewrite map_app, Hlog; simpl.
      split; [reflexivity|]; split; [reflexivity|].
      intros _; rewrite Hz; reflexivity.
    + rewrite app_nil_r, !length_app; simpl.
      split; [exact Hlog|]; split; [lia|].
      intros Hpos.
      replace (Z.of_nat (step + 1)) with (Z.of_nat step + 1)%Z in * by lia.
      rewrite succ_mod by lia.
      specialize (Hwin Hpos); lia.
  - simpl; split; [lia|].
    split; [reflexivity|]; split; [reflexivity|].
    intros Hpos; rewrite Z.mod_0_l by lia; reflexivity.
Qed.

(** *** The records of the train log *)

Lemma due_nat (step : nat) (L : Z) :
  (0 < L)%Z ->
  (Z.of_nat (step + 1) mod L =? 0)%Z = ((step + 1) mod Z.to_nat L =? 0).
Proof.
  intros HL.
  rewrite <- (Z2Nat.id L) at 1 by lia.
  rewrite <- Nat2Z.inj_mod.
  destruct (Nat.eqb_spec ((step + 1) mod Z.to_nat L) 0) as [->|Hne];
    [reflexivity|].
  apply Z.eqb_neq; lia.
Qed.

Lemma succ_mod_nat (k L : nat) :
  0 < L ->
  (k + 1) mod L = if k mod L + 1 =? L then 0 else k mod L + 1.
Proof.
  intros HL.
  pose proof (Nat.div_mod_eq k L) as Hk.
  pose proof (Nat.mod_upper_bound k L ltac:(lia)) as Hr.
  destruct (Nat.eqb_spec (k mod L + 1) L) as [Heq|Hne]; symmetry.
  - apply (Nat.mod_unique _ _ (k / L + 1)); [lia | nia].
  - apply (Nat.mod_unique _ _ (k / L)); [lia | nia].
Qed.

(** A step that is logged ends a full window. *)
Lemma logged_step_full (k L : nat) :
  0 < L -> (k + 1) mod L = 0 -> L <= k + 1 /\ k mod L = L - 1.
Proof.
  intros HL Hz.
  pose proof (Nat.mod_upper_bound k L ltac:(lia)) as Hr.
  rewrite succ_mod_nat in Hz by exact HL.
  destruct (Nat.eqb_spec (k mod L + 1) L) as [Heq|Hne]; [|lia].
  pose proof (Nat.Div0.mod_le k L).
  lia.
Qed.

Lemma window_at_app (cfg : Config) (step : nat) (ds rest : list LossDict) :
  Z.to_nat (log_every cfg) <= step + 1 -> step + 1 <= List.length ds ->
  window_at cfg step (ds ++ rest) = window_at cfg step ds.
Proof.
  intros HL Hs; unfold window_at.
  rewrite skipn_app, firstn_app, length_skipn.
  replace (step + 1 - Z.to_nat (log_every cfg) - List.length ds) with 0
    by lia.
  replace (Z.to_nat (log_every cfg)
           - (List.length ds - (step + 1 - Z.to_nat (log_every cfg))))
    with 0 by lia.
  simpl; apply app_nil_r.
Qed.

Lemma window_at_length (cfg : Config) (step : nat) (ds : list LossDict) :
  Z.to_nat (log_every cfg) <= step + 1 -> step + 1 <= List.length ds ->
  List.length (window_at cfg step ds) = Z.to_nat (log_every cfg).
Proof.
  intros HL Hs; unfold window_at.
  rewrite length_firstn, length_skipn; lia.
Qed.

Lemma window_at_last (cfg : Config) (ds : list LossDict) (d : LossDict) :
  (0 < log_every cfg)%Z ->
  (List.length ds + 1) mod Z.to_nat (log_every cfg) = 0 ->
  window_at cfg (List.length ds) (ds ++ [d]) = open_window cfg ds ++ [d].
Proof.
  intros HL Hz.
  assert (Hpos : 0 < Z.to_nat (log_every cfg)) by lia.
  destruct (logged_step_full _ _ Hpos Hz) as (Hle & Hmod).
  unfold window_at, open_window; rewrite Hmod.
  rewrite skipn_app.
  replace (List.length ds + 1 - Z.to_nat (log_every cfg) - List.length ds)
    with 0 by lia.
  replace (List.length ds - (Z.to_nat (log_every cfg) - 1))
    with (List.length ds + 1 - Z.to_nat (log_every cfg)) by lia.
  simpl; apply firstn_all2.
  rewrite length_app, length_skipn; simpl; lia.
Qed.

Lemma open_window_snoc (cfg : Config) (ds : list LossDict) (d : LossDict) :
  (0 < log_every cfg)%Z ->
  open_window cfg (ds ++ [d])
  = if (List.length ds + 1) mod Z.to_nat (log_every cfg) =? 0 then []
    else open_window cfg ds ++ [d].
Proof.
  intros HL; unfold open_window.
  rewrite length_app; simpl.
  destruct (Nat.eqb_spec ((List.length ds + 1) mod Z.to_nat (log_every cfg))
              0) as [Hz|Hnz].
  - rewrite Hz, Nat.sub_0_r.
    apply skipn_all2; rewrite length_app; simpl; lia.
  - pose proof (Nat.Div0.mod_le (List.length ds)
                  (Z.to_nat (log_every cfg))) as Hle.
    rewrite succ_mod_nat in * by lia.
    destruct (Nat.eqb_spec (List.length ds mod Z.to_nat (log_every cfg) + 1)
                (Z.to_nat (log_every cfg))) as [Heq|Hne]; [lia|].
    replace (List.length ds + 1
             - (List.length ds mod Z.to_nat (log_every cfg) + 1))
      with (List.length ds
            - List.length ds mod Z.to_nat (log_every cfg)) by lia.
    rewrite skipn_app.
    replace (List.length ds - List.length ds mod Z.to_nat (log_every cfg)
             - List.length ds) with 0 by lia.
    reflexivity.
Qed.

(** The records of the steps already logged do not change when a further
    step is made. *)
Lemma train_records_snoc (cfg : Config) (ds : list LossDict) (d : LossDict) :
  (0 < log_every cfg)%Z ->
  train_records cfg (ds ++ [d])
  = train_records cfg ds
    ++ (if (List.length ds + 1) mod Z.to_nat (log_every cfg) =? 0
        then [train_record cfg (ds ++ [d]) (List.length ds)] else []).
Proof.
  intros HL; unfold train_records, log_steps.
  rewrite length_app; simpl.
  replace (List.length ds + 1) with (S (List.length ds)) by lia.
  rewrite filter_seq_snoc, map_app.
  f_equal.
  - apply map_ext_in; intros step Hin.
    apply filter_In in Hin as (Hrange & Hdue).
    apply in_seq in Hrange.
    rewrite due_nat in Hdue by exact HL.
    apply Nat.eqb_eq in Hdue.
    assert (Hpos : 0 < Z.to_nat (log_every cfg)) by lia.
    destruct (logged_step_full _ _ Hpos Hdue) as (Hle & _).
    unfold train_record.
    rewrite window_at_app by lia; reflexivity.
  - rewrite due_nat by exact HL.
    replace (S (List.length ds)) with (List.length ds + 1) by lia.
    destruct (_ =? 0); reflexivity.
Qed.

Lemma after_training_agrees (cfg : Config) (ds : list LossDict)
  (d : LossDict) (st : LoopState) :
  (0 < log_every cfg)%Z ->
  train_log_agrees cfg ds st ->
  train_log_agrees cfg (ds ++ [d])
    (after_training d
       (Z.of_nat (List.length ds + 1) mod log_every cfg =? 0)%Z
       (List.length ds) st).
Proof.
  intros HL (Hlog & Haccs & Hlosses).
  unfold train_log_agrees.
  rewrite train_records_snoc, open_window_snoc, due_nat by exact HL.
  unfold after_training.
  destruct (Nat.eqb_spec ((List.length ds + 1) mod Z.to_nat (log_every cfg))
              0) as [Hz|Hnz]; simpl.
  - rewrite Hlog, Haccs, Hlosses.
    unfold train_record.
    rewrite window_at_last, !map_app by assumption.
    repeat split; reflexivity.
  - rewrite Hlog, Haccs, Hlosses, app_nil_r, !map_app.
    repeat split; reflexivity.
Qed.

Lemma loop_body_agrees (cfg : Config) (net : MatchingNet)
  (train_data_dict valid_data_dict test_data_dict : DataDict)
  (ds : list LossDict) (st st' : LoopState) (brk : bool) (w w' : World) :
  (0 < log_every cfg)%Z ->
  train_log_agrees cfg ds st ->
  loop_body cfg net train_data_dict valid_data_dict test_data_dict
    (List.length ds) st w = (Ok (st', brk), w') ->
  exists r w1,
    train_step net train_data_dict (cfg_n_support cfg) (cfg_n_classes cfg)
      (cfg_n_query cfg) w = (Ok r, w1)
    /\ train_log_agrees cfg (ds ++ [snd r]) st'.
Proof.
  intros HL Hagree Hbody.
  destruct (loop_body_inv _ _ _ _ _ _ _ _ _ _ _ Hbody)
    as (r & w1 & log_now & Htrain & Hdue & Hrest).
  exists r, w1; split; [exact Htrain|].
  apply due_inv in Hdue as (_ & ->).
  pose proof (after_training_agrees cfg ds (snd r) st HL Hagree)
    as (Hlog & Haccs & Hlosses).
  destruct Hrest as [(_ & _ & -> & _)|(_ & _ & _ & st3 & w2 & Hv & Ht)].
  - repeat split; assumption.
  - apply evaluate_set_keeps_train in Hv as (Ha & Hl & Hg).
    apply evaluate_set_keeps_train in Ht as (Ha' & Hl' & Hg').
    repeat split; congruence.
Qed.

Lemma training_loop_agrees (cfg : Config) (net : MatchingNet)
  (train_data_dict valid_data_dict test_data_dict : DataDict) :
  (0 < log_every cfg)%Z ->
  forall (n : nat) (hs : list LossDict) (st st' : LoopState) (out : Outcome)
         (w w' : World),
    train_log_agrees cfg hs st ->
    training_loop cfg net train_data_dict valid_data_dict test_data_dict
      (seq (List.length hs) n) st w = (Ok (st', out), w') ->
    let ds := hs ++ train_metrics cfg net train_data_dict valid_data_dict
                      test_data_dict (seq (List.length hs) n) st w in
    train_log_agrees cfg ds st'
    /\ List.length ds = match out with
                        | StoppedMaxIter => List.length hs + n
                        | StoppedEarly s => S s
                        end.
Proof.
  intros HL; induction n as [|n IH]; intros hs st st' out w w' Hagree; simpl.
  - unfold ret; intros H; injection H as <- <- <-.
    rewrite app_nil_r; split; [exact Hagree | lia].
  - unfold bind.
    destruct (loop_body _ _ _ _ _ (List.length hs) st w)
      as [[[st1 brk]|e] w1] eqn:Hbody; [|discriminate].
    destruct (loop_body_agrees _ _ _ _ _ _ _ _ _ _ _ HL Hagree Hbody)
      as (r & u & -> & Hagree1).
    simpl; destruct brk.
    + unfold ret; intros H; injection H as <- <- <-.
      split; [exact Hagree1|].
      rewrite length_app; simpl; lia.
    + intros H.
      assert (Hlen : S (List.length hs) = List.length (hs ++ [snd r]))
        by (rewrite length_app; simpl; lia).
      rewrite Hlen in H |- *.
      specialize (IH _ _ _ _ _ _ Hagree1 H).
      rewrite <- app_assoc in IH; simpl in IH.
      destruct IH as (Hfinal & Hcount); split; [exact Hfinal|].
      rewrite Hcount, <- Hlen; destruct out; lia.
Qed.

Lemma run_matching_before_loop (cfg : Config) (w : World) :
  run_matching cfg w
  = match before_loop cfg w with
    | (Ok (net, train_data_dict, valid_data_dict, test_data_dict), w0) =>
        training_loop cfg net train_data_dict valid_data_dict test_data_dict
          (seq 0 (Z.to_nat (max_iter cfg))) (initial_state cfg) w0
    | (Raise e, w0) => (Raise e, w0)
    end.
Proof.
  unfold run_matching, before_loop, bind, ret.
  destruct (lift (MatchingNet_init (cfg_metric cfg)) w) as [[net|e] w1];
    [|reflexivity].
  destruct (load_data (train_path cfg) w1) as [[td|e] w2]; [|reflexivity].
  destruct (load_split (valid_path cfg) w2) as [[vd|e] w3]; [|reflexivity].
  destruct (load_split (test_path cfg) w3) as [[ted|e] w4]; reflexivity.
Qed.

(** X10. Let [ds] be the metrics [train_step] returned in the [k] iterations
    of a run of [run_matching] that returns, with a positive [log_every].
    The train log holds exactly one record for each step [s < k] with
    [(s + 1) % log_every == 0], in increasing order of step; the record of
    step [s] carries [s] as its global step and the means of the accuracies
    and of the losses of the window of steps ending with [s], and every
    such window holds exactly [log_every] steps.  The two rolling windows
    are left with the metrics of the last [k % log_every] steps. *)
Theorem train_log_averages_full_windows (cfg : Config) (st : LoopState)
  (out : Outcome) (w w' : World) :
  (0 < log_every cfg)%Z ->
  run_matching cfg w = (Ok (st, out), w') ->
  let ds := train_metrics_of_run cfg w in
  List.length ds = executed cfg out
  /\ log_train (log_dict st)
     = map (fun step =>
              mkLogRecord (py_mean (map d_acc (window_at cfg step ds)))
                          (np_mean (map d_loss (window_at cfg step ds)))
                          step)
           (log_steps cfg (seq 0 (executed cfg out)))
  /\ (forall step,
        In step (log_steps cfg (seq 0 (executed cfg out))) ->
        List.length (window_at cfg step ds) = Z.to_nat (log_every cfg))
  /\ train_accuracies st = map d_acc (open_window cfg ds)
  /\ train_losses st = map d_loss (open_window cfg ds)
  /\ List.length (open_window cfg ds)
     = executed cfg out mod Z.to_nat (log_every cfg).
Proof.
  intros HL Hrun ds; subst ds.
  unfold train_metrics_of_run.
  rewrite run_matching_before_loop in Hrun.
  destruct (before_loop cfg w) as [[[[[net td] vd] ted]|e] w0];
    [|discriminate].
  assert (Hinit : train_log_agrees cfg [] (initial_state cfg)).
  { repeat split. }
  destruct (training_loop_agrees cfg net td vd ted HL
              (Z.to_nat (max_iter cfg)) [] _ _ _ _ _ Hinit Hrun)
    as ((Hlog & Haccs & Hlosses) & Hcount).
  simpl in Hlog, Haccs, Hlosses, Hcount.
  set (ds := train_metrics _ _ _ _ _ _ _ _) in *.
  assert (Hlen : List.length ds = executed cfg out)
    by (rewrite Hcount; destruct out; reflexivity).
  split; [exact Hlen|].
  split; [rewrite Hlog; unfold train_records; rewrite Hlen; reflexivity|].
  split.
  - intros step Hin.
    apply filter_In in Hin as (Hrange & Hdue).
    apply in_seq in Hrange.
    rewrite due_nat in Hdue by exact HL.
    apply Nat.eqb_eq in Hdue.
    assert (Hpos : 0 < Z.to_nat (log_every cfg)) by lia.
    destruct (logged_step_full _ _ Hpos Hdue) as (Hle & _).
    apply window_at_length; lia.
  - split; [exact Haccs|]; split; [exact Hlosses|].
    unfold open_window; rewrite length_skipn, Hlen.
    pose proof (Nat.Div0.mod_le (executed cfg out)
                  (Z.to_nat (log_every cfg))).
    lia.
Qed.

Lemma run_matching_held_out_logs (cfg : Config) (st : LoopState)
  (out : Outcome) (w w' : World) :
  run_matching cfg w = (Ok (st, out), w') ->
  (if truthy_path (valid_path cfg)
   then exists l, log_valid (log_dict st) = Some l
                  /\ map global_step l
                     = eval_steps cfg (seq 0 (executed cfg out))
   else log_valid (log_dict st) = None)
  /\ (if truthy_path (test_path cfg)
      then exists l, log_test (log_dict st) = Some l
                     /\ map global_step l
                        = eval_steps cfg (seq 0 (executed cfg out))
      else log_test (log_dict st) = None).
Proof.
  intros Hrun.
  destruct (run_matching_inv _ _ _ _ Hrun)
    as (net & vd & ted & w0 & _ & _ & _ & Hloop).
  apply (training_loop_invariant_all cfg net _ vd ted
           (fun k s (_ : World) =>
              (if truthy_path (valid_path cfg)
               then exists l, log_valid (log_dict s) = Some l
                              /\ map global_step l
                                 = eval_steps cfg (seq 0 k)
               else log_valid (log_dict s) = None)
              /\ (if truthy_path (test_path cfg)
                  then exists l, log_test (log_dict s) = Some l
                                 /\ map global_step l
                                    = eval_steps cfg (seq 0 k)
                  else log_test (log_dict s) = None))
           ) with (3 := Hloop).
  - intros step s u s' brk u' (Hvalid & Htest) Hbody.
    destruct (loop_body_inv _ _ _ _ _ _ _ _ _ _ _ Hbody)
      as (r & w1 & log_now & _ & _ & Hrest).
    destruct (after_training_keeps (snd r) log_now step s)
      as (_ & _ & Hlv & Hlt).
    unfold eval_steps in *; rewrite filter_seq_snoc.
    destruct Hrest as [(_ & _ & -> & Hno)|(Hheld & Hdue & _ & st3 & w2
                                           & Hv & Ht)].
    + rewrite Hlv, Hlt.
      destruct Hno as [Hheld|Hdue].
      * unfold held_out in Hheld; apply orb_false_iff in Hheld as [Hv0 Ht0].
        rewrite Hv0 in *; rewrite Ht0 in *; auto.
      * apply due_inv in Hdue as (_ & <-); rewrite app_nil_r; auto.
    + apply due_inv in Hdue as (_ & <-).
      apply evaluate_set_logs in Hv, Ht; simpl in Hv, Ht.
      destruct Hv as (Hv1 & Hv2 & Hv3), Ht as (Ht1 & Ht2 & Ht3).
      rewrite Hlv in Hv1, Hv2; rewrite Hlt in Hv3.
      rewrite Hv3 in Ht1, Ht2. rewrite <- Ht3 in Hv1, Hv2.
      unfold logged_steps in Hv1, Ht1.
      split.
      * destruct (truthy_path (valid_path cfg)).
        -- destruct Hvalid as (l & Hl & Hsteps).
           rewrite Hl in Hv1, Hv2.
           destruct (log_valid (log_dict s')) as [l'|];
             [|exfalso; destruct Hv2 as [_ Hv2]; discriminate (Hv2 eq_refl)].
           exists l'; split; [reflexivity|].
           rewrite Hv1, Hsteps; reflexivity.
        -- apply Hv2; exact Hvalid.
      * destruct (truthy_path (test_path cfg)).
        -- destruct Htest as (l & Hl & Hsteps).
           rewrite Hl in Ht1, Ht2.
           destruct (log_test (log_dict s')) as [l'|];
             [|exfalso; destruct Ht2 as [_ Ht2]; discriminate (Ht2 eq_refl)].
           exists l'; split; [reflexivity|].
           rewrite Ht1, Hsteps; reflexivity.
        -- apply Ht2; exact Htest.
  - unfold initial_state; simpl.
    destruct (truthy_path (valid_path cfg)), (truthy_path (test_path cfg));
      split; try reflexivity; exists []; auto.
Qed.

(** X11. When [run_matching] returns after [k] iterations, the log of each
    configured held-out set holds one record for each of the first [k]
    steps [s] with [(s + 1) % evaluate_every == 0], in increasing order of
    step, so the validation and the test log cover the same steps; a set
    that is not configured has no entry in the log. *)
Theorem held_out_log_steps (cfg : Config) (st : LoopState)
  (out : Outcome) (w w' : World) :
  run_matching cfg w = (Ok (st, out), w') ->
  (if truthy_path (valid_path cfg)
   then exists l, log_valid (log_dict st) = Some l
                  /\ map global_step l
                     = eval_steps cfg (seq 0 (executed cfg out))
   else log_valid (log_dict st) = None)
  /\ (if truthy_path (test_path cfg)
      then exists l, log_test (log_dict st) = Some l
                     /\ map global_step l
                        = eval_steps cfg (seq 0 (executed cfg out))
      else log_test (log_dict st) = None).
Proof.
  exact (run_matching_held_out_logs cfg st out w w').
Qed.

(** ** Early stopping at the edges *)

Lemma loop_body_without_validation (cfg : Config) (net : MatchingNet)
  (train_data_dict valid_data_dict test_data_dict : DataDict)
  (step : nat) (st st' : LoopState) (brk : bool) (w w' : World) :
  truthy_path (valid_path cfg) = false ->
  loop_body cfg net train_data_dict valid_data_dict test_data_dict step st w
  = (Ok (st', brk), w') ->
  n_eval_since_last_best st' = n_eval_since_last_best st
  /\ best_valid_acc st' = best_valid_acc st
  /\ (brk = true ->
      early_stop_reached (early_stop cfg) (n_eval_since_last_best st)
      = true).
Proof.
  intros Hvalid H.
  destruct (loop_body_inv _ _ _ _ _ _ _ _ _ _ _ H)
    as (r & w1 & log_now & _ & _ & Hrest).
  destruct (after_training_keeps (snd r) log_now step st)
    as (Hc & Hb & _).
  destruct Hrest as [(-> & _ & -> & _)|(_ & _ & Hbrk & st3 & w2 & Hv & Ht)].
  - split; [exact Hc|]; split; [exact Hb | discriminate].
  - destruct (evaluate_set_inv _ _ _ _ _ _ _ _ _ _ Hv)
      as [(_ & -> & _)|(Htrue & _)]; [|congruence].
    apply evaluate_test_keeps in Ht as (Hc' & Hb' & _).
    split; [congruence|]; split; [congruence|].
    intros ->; rewrite Hbrk; congruence.
Qed.

(** X12. Without a validation set the counter and the best accuracy never
    move, so for a non-negative [early_stop] a run that returns always
    went through the whole range: a test set alone never stops the
    training early. *)
Theorem no_validation_set_no_early_stop (cfg : Config) (st : LoopState)
  (out : Outcome) (w w' : World) :
  truthy_path (valid_path cfg) = false ->
  (forall es, early_stop cfg = Some es -> (0 <= es)%Z) ->
  run_matching cfg w = (Ok (st, out), w') ->
  out = StoppedMaxIter
  /\ n_eval_since_last_best st = 0
  /\ best_valid_acc st = Fin 0.
Proof.
  intros Hvalid Hnonneg Hrun.
  destruct (run_matching_inv _ _ _ _ Hrun)
    as (net & vd & ted & w0 & _ & _ & _ & Hloop).
  pose proof (training_loop_invariant cfg net
                (fst (load_labels_dict (rng w) (train_path cfg))) vd ted
                (fun _ s (_ : World) =>
                   n_eval_since_last_best s = 0
                   /\ best_valid_acc s = Fin 0)) as Hinv.
  assert (Hstep : forall step s u s' u',
             n_eval_since_last_best s = 0 /\ best_valid_acc s = Fin 0 ->
             loop_body cfg net
               (fst (load_labels_dict (rng w) (train_path cfg))) vd ted
               step s u = (Ok (s', false), u') ->
             n_eval_since_last_best s' = 0 /\ best_valid_acc s' = Fin 0).
  { intros step s u s' u' (Hc & Hb) Hbody.
    destruct (loop_body_without_validation _ _ _ _ _ _ _ _ _ _ _
                Hvalid Hbody) as (Hc' & Hb' & _).
    split; congruence. }
  specialize (Hinv Hstep (Z.to_nat (max_iter cfg)) 0 (initial_state cfg) st
                   out w0 w' (conj eq_refl eq_refl) Hloop).
  destruct out as [|s]; [destruct Hinv; auto|].
  exfalso.
  destruct Hinv as (_ & st0 & u0 & (Hc0 & _) & Hbody).
  destruct (loop_body_without_validation _ _ _ _ _ _ _ _ _ _ _ Hvalid Hbody)
    as (_ & _ & Hbrk).
  specialize (Hbrk eq_refl).
  rewrite Hc0 in Hbrk; unfold early_stop_reached in Hbrk.
  destruct (early_stop cfg) as [es|] eqn:Hes; [|discriminate].
  specialize (Hnonneg es eq_refl).
  apply andb_prop in Hbrk as [Hnz Hle].
  apply negb_true_iff, Z.eqb_neq in Hnz.
  apply Z.leb_le in Hle; simpl in Hle; lia.
Qed.

(** X13. A negative [early_stop] is true as a Python value and is never
    above the counter: with a held-out set configured, a run that returns
    broke at the first step whose evaluation was due, whatever the
    accuracies; it went through the whole range only when no evaluation
    was due in it. *)
Theorem negative_early_stop_breaks_at_first_evaluation (cfg : Config)
  (st : LoopState) (out : Outcome) (w w' : World) (es : Z) :
  early_stop cfg = Some es -> (es < 0)%Z ->
  held_out cfg = true ->
  run_matching cfg w = (Ok (st, out), w') ->
  match out with
  | StoppedEarly s =>
      due s (evaluate_every cfg) = Ok true
      /\ forall t, t < s -> due t (evaluate_every cfg) = Ok false
  | StoppedMaxIter =>
      forall t, t < Z.to_nat (max_iter cfg) ->
                due t (evaluate_every cfg) = Ok false
  end.
Proof.
  intros Hes Hneg Hheld Hrun.
  destruct (run_matching_inv _ _ _ _ Hrun)
    as (net & vd & ted & w0 & _ & _ & _ & Hloop).
  pose proof (training_loop_invariant cfg net
                (fst (load_labels_dict (rng w) (train_path cfg))) vd ted
                (fun k (_ : LoopState) (_ : World) =>
                   forall t, t < k ->
                             due t (evaluate_every cfg) = Ok false)) as Hinv.
  assert (Hstep : forall step s u s' u',
             (forall t, t < step ->
                        due t (evaluate_every cfg) = Ok false) ->
             loop_body cfg net
               (fst (load_labels_dict (rng w) (train_path cfg))) vd ted
               step s u = (Ok (s', false), u') ->
             forall t, t < S step ->
                       due t (evaluate_every cfg) = Ok false).
  { intros step s u s' u' HP Hbody t Ht.
    destruct (Nat.eq_dec t step) as [->|Hne]; [|apply HP; lia].
    destruct (loop_body_inv _ _ _ _ _ _ _ _ _ _ _ Hbody)
      as (r & w1 & log_now & _ & _ & Hrest).
    destruct Hrest as [(_ & _ & _ & [Hno|Hdue])|(_ & _ & Hbrk & _)].
    - congruence.
    - exact Hdue.
    - unfold early_stop_reached in Hbrk; rewrite Hes in Hbrk.
      symmetry in Hbrk; apply andb_false_iff in Hbrk as [Hb|Hb].
      + apply negb_false_iff, Z.eqb_eq in Hb; lia.
      + apply Z.leb_gt in Hb; lia. }
  assert (Hzero : forall t, t < 0 ->
                            due t (evaluate_every cfg) = Ok false)
    by (intros t Ht; lia).
  specialize (Hinv Hstep (Z.to_nat (max_iter cfg)) 0 (initial_state cfg) st
                   out w0 w' Hzero Hloop).
  destruct out as [|s0]; [exact Hinv|].
  destruct Hinv as (_ & st0 & u0 & HP & Hbody).
  split; [|exact HP].
  destruct (loop_body_inv _ _ _ _ _ _ _ _ _ _ _ Hbody)
    as (r & w1 & log_now & _ & _ & Hrest).
  destruct Hrest as [(Hf & _)|(_ & Hdue & _)]; [discriminate | exact Hdue].
Qed.

(** ** The best accuracy is a maximum *)

Lemma running_best_upper (accs : list pyfloat) (q : Q) :
  In (Fin q) accs ->
  exists b, running_best accs = Fin b /\ (q <= b)%Q.
Proof.
  induction accs as [|a accs IH] using rev_ind; [intros []|].
  intros Hin; apply in_app_or in Hin.
  destruct (running_best_nonneg accs) as (b0 & Hb0 & _).
  rewrite running_best_snoc, Hb0.
  destruct a as [qa|]; simpl.
  - destruct (Qle_bool qa b0) eqn:Hle; simpl.
    + exists b0; split; [reflexivity|].
      destruct Hin as [Hin|[Heq|[]]].
      * destruct (IH Hin) as (b & Hb & Hq); congruence.
      * injection Heq as <-; apply Qle_bool_iff; exact Hle.
    + exists qa; split; [reflexivity|].
      assert (Hlt : (b0 < qa)%Q).
      { apply Qnot_le_lt; intros H; apply Qle_bool_iff in H; congruence. }
      destruct Hin as [Hin|[Heq|[]]].
      * destruct (IH Hin) as (b & Hb & Hq).
        assert (b = b0) by congruence; subst b.
        apply Qlt_le_weak, Qle_lt_trans with (y := b0); assumption.
      * injection Heq as <-; apply Qle_refl.
  - exists b0; split; [reflexivity|].
    destruct Hin as [Hin|[Heq|[]]]; [|discriminate].
    destruct (IH Hin) as (b & Hb & Hq); congruence.
Qed.

Lemma running_best_attained (accs : list pyfloat) :
  running_best accs = Fin 0 \/ In (running_best accs) accs.
Proof.
  induction accs as [|a accs IH] using rev_ind; [left; reflexivity|].
  rewrite running_best_snoc.
  destruct (py_gt a (running_best accs)).
  - right; apply in_or_app; right; left; reflexivity.
  - destruct IH as [H0|Hin]; [left; exact H0|].
    right; apply in_or_app; left; exact Hin.
Qed.

(** X14. When [run_matching] returns, the best validation accuracy is the
    maximum of 0.0 and the logged validation accuracies: it is a
    non-negative number, no logged accuracy exceeds it, and it is 0.0 or
    one of the logged accuracies. *)
Theorem best_accuracy_is_the_maximum (cfg : Config) (st : LoopState)
  (out : Outcome) (w w' : World) :
  run_matching cfg w = (Ok (st, out), w') ->
  exists b,
    best_valid_acc st = Fin b
    /\ (0 <= b)%Q
    /\ (forall q, In (Fin q) (valid_accs st) -> (q <= b)%Q)
    /\ (best_valid_acc st = Fin 0
        \/ In (best_valid_acc st) (valid_accs st)).
Proof.
  intros Hrun.
  destruct (run_matching_inv _ _ _ _ Hrun)
    as (net & vd & ted & w0 & _ & _ & _ & Hloop).
  destruct (training_loop_tracks _ _ _ _ _ _ _ _ _ _ _
              (initial_state_tracks cfg) Hloop) as (_ & _ & Hbest).
  destruct (running_best_nonneg (valid_accs st)) as (b & Hb & Hpos).
  exists b; rewrite Hbest.
  split; [exact Hb|]; split; [exact Hpos|]; split.
  - intros q Hq.
    destruct (running_best_upper _ _ Hq) as (b' & Hb' & Hle).
    assert (b' = b) by congruence; subst b'; exact Hle.
  - apply running_best_attained.
Qed.

(** ** Runs that return and runs that raise *)

(** [run_matching] with an accepted metric is the loop, started after the
    splits were loaded. *)
Lemma run_matching_unfold (cfg : Config) (w : World) :
  known_metric (mkMatchingNet (cfg_metric cfg)) = true ->
  exists valid_data_dict test_data_dict w0,
    run_matching cfg w
    = training_loop cfg (mkMatchingNet (cfg_metric cfg))
        (fst (load_labels_dict (rng w) (train_path cfg)))
        valid_data_dict test_data_dict
        (seq 0 (Z.to_nat (max_iter cfg))) (initial_state cfg) w0
    /\ optimizer_steps w0 = optimizer_steps w
    /\ forward_calls w0 = forward_calls w
    /\ (truthy_path (valid_path cfg) = true ->
        exists g p, valid_path cfg = Some p
                    /\ valid_data_dict = fst (load_labels_dict g p))
    /\ (truthy_path (test_path cfg) = true ->
        exists g p, test_path cfg = Some p
                    /\ test_data_dict = fst (load_labels_dict g p)).
Proof.
  intros Hmetric.
  unfold run_matching, bind, lift, MatchingNet_init.
  unfold known_metric in Hmetric; simpl in Hmetric; rewrite Hmetric.
  unfold load_data at 1.
  destruct (load_labels_dict (rng w) (train_path cfg)) as [td g1]; simpl.
  set (w1 := mkWorld _ _ _ g1 _ _).
  assert (Hload : forall path u,
             exists d u',
               load_split path u = (Ok d, u')
               /\ optimizer_steps u' = optimizer_steps u
               /\ forward_calls u' = forward_calls u
               /\ (truthy_path path = true ->
                   exists g p, path = Some p
                               /\ d = fst (load_labels_dict g p))).
  { intros path u; unfold load_split, load_data, ret.
    destruct path as [p|]; [|exists [], u; repeat split; discriminate].
    destruct (truthy_path (Some p));
      [|exists [], u; repeat split; discriminate].
    destruct (load_labels_dict (rng u) p) as [d g] eqn:Hd.
    eexists; eexists; repeat split.
    intros _; exists (rng u), p; rewrite Hd; auto. }
  destruct (Hload (valid_path cfg) w1) as (vd & w2 & -> & Hs2 & Hf2 & Hv).
  destruct (Hload (test_path cfg) w2) as (ted & w3 & -> & Hs3 & Hf3 & Ht).
  exists vd, ted, w3.
  split; [reflexivity|].
  split; [rewrite Hs3, Hs2; reflexivity|].
  split; [rewrite Hf3, Hf2; reflexivity|].
  split; assumption.
Qed.

Lemma evaluate_set_returns (cfg : Config) (net : MatchingNet)
  (set_type : SetType) (path : option string) (set_data : DataDict)
  (step : nat) (st : LoopState) (w : World) :
  known_metric net = true ->
  length_preserving ->
  (truthy_path path = true ->
   sampler_well_formed set_data (cfg_n_support cfg) (cfg_n_classes cfg)
     (cfg_n_query cfg)) ->
  exists st' w',
    evaluate_set cfg net set_type path set_data step st w = (Ok st', w').
Proof.
  intros Hmetric Henc Hsampler.
  unfold evaluate_set, bind, ret.
  destruct (truthy_path path); [|eauto].
  unfold test_step, bind, set_training, modify, ret.
  set (u := mkWorld _ _ false _ _ _).
  destruct (test_episodes_well_formed net set_data _ _ _
              (Z.to_nat (n_test_episodes cfg)) Hmetric Henc
              (Hsampler eq_refl) [] [] u)
    as (accs & losses & w' & Hrun & _).
  rewrite Hrun; simpl.
  destruct set_type; eauto.
Qed.

Lemma loop_body_returns (cfg : Config) (net : MatchingNet)
  (train_data_dict valid_data_dict test_data_dict : DataDict)
  (step : nat) (st : LoopState) (w : World) :
  known_metric net = true ->
  length_preserving ->
  log_every cfg <> 0%Z ->
  (held_out cfg = true -> evaluate_every cfg <> 0%Z) ->
  sampler_well_formed train_data_dict (cfg_n_support cfg)
    (cfg_n_classes cfg) (cfg_n_query cfg) ->
  (truthy_path (valid_path cfg) = true ->
   sampler_well_formed valid_data_dict (cfg_n_support cfg)
     (cfg_n_classes cfg) (cfg_n_query cfg)) ->
  (truthy_path (test_path cfg) = true ->
   sampler_well_formed test_data_dict (cfg_n_support cfg)
     (cfg_n_classes cfg) (cfg_n_query cfg)) ->
  exists st' brk w',
    loop_body cfg net train_data_dict valid_data_dict test_data_dict
      step st w = (Ok (st', brk), w').
Proof.
  intros Hmetric Henc Hlog Heval Htrain Hvalid Htest.
  destruct (train_step_well_formed net train_data_dict _ _ _ w
              Hmetric Henc Htrain) as (r & w1 & Hstep & _).
  unfold loop_body, bind, lift, due, ret.
  rewrite Hstep.
  apply Z.eqb_neq in Hlog; rewrite Hlog.
  destruct (held_out cfg); [|eauto].
  specialize (Heval eq_refl); apply Z.eqb_neq in Heval; rewrite Heval.
  destruct (Z.of_nat (step + 1) mod evaluate_every cfg =? 0)%Z; [|eauto].
  set (st2 := after_training _ _ _ _).
  destruct (evaluate_set_returns cfg net Valid (valid_path cfg)
              valid_data_dict step st2 w1 Hmetric Henc Hvalid)
    as (st3 & w2 & ->).
  destruct (evaluate_set_returns cfg net Test (test_path cfg)
              test_data_dict step st3 w2 Hmetric Henc Htest)
    as (st4 & w3 & ->).
  eauto.
Qed.

(** X15. Once the model is built and the splits are loaded, the training
    loop of [run_matching] (lines 212-291) raises nothing.  With an accepted
    metric, an encoder that returns one row per item, non-zero cadences and
    a sampler that delivers well-formed episodes from every configured
    split, the loop returns from any state and over any range of steps: it
    exhausts the range, or it breaks at one of its steps.  What
    [run_matching] does before the loop is not covered. *)
Theorem training_loop_never_raises (cfg : Config) (net : MatchingNet)
  (train_data_dict valid_data_dict test_data_dict : DataDict)
  (steps : list nat) (st : LoopState) (w : World) :
  known_metric net = true ->
  length_preserving ->
  log_every cfg <> 0%Z ->
  (held_out cfg = true -> evaluate_every cfg <> 0%Z) ->
  sampler_well_formed train_data_dict (cfg_n_support cfg)
    (cfg_n_classes cfg) (cfg_n_query cfg) ->
  (truthy_path (valid_path cfg) = true ->
   sampler_well_formed valid_data_dict (cfg_n_support cfg)
     (cfg_n_classes cfg) (cfg_n_query cfg)) ->
  (truthy_path (test_path cfg) = true ->
   sampler_well_formed test_data_dict (cfg_n_support cfg)
     (cfg_n_classes cfg) (cfg_n_query cfg)) ->
  exists st' out w',
    training_loop cfg net train_data_dict valid_data_dict test_data_dict
      steps st w = (Ok (st', out), w')
    /\ (out = StoppedMaxIter
        \/ exists step, out = StoppedEarly step /\ In step steps).
Proof.
  intros Hmetric Henc Hlog Heval Htrain Hvalid Htest.
  revert st w; induction steps as [|step rest IH]; intros st w; simpl.
  - unfold ret; eauto 6.
  - unfold bind.
    destruct (loop_body_returns cfg net train_data_dict valid_data_dict
                test_data_dict step st w Hmetric Henc Hlog Heval Htrain
                Hvalid Htest) as (st1 & brk & w1 & ->); simpl.
    destruct brk.
    + unfold ret; exists st1, (StoppedEarly step), w1.
      split; [reflexivity|]; right; exists step; auto.
    + destruct (IH st1 w1) as (st' & out & w' & -> & Hout).
      exists st', out, w'; split; [reflexivity|].
      destruct Hout as [->|(s & -> & Hin)]; [left; reflexivity|].
      right; exists s; auto.
Qed.

(** X16. A zero cadence is found out only inside the loop: with
    [log_every = 0], or with a held-out set and [evaluate_every = 0], a
    run of at least one iteration raises ZeroDivisionError after the
    first training step has updated the model. *)
Theorem zero_cadence_raises_after_first_step (cfg : Config) (w : World) :
  known_metric (mkMatchingNet (cfg_metric cfg)) = true ->
  length_preserving ->
  split_well_formed cfg (train_path cfg) ->
  (1 <= max_iter cfg)%Z ->
  log_every cfg = 0%Z
  \/ (held_out cfg = true /\ evaluate_every cfg = 0%Z) ->
  exists w',
    run_matching cfg w = (Raise ZeroDivisionError, w')
    /\ optimizer_steps w' = S (optimizer_steps w)
    /\ List.length (forward_calls w') = S (List.length (forward_calls w)).
Proof.
  intros Hmetric Henc Htrain Hiter Hzero.
  destruct (run_matching_unfold cfg w Hmetric)
    as (vd & ted & w0 & -> & Hs0 & Hf0 & _).
  destruct (Z.to_nat (max_iter cfg)) as [|n] eqn:Hn; [lia|].
  simpl.
  destruct (train_step_well_formed (mkMatchingNet (cfg_metric cfg))
              (fst (load_labels_dict (rng w) (train_path cfg))) _ _ _ w0
              Hmetric Henc (Htrain (rng w)))
    as (r & w1 & Hstep & Hs1 & Hf1).
  unfold bind at 1; unfold loop_body, bind, lift, due, ret.
  rewrite Hstep.
  exists w1.
  split; [|split; congruence].
  destruct (Z.eqb_spec (log_every cfg) 0) as [_|Hlog]; [reflexivity|].
  destruct Hzero as [Hl|(Hheld & He)]; [contradiction|].
  rewrite Hheld, He; reflexivity.
Qed.

(** ** The earliest early stop *)

Lemma evals_since_improvement_le (accs : list pyfloat) :
  evals_since_improvement accs <= List.length accs.
Proof.
  unfold evals_since_improvement.
  destruct (find _ _); lia.
Qed.

Lemma eval_steps_count (cfg : Config) (n : nat) :
  (0 < evaluate_every cfg)%Z ->
  List.length (eval_steps cfg (seq 0 n))
  = Z.to_nat (Z.of_nat n / evaluate_every cfg).
Proof.
  intros HL; unfold eval_steps.
  induction n as [|n IH]; [reflexivity|].
  rewrite filter_seq_snoc, length_app, IH.
  replace (Z.of_nat (S n)) with (Z.of_nat n + 1)%Z by lia.
  replace (Z.of_nat (n + 1)) with (Z.of_nat n + 1)%Z by lia.
  rewrite succ_div by lia.
  pose proof (Z.div_pos (Z.of_nat n) (evaluate_every cfg) ltac:(lia) HL).
  destruct ((Z.of_nat n + 1) mod evaluate_every cfg =? 0)%Z; simpl; lia.
Qed.

(** X18. Early stopping needs [early_stop] validation evaluations: with a
    non-negative threshold and a positive [evaluate_every], a run that
    stopped early at step [s] has gone through at least
    [early_stop * evaluate_every] iterations. *)
Theorem early_stop_not_before_enough_evaluations (cfg : Config)
  (st : LoopState) (s : nat) (w w' : World) (es : Z) :
  early_stop cfg = Some es -> (0 <= es)%Z ->
  (0 < evaluate_every cfg)%Z ->
  run_matching cfg w = (Ok (st, StoppedEarly s), w') ->
  (es * evaluate_every cfg <= Z.of_nat s + 1)%Z.
Proof.
  intros Hes Hnonneg Hevery Hrun.
  pose proof (run_matching_held_out_logs cfg st _ w w' Hrun) as (Hlog & _).
  destruct (run_matching_inv _ _ _ _ Hrun)
    as (net & vd & ted & w0 & _ & _ & _ & Hloop).
  destruct (training_loop_tracks _ _ _ _ _ _ _ _ _ _ _
              (initial_state_tracks cfg) Hloop) as (_ & Hcount & _).
  assert (Hinit : below_threshold cfg (initial_state cfg)).
  { intros es' Hes' Hnz; simpl.
    assert (es' = es) by congruence; subst es'; lia. }
  pose proof (training_loop_early_stop _ _ _ _ _ _ _ _ _ _ _ _ Hinit Hloop)
    as (_ & _ & _ & _ & (es' & Hes' & Hnz & Hc) & _).
  assert (es' = es) by congruence; subst es'.
  pose proof (evals_since_improvement_le (valid_accs st)) as Hle.
  rewrite <- Hcount in Hle.
  assert (Hlen : List.length (valid_accs st)
                 = Z.to_nat (Z.of_nat (S s) / evaluate_every cfg)).
  { unfold valid_accs.
    destruct (truthy_path (valid_path cfg)).
    - destruct Hlog as (l & -> & Hsteps).
      rewrite length_map, <- (length_map global_step), Hsteps.
      apply eval_steps_count; exact Hevery.
    - rewrite Hlog in *. unfold valid_accs in Hle; rewrite Hlog in Hle.
      simpl in Hle; lia. }
  pose proof (Z.mul_div_le (Z.of_nat (S s)) (evaluate_every cfg) Hevery).
  pose proof (Z.div_pos (Z.of_nat (S s)) (evaluate_every cfg)
                ltac:(lia) Hevery).
  nia.
Qed.

End LoopFacts.

Section MainFacts.

Context {E : Externals}.

Variable set_seeds : Z -> Rng.
Variable path_exists : string -> bool.

(** ** main *)

(** X17. [main] does not pass [--log-every] on: whatever its value, zero
    included, a run started from the command line without held-out sets
    goes through all [max_iter] steps and writes a train record every 10
    steps, [max_iter / 10] in all. *)
Theorem main_ignores_log_every (args : Args) (w : World) :
  missing path_exists (Some (arg_train_path args)) = false ->
  truthy_path (arg_valid_path args) = false ->
  truthy_path (arg_test_path args) = false ->
  known_metric (mkMatchingNet (arg_metric args)) = true ->
  length_preserving ->
  split_well_formed (run_matching_arguments args) (arg_train_path args) ->
  exists st w',
    main set_seeds path_exists args w
    = (Finished (Ok (st, StoppedMaxIter)), w')
    /\ optimizer_steps w'
       = optimizer_steps w + Z.to_nat (arg_max_iter args)
    /\ List.length (log_train (log_dict st))
       = Z.to_nat (arg_max_iter args / 10)
    /\ map global_step (log_train (log_dict st))
       = filter (fun step => (Z.of_nat (step + 1) mod 10 =? 0)%Z)
                (seq 0 (Z.to_nat (arg_max_iter args))).
Proof.
  intros Htrain Hvalid Htest Hmetric Henc Hsampler.
  set (cfg := run_matching_arguments args).
  set (w0 := set_rng (set_seeds (arg_seed args)) w).
  assert (Hnone : first_missing path_exists
                    [Some (arg_train_path args); arg_valid_path args;
                     arg_test_path args] = None).
  { unfold first_missing; cbn [find].
    rewrite Htrain.
    assert (Hm : forall p, truthy_path p = false ->
                           missing path_exists p = false).
    { intros [p|] Hp; simpl in *; [|reflexivity].
      apply negb_false_iff in Hp; rewrite Hp; reflexivity. }
    rewrite (Hm _ Hvalid), (Hm _ Htest); reflexivity. }
  assert (Hheld : held_out cfg = false).
  { unfold held_out, cfg; simpl; rewrite Hvalid, Htest; reflexivity. }
  destruct (run_matching_unfold cfg w0 Hmetric)
    as (vd & ted & u0 & Hrun & Hs0 & _).
  destruct (training_loop_without_held_out cfg
              (mkMatchingNet (cfg_metric cfg))
              (fst (load_labels_dict (rng w0) (train_path cfg))) vd ted
              (Z.to_nat (max_iter cfg)) Hheld ltac:(simpl; lia) Hmetric Henc
              (Hsampler (rng w0)) 0 (initial_state cfg) u0)
    as (st & w' & Hloop & Hs & _ & Hlen & _).
  rewrite <- Hrun in Hloop.
  destruct (run_matching_train_log cfg st StoppedMaxIter w0 w' Hloop)
    as (_ & Hsteps & _).
  exists st, w'.
  unfold main; fold w0; rewrite Hnone.
  fold cfg; rewrite Hloop.
  split; [reflexivity|].
  split; [rewrite Hs, Hs0; reflexivity|].
  split; [|exact Hsteps].
  rewrite Hlen, log_steps_count by (simpl; lia); simpl.
  destruct (Z.le_gt_cases 0 (arg_max_iter args)) as [Hpos|Hneg].
  - rewrite Z2Nat.id by exact Hpos; reflexivity.
  - pose proof (Z.div_lt_upper_bound (arg_max_iter args) 10 0
                  ltac:(lia) ltac:(lia)).
    replace (Z.to_nat (arg_max_iter args)) with 0 by lia.
    simpl; lia.
Qed.

Lemma find_first (A : Type) (f : A -> bool) (before after : list A)
  (a : A) :
  (forall b, In b before -> f b = false) -> f a = true ->
  find f (before ++ a :: after) = Some a.
Proof.
  intros Hbefore Ha; induction before as [|b before IH]; simpl.
  - rewrite Ha; reflexivity.
  - rewrite (Hbefore b) by (left; reflexivity).
    apply IH; intros c Hc; apply Hbefore; right; exact Hc.
Qed.

(** X19. When a data path that was given and is not the empty string does
    not exist, [main] raises the FileNotFoundError of line 327 for the
    first such path in the order train, valid, test, right after the
    seeding: [run_matching] is not called, so nothing is loaded or trained.
    The paths before it in that order were absent, empty or existing; an
    absent or empty path is not checked. *)
Theorem main_stops_at_first_missing_data_path (args : Args) (w : World)
  (before after : list (option string)) (path : string) :
  [Some (arg_train_path args); arg_valid_path args; arg_test_path args]
  = before ++ Some path :: after ->
  (forall p, In (Some p) before -> p = ""%string \/ path_exists p = true) ->
  path <> ""%string ->
  path_exists path = false ->
  main set_seeds path_exists args w
  = (FileNotFoundError path, set_rng (set_seeds (arg_seed args)) w).
Proof.
  intros Hpaths Hbefore Hne Hmissing.
  unfold main, first_missing.
  rewrite Hpaths, (find_first _ (missing path_exists) before after
                     (Some path)); [reflexivity| |].
  - intros [p|] Hin; simpl; [|reflexivity].
    destruct (Hbefore p Hin) as [->|Hex]; [reflexivity|].
    rewrite Hex; apply andb_false_r.
  - simpl; rewrite Hmissing.
    apply String.eqb_neq in Hne; rewrite Hne; reflexivity.
Qed.

End MainFacts.

(** * The further properties on the concrete instance *)

Lemma demo_orders_bits : @orders_bits Demo.externals.
Proof.
  repeat split.
Qed.

Lemma demo_split_well_formed (cfg : Config) (path : string) :
  cfg_n_support cfg = 1%Z -> cfg_n_classes cfg = 2%Z ->
  cfg_n_query cfg = 1%Z ->
  path = "train.jsonl"%string \/ path = "valid.jsonl"%string ->
  @split_well_formed Demo.externals cfg path.
Proof.
  intros Hs Hc Hq Hpath g g'.
  rewrite Hs, Hc, Hq.
  destruct Hpath as [->| ->]; eexists; eexists; split; reflexivity.
Qed.

Lemma raw_data_shuffled_within_label_witness :
  exists d g',
    @raw_data_to_labels_dict Demo.externals Demo.reverse Demo.lines true 0
    = (Some d, g')
    /\ Permutation ["s1"; "s3"]%string (values_of d "A")
    /\ NoDup (map fst d).
Proof.
  eexists; eexists; split; [vm_compute; reflexivity|].
  destruct (@raw_data_shuffled_within_label Demo.externals Demo.reverse
              Demo.lines 0 _ _
              (fun g l => Permutation_rev l) eq_refl)
    as (Hnd & Hperm & _).
  split; [exact (Hperm "A"%string) | exact Hnd].
Defined.

Lemma loss_raises_only_assertion_or_index_witness :
  exists e w',
    @loss Demo.externals Demo.euclidean_net Demo.episode_mismatch
      Demo.world0 = (Raise e, w')
    /\ (e = AssertionError \/ e = IndexError).
Proof.
  exists AssertionError, Demo.world0; split; [reflexivity|].
  destruct (@loss_raises_only_assertion_or_index Demo.externals
              Demo.euclidean_net Demo.episode_mismatch Demo.world0
              Demo.world0 AssertionError eq_refl eq_refl)
    as [(He & _)|[(He & _)|(He & _)]]; auto.
Defined.

Lemma loss_predictions_are_class_indices_witness :
  exists r w',
    @loss Demo.externals Demo.euclidean_net Demo.episode_2_1_1 Demo.world0
    = (Ok r, w')
    /\ List.length (d_y_hat (snd r)) = 2
    /\ Forall (fun c => c < 2) (d_y_hat (snd r)).
Proof.
  exact (@loss_predictions_are_class_indices Demo.externals
           Demo.euclidean_net Demo.episode_2_1_1 2 1 1 Demo.world0
           eq_refl eq_refl demo_length_preserving).
Defined.

Lemma loss_targets_are_row_div_query_witness :
  exists l w',
    @loss_locals Demo.externals Demo.cosine_net Demo.episode_1_1_2
      Demo.world0 = (Ok l, w')
    /\ argmax1 (true_labels l) = [0; 0].
Proof.
  destruct (@loss_targets_are_row_div_query Demo.externals Demo.cosine_net
              Demo.episode_1_1_2 1 1 2 Demo.world0 demo_orders_bits
              eq_refl eq_refl demo_length_preserving)
    as (l & w' & Hrun & Htargets & _).
  exists l, w'; split; [exact Hrun | exact Htargets].
Defined.

Lemma loss_with_ragged_support_witness :
  is_ok (fst (@loss Demo.externals Demo.euclidean_net Demo.episode_ragged
                Demo.world0)) = true.
Proof.
  apply (@loss_with_ragged_support Demo.externals Demo.euclidean_net
           Demo.episode_ragged 2 1 Demo.world0);
    try reflexivity; try exact demo_length_preserving; simpl; lia.
Defined.

Lemma test_step_reports_a_ratio_witness :
  exists r w',
    @test_step Demo.externals Demo.euclidean_net
      (fst (Demo.files 0 "valid.jsonl")) 1 2 1 3 Demo.world0 = (Ok r, w')
    /\ unit_ratio (r_acc r)
    /\ List.length (forward_calls w') = 3.
Proof.
  destruct (@test_step_reports_a_ratio Demo.externals Demo.euclidean_net
              (fst (Demo.files 0 "valid.jsonl")) 1 2 1 3 Demo.world0
              eq_refl demo_length_preserving
              (demo_split_well_formed Demo.stop_config "valid.jsonl"
                 eq_refl eq_refl eq_refl (or_intror eq_refl) 0)
              ltac:(lia))
    as (r & w' & Hrun & Hacc & _ & Hcalls).
  exists r, w'; split; [exact Hrun|]; split; [exact Hacc | exact Hcalls].
Defined.

Lemma evaluation_without_episodes_counts_as_worse_witness :
  exists st' w',
    @evaluate_set Demo.externals Demo.empty_evaluation_config
      Demo.euclidean_net Valid (Some "valid.jsonl"%string)
      (fst (Demo.files 0 "valid.jsonl")) 0
      (initial_state Demo.empty_evaluation_config) Demo.world0
    = (Ok st', w')
    /\ n_eval_since_last_best st' = 1
    /\ forward_calls w' = [].
Proof.
  destruct (@evaluation_without_episodes_counts_as_worse Demo.externals
              Demo.empty_evaluation_config Demo.euclidean_net
              (Some "valid.jsonl"%string) (fst (Demo.files 0 "valid.jsonl"))
              0 (initial_state Demo.empty_evaluation_config) Demo.world0
              ltac:(simpl; lia) eq_refl)
    as (st' & w' & Hrun & Hc & _ & _ & _ & Hcalls & _).
  exists st', w'; split; [exact Hrun|]; split; [exact Hc | exact Hcalls].
Defined.

Lemma train_log_averages_full_windows_witness :
  (0 < log_every Demo.patient_config)%Z
  /\ exists st out w',
       @run_matching Demo.externals Demo.patient_config Demo.world0
       = (Ok (st, out), w')
       /\ List.length (@train_metrics_of_run Demo.externals
                         Demo.patient_config Demo.world0)
          = executed Demo.patient_config out
       /\ train_accuracies st
          = map d_acc
              (open_window Demo.patient_config
                 (@train_metrics_of_run Demo.externals Demo.patient_config
                    Demo.world0)).
Proof.
  split; [simpl; lia|].
  assert (Hok : is_ok (fst (@run_matching Demo.externals
                              Demo.patient_config Demo.world0)) = true)
    by (vm_compute; reflexivity).
  destruct (@run_matching Demo.externals Demo.patient_config Demo.world0)
    as [[[st out]|e] w'] eqn:Hrun; [|discriminate Hok].
  exists st, out, w'; split; [reflexivity|].
  destruct (@train_log_averages_full_windows Demo.externals
              Demo.patient_config st out Demo.world0 w'
              ltac:(simpl; lia) Hrun)
    as (Hlen & _ & _ & Haccs & _).
  split; [exact Hlen | exact Haccs].
Defined.

Lemma held_out_log_steps_witness :
  exists st out w' l,
    @run_matching Demo.externals Demo.patient_config Demo.world0
    = (Ok (st, out), w')
    /\ log_valid (log_dict st) = Some l
    /\ map global_step l
       = eval_steps Demo.patient_config
           (seq 0 (executed Demo.patient_config out)).
Proof.
  assert (Hok : is_ok (fst (@run_matching Demo.externals
                              Demo.patient_config Demo.world0)) = true)
    by (vm_compute; reflexivity).
  destruct (@run_matching Demo.externals Demo.patient_config Demo.world0)
    as [[[st out]|e] w'] eqn:Hrun; [|discriminate Hok].
  destruct (@held_out_log_steps Demo.externals Demo.patient_config
              st out Demo.world0 w' Hrun) as ((l & Hl & Hsteps) & _).
  exists st, out, w', l; split; [reflexivity|]; split; assumption.
Defined.

Lemma no_validation_set_no_early_stop_witness :
  exists st w',
    @run_matching Demo.externals Demo.test_only_config Demo.world0
    = (Ok (st, StoppedMaxIter), w')
    /\ n_eval_since_last_best st = 0.
Proof.
  assert (Hok : is_ok (fst (@run_matching Demo.externals
                              Demo.test_only_config Demo.world0)) = true)
    by (vm_compute; reflexivity).
  destruct (@run_matching Demo.externals Demo.test_only_config Demo.world0)
    as [[[st out]|e] w'] eqn:Hrun; [|discriminate Hok].
  assert (Hnonneg : forall es,
             early_stop Demo.test_only_config = Some es -> (0 <= es)%Z).
  { intros es Hes; simpl in Hes; injection Hes as <-; lia. }
  destruct (@no_validation_set_no_early_stop Demo.externals
              Demo.test_only_config st out Demo.world0 w' eq_refl
              Hnonneg Hrun) as (-> & Hc & _).
  exists st, w'; split; [reflexivity | exact Hc].
Defined.

Lemma negative_early_stop_breaks_at_first_evaluation_witness :
  exists st s w',
    @run_matching Demo.externals Demo.negative_stop_config Demo.world0
    = (Ok (st, StoppedEarly s), w')
    /\ due s (evaluate_every Demo.negative_stop_config) = Ok true.
Proof.
  assert (Hout : option_map snd
                   (ok_value (fst (@run_matching Demo.externals
                                     Demo.negative_stop_config
                                     Demo.world0)))
                 = Some (StoppedEarly 1))
    by (vm_compute; reflexivity).
  destruct (@run_matching Demo.externals Demo.negative_stop_config
              Demo.world0) as [[[st out]|e] w'] eqn:Hrun;
    [|discriminate Hout].
  simpl in Hout; injection Hout as ->.
  exists st, 1, w'; split; [reflexivity|].
  apply (@negative_early_stop_breaks_at_first_evaluation Demo.externals
           Demo.negative_stop_config st (StoppedEarly 1) Demo.world0 w'
           (-1)%Z eq_refl ltac:(lia) eq_refl Hrun).
Defined.

Lemma best_accuracy_is_the_maximum_witness :
  exists st out w' b,
    @run_matching Demo.externals Demo.patient_config Demo.world0
    = (Ok (st, out), w')
    /\ best_valid_acc st = Fin b
    /\ (0 <= b)%Q.
Proof.
  assert (Hok : is_ok (fst (@run_matching Demo.externals
                              Demo.patient_config Demo.world0)) = true)
    by (vm_compute; reflexivity).
  destruct (@run_matching Demo.externals Demo.patient_config Demo.world0)
    as [[[st out]|e] w'] eqn:Hrun; [|discriminate Hok].
  destruct (@best_accuracy_is_the_maximum Demo.externals
              Demo.patient_config st out Demo.world0 w' Hrun)
    as (b & Hb & Hpos & _).
  exists st, out, w', b; split; [reflexivity|]; split; assumption.
Defined.

Lemma training_loop_never_raises_witness :
  exists st' out w',
    @training_loop Demo.externals Demo.stop_config Demo.euclidean_net
      (fst (Demo.files 0 "train.jsonl")) (fst (Demo.files 0 "valid.jsonl"))
      [] (seq 0 5) (initial_state Demo.stop_config) Demo.world0
    = (Ok (st', out), w').
Proof.
  destruct (@training_loop_never_raises Demo.externals Demo.stop_config
              Demo.euclidean_net
              (fst (Demo.files 0 "train.jsonl"))
              (fst (Demo.files 0 "valid.jsonl")) [] (seq 0 5)
              (initial_state Demo.stop_config) Demo.world0
              eq_refl demo_length_preserving
              ltac:(simpl; lia) ltac:(intros _; simpl; lia)
              (demo_split_well_formed Demo.stop_config "train.jsonl"
                 eq_refl eq_refl eq_refl (or_introl eq_refl) 0)
              (fun _ => demo_split_well_formed Demo.stop_config "valid.jsonl"
                          eq_refl eq_refl eq_refl (or_intror eq_refl) 0)
              ltac:(discriminate))
    as (st' & out & w' & Hrun & _).
  exists st', out, w'; exact Hrun.
Defined.

Lemma zero_cadence_raises_after_first_step_witness :
  exists w',
    @run_matching Demo.externals Demo.zero_log_config Demo.world0
    = (Raise ZeroDivisionError, w')
    /\ optimizer_steps w' = 1.
Proof.
  destruct (@zero_cadence_raises_after_first_step Demo.externals
              Demo.zero_log_config Demo.world0 eq_refl
              demo_length_preserving
              (demo_split_well_formed Demo.zero_log_config "train.jsonl"
                 eq_refl eq_refl eq_refl (or_introl eq_refl))
              ltac:(simpl; lia) (or_introl eq_refl))
    as (w' & Hrun & Hs & _).
  exists w'; split; [exact Hrun | exact Hs].
Defined.

Lemma main_ignores_log_every_witness :
  arg_log_every Demo.command_line = 0%Z
  /\ exists st w',
       @main Demo.externals Demo.seed_state Demo.every_path_exists
         Demo.command_line Demo.world0
       = (Finished (Ok (st, StoppedMaxIter)), w')
       /\ List.length (log_train (log_dict st)) = 2.
Proof.
  split; [reflexivity|].
  destruct (@main_ignores_log_every Demo.externals Demo.seed_state
              Demo.every_path_exists Demo.command_line Demo.world0
              eq_refl eq_refl eq_refl eq_refl demo_length_preserving
              (demo_split_well_formed
                 (run_matching_arguments Demo.command_line) "train.jsonl"
                 eq_refl eq_refl eq_refl (or_introl eq_refl)))
    as (st & w' & Hrun & _ & Hlen & _).
  exists st, w'; split; [exact Hrun | exact Hlen].
Defined.

Lemma early_stop_not_before_enough_evaluations_witness :
  exists st w',
    @run_matching Demo.externals Demo.stop_config Demo.world0
    = (Ok (st, StoppedEarly 0), w')
    /\ (1 * evaluate_every Demo.stop_config <= Z.of_nat 0 + 1)%Z.
Proof.
  assert (Hout : option_map snd
                   (ok_value (fst (@run_matching Demo.externals
                                     Demo.stop_config Demo.world0)))
                 = Some (StoppedEarly 0))
    by (vm_compute; reflexivity).
  destruct (@run_matching Demo.externals Demo.stop_config Demo.world0)
    as [[[st out]|e] w'] eqn:Hrun; [|discriminate Hout].
  simpl in Hout; injection Hout as ->.
  exists st, w'; split; [reflexivity|].
  apply (@early_stop_not_before_enough_evaluations Demo.externals
           Demo.stop_config st 0 Demo.world0 w' 1%Z eq_refl
           ltac:(lia) ltac:(simpl; lia) Hrun).
Defined.

Lemma main_stops_at_first_missing_data_path_witness :
  @main Demo.externals Demo.seed_state Demo.only_train_exists
    Demo.command_line_without_valid_file Demo.world0
  = (FileNotFoundError "missing.jsonl",
     @set_rng Demo.externals (Demo.seed_state 42) Demo.world0).
Proof.
  apply (@main_stops_at_first_missing_data_path Demo.externals
           Demo.seed_state Demo.only_train_exists
           Demo.command_line_without_valid_file Demo.world0
           [Some "train.jsonl"%string] [None] "missing.jsonl"%string).
  - reflexivity.
  - intros p [Hp|[]]; injection Hp as <-; right; reflexivity.
  - discriminate.
  - reflexivity.
Defined.

Lemma single_class_predictions_all_match_witness :
  exists r w',
    @loss Demo.externals Demo.cosine_net Demo.episode_1_1_2 Demo.world0
    = (Ok r, w')
    /\ d_y_hat (snd r) = [0; 0].
Proof.
  destruct (@single_class_predictions_all_match Demo.externals
              Demo.cosine_net Demo.episode_1_1_2 1 2 Demo.world0
              eq_refl eq_refl demo_length_preserving)
    as (r & w' & l & Hrun & _ & Hy & _).
  exists r, w'; split; [exact Hrun | exact Hy].
Defined.
